(** * dex-trader: price normalisation, arbitrage analysis and retry handling

    A shallow embedding of the JavaScript sources

    - [src/config.js]        (GAS_CONFIG, ARBITRAGE_CONFIG, TOKENS, POOLS)
    - [src/priceFetcher.js]  (sqrtPriceX96ToPrice, sqrtPriceX96ToInversePrice,
                              fetchPricesMultipleDEXes)
    - [src/arbitrage.js]     (calculatePriceDifference ... analyzeArbitrage)
    - [src/aiAgent.js]       (AIAgent.analyzeError and its helpers, the
                              authorization workflow, reset)
    - [src/errorHandler.js]  (SmartErrorHandler.wrapAsync and its helpers)

    JavaScript Numbers are IEEE 754 binary64 values; they are embedded as
    Rocq's primitive [float], whose operations are the same round-to-nearest
    binary64 operations.  BigInts are embedded as [Z].  What the engine or
    the environment provides ([**], [toLowerCase], the contract reads, the
    clock) is a parameter of the definitions that use it. *)

From Stdlib Require Import ZArith List String Ascii Bool Lia Floats Sorted
  DecimalString.
Import ListNotations.

Set Warnings "-inexact-float".

(* ===================================================================== *)
(** ** JavaScript values used by the sources *)

Module Js.

Local Open Scope float_scope.

(** [x === y] on two Numbers: IEEE equality ([NaN] differs from itself,
    [+0] equals [-0]). *)
Definition strictEq (x y : float) : bool := x =? y.

(** [x > y] and [x >= y] on Numbers. *)
Definition gt (x y : float) : bool := y <? x.
Definition ge (x y : float) : bool := y <=? x.

(** ToBoolean on a Number: false exactly for [+0], [-0] and [NaN]. *)
Definition truthyNumber (x : float) : bool :=
  negb (x =? 0) && negb (is_nan x).

(** ToBoolean on a property holding a Number or being absent. *)
Definition truthyNumberField (x : option float) : bool :=
  match x with
  | None => false
  | Some v => truthyNumber v
  end.

(** ToBoolean on a property holding a string or being absent:
    [undefined] and the empty string are falsy. *)
Definition truthyStringField (s : option string) : bool :=
  match s with
  | None => false
  | Some EmptyString => false
  | Some (String _ _) => true
  end.

(** [Number(b)] for a BigInt [b]: the nearest binary64 value, ties to
    even. *)
Definition numberOfBigInt (b : Z) : float :=
  SF2Prim (binary_normalize prec emax b 0%Z false).

(** [Math.pow(2, k)] for an integer [k]: the binary64 value of the power
    of two ([0.5] at [k = -1], [Infinity] from [k = 1024] on). *)
Definition pow2 (k : Z) : float := Z.ldexp 1 k.

End Js.

(* ===================================================================== *)
(** ** src/config.js *)

Module Config.

Local Open Scope float_scope.

(** GAS_CONFIG.MIN_PROFIT_THRESHOLD_USD *)
Definition MIN_PROFIT_THRESHOLD_USD : float := 1.0.

(** ARBITRAGE_CONFIG *)
Definition MIN_PRICE_DIFF_PERCENT : float := 0.1.
Definition TRADE_SIZE_ETH : float := 1.0.
Definition SLIPPAGE_TOLERANCE_PERCENT : float := 0.5.

End Config.

(* ===================================================================== *)
(** ** src/priceFetcher.js *)

Module PriceFetcher.

Local Open Scope float_scope.

(** The first argument of the normaliser: [null], [undefined] or a
    BigInt (what [slot0] yields). *)
Inductive SqrtPriceArg : Type :=
| ArgNull
| ArgUndefined
| ArgBigInt (n : Z).

Section Normalizer.

(** [x ** y] on Numbers.  ECMAScript leaves the result
    implementation-approximated, so the operator is a parameter of the
    normaliser. *)
Variable exponentiate : float -> float -> float.

Definition Q96 : Z := 2 ^ 96.

Definition sqrtPriceX96ToPrice
    (sqrtPriceX96 : SqrtPriceArg) (token0Decimals token1Decimals : float)
  : float :=
  match sqrtPriceX96 with
  | ArgNull => 0
  | ArgUndefined => 0
  | ArgBigInt n =>
      if (n =? 0)%Z then 0
      else
        let sqrtPrice := Js.numberOfBigInt n / Js.numberOfBigInt Q96 in
        let price := sqrtPrice * sqrtPrice in
        let decimalAdjustment :=
          exponentiate 10 (token0Decimals - token1Decimals) in
        price * decimalAdjustment
  end.

Definition sqrtPriceX96ToInversePrice
    (sqrtPriceX96 : SqrtPriceArg) (token0Decimals token1Decimals : float)
  : float :=
  let price :=
    sqrtPriceX96ToPrice sqrtPriceX96 token0Decimals token1Decimals in
  1 / price.

End Normalizer.

End PriceFetcher.

(* ===================================================================== *)
(** ** src/arbitrage.js *)

Module Arbitrage.

Local Open Scope float_scope.

(** One entry of the array handed to [analyzeArbitrage]: either a quote
    built by a fetcher or [{ dex, error }] built by its [catch]. *)
Record PriceData : Type := mkPriceData {
  dex : string;
  error : option string;
  priceToken0InToken1 : option float;
  liquidity : option string
}.

(** Reading the price of an entry in a numeric position; an absent
    property is [undefined], which every comparison and arithmetic
    operator below treats as [NaN]. *)
Definition priceOf (p : PriceData) : float :=
  match priceToken0InToken1 p with
  | Some v => v
  | None => nan
  end.

Definition calculatePriceDifference (price1 price2 : float) : float :=
  if Js.strictEq price1 0 || Js.strictEq price2 0 then 0
  else
    let avgPrice := (price1 + price2) / 2 in
    let diff := abs (price1 - price2) in
    (diff / avgPrice) * 100.

Record Direction : Type := mkDirection {
  buyFrom : string;
  buyPrice : float;
  sellTo : string;
  sellPrice : float;
  priceDiffPercent : float
}.

Definition determineArbitrageDirection (priceData1 priceData2 : PriceData)
  : Direction :=
  let price1 := priceOf priceData1 in
  let price2 := priceOf priceData2 in
  if price1 <? price2 then
    {| buyFrom := dex priceData1;
       buyPrice := price1;
       sellTo := dex priceData2;
       sellPrice := price2;
       priceDiffPercent := calculatePriceDifference price1 price2 |}
  else
    {| buyFrom := dex priceData2;
       buyPrice := price2;
       sellTo := dex priceData1;
       sellPrice := price1;
       priceDiffPercent := calculatePriceDifference price1 price2 |}.

Record PotentialProfit : Type := mkPotentialProfit {
  tradeAmount : float;
  costToBuy : float;
  revenueFromSell : float;
  grossProfitQuote : float;
  profitPercent : float;
  effectiveBuyPrice : float;
  effectiveSellPrice : float
}.

Definition calculatePotentialProfit
    (buyPrice sellPrice tradeAmount slippagePercent : float)
  : PotentialProfit :=
  let effectiveBuyPrice := buyPrice * (1 + slippagePercent / 100) in
  let effectiveSellPrice := sellPrice * (1 - slippagePercent / 100) in
  let costToBuy := tradeAmount * effectiveBuyPrice in
  let revenueFromSell := tradeAmount * effectiveSellPrice in
  let grossProfitQuote := revenueFromSell - costToBuy in
  let profitPercent := (grossProfitQuote / costToBuy) * 100 in
  {| tradeAmount := tradeAmount;
     costToBuy := costToBuy;
     revenueFromSell := revenueFromSell;
     grossProfitQuote := grossProfitQuote;
     profitPercent := profitPercent;
     effectiveBuyPrice := effectiveBuyPrice;
     effectiveSellPrice := effectiveSellPrice |}.

Record NetProfit : Type := mkNetProfit {
  grossProfitUsd : float;
  totalGasCostUsd : float;
  netProfitUsd : float;
  isProfitable : bool;
  profitAfterGasPercent : float
}.

Definition calculateNetProfit (grossProfitUsd gasCostUsd : float)
  : NetProfit :=
  let totalGasCost := gasCostUsd * 2 in
  let netProfitUsd := grossProfitUsd - totalGasCost in
  let isProfitable := Js.gt netProfitUsd Config.MIN_PROFIT_THRESHOLD_USD in
  {| grossProfitUsd := grossProfitUsd;
     totalGasCostUsd := totalGasCost;
     netProfitUsd := netProfitUsd;
     isProfitable := isProfitable;
     profitAfterGasPercent :=
       if Js.gt grossProfitUsd 0
       then (netProfitUsd / grossProfitUsd) * 100
       else 0 |}.

(** The recommendation is a text template; the embedding keeps which
    template is chosen and the numbers it prints ([toFixed] is not
    modelled). *)
Inductive Recommendation : Type :=
| NoTradeBelowThreshold
| NoTradeGasExceedsProfit (totalGasCostUsd grossProfitUsd : float)
| ProfitableNet (netProfitUsd : float).

Definition getRecommendation (netProfitCalc : NetProfit)
    (priceDiffPercent : float) : Recommendation :=
  if priceDiffPercent <? Config.MIN_PRICE_DIFF_PERCENT then
    NoTradeBelowThreshold
  else if negb (isProfitable netProfitCalc) then
    NoTradeGasExceedsProfit (totalGasCostUsd netProfitCalc)
                            (grossProfitUsd netProfitCalc)
  else ProfitableNet (netProfitUsd netProfitCalc).

Record DirectionReport : Type := mkDirectionReport {
  r_buyFrom : string;
  r_buyPrice : float;
  r_sellTo : string;
  r_sellPrice : float
}.

Record PriceDifference : Type := mkPriceDifference {
  percent : float;
  meetsThreshold : bool
}.

Record ProfitAnalysis : Type := mkProfitAnalysis {
  pa_tradeAmountEth : float;
  pa_grossProfitUsd : float;
  pa_gasCostUsd : float;
  pa_netProfitUsd : float;
  pa_profitAfterSlippage : float
}.

Record PriceEntry : Type := mkPriceEntry {
  pe_dex : string;
  pe_price : float;
  pe_liquidity : option string
}.

(** The object returned on the complete path of [analyzeArbitrage]. *)
Record Analysis : Type := mkAnalysis {
  a_hasOpportunity : bool;
  a_isProfitableAfterGas : bool;
  a_direction : DirectionReport;
  a_priceDifference : PriceDifference;
  a_profitAnalysis : ProfitAnalysis;
  a_recommendation : Recommendation;
  a_allPrices : list PriceEntry;
  a_timestamp : string
}.

(** The three shapes of object [analyzeArbitrage] returns. *)
Inductive AnalysisResult : Type :=
| InsufficientData (reason : string) (validDexCount : nat)
| SameDex (reason : string) (prices : list (string * float))
| Complete (a : Analysis).

(** The callback of [prices.filter]. *)
Definition isValidPrice (p : PriceData) : bool :=
  negb (Js.truthyStringField (error p))
  && Js.truthyNumberField (priceToken0InToken1 p).

(** One iteration of the [for ... of validPrices] scan. *)
Definition scanStep (best : PriceData * PriceData) (price : PriceData)
  : PriceData * PriceData :=
  let '(bestBuy, bestSell) := best in
  let bestBuy :=
    if priceOf price <? priceOf bestBuy then price else bestBuy in
  let bestSell :=
    if Js.gt (priceOf price) (priceOf bestSell) then price else bestSell in
  (bestBuy, bestSell).

Definition findBest (first : PriceData) (validPrices : list PriceData)
  : PriceData * PriceData :=
  fold_left scanStep validPrices (first, first).

(** [now] is the value of [new Date().toISOString()] at the call. *)
Definition analyzeArbitrage (prices : list PriceData)
    (tradeAmountEth gasCostUsd : float) (now : string) : AnalysisResult :=
  let validPrices := filter isValidPrice prices in
  match validPrices with
  | [] | [_] =>
      InsufficientData "Insufficient valid price data from DEXes"
                       (List.length validPrices)
  | first :: _ :: _ =>
      let '(bestBuy, bestSell) := findBest first validPrices in
      if String.eqb (dex bestBuy) (dex bestSell) then
        SameDex "Best buy and sell prices are from the same DEX"
                (map (fun p => (dex p, priceOf p)) validPrices)
      else
        let direction := determineArbitrageDirection bestBuy bestSell in
        let profitCalc :=
          calculatePotentialProfit (buyPrice direction) (sellPrice direction)
            tradeAmountEth Config.SLIPPAGE_TOLERANCE_PERCENT in
        let netProfitCalc :=
          calculateNetProfit (grossProfitQuote profitCalc) gasCostUsd in
        let hasOpportunity :=
          Js.ge (priceDiffPercent direction) Config.MIN_PRICE_DIFF_PERCENT in
        Complete
          {| a_hasOpportunity := hasOpportunity;
             a_isProfitableAfterGas := isProfitable netProfitCalc;
             a_direction :=
               {| r_buyFrom := buyFrom direction;
                  r_buyPrice := buyPrice direction;
                  r_sellTo := sellTo direction;
                  r_sellPrice := sellPrice direction |};
             a_priceDifference :=
               {| percent := priceDiffPercent direction;
                  meetsThreshold :=
                    Js.ge (priceDiffPercent direction)
                          Config.MIN_PRICE_DIFF_PERCENT |};
             a_profitAnalysis :=
               {| pa_tradeAmountEth := tradeAmountEth;
                  pa_grossProfitUsd := grossProfitQuote profitCalc;
                  pa_gasCostUsd := totalGasCostUsd netProfitCalc;
                  pa_netProfitUsd := netProfitUsd netProfitCalc;
                  pa_profitAfterSlippage := profitPercent profitCalc |};
             a_recommendation :=
               getRecommendation netProfitCalc (priceDiffPercent direction);
             a_allPrices :=
               map (fun p => {| pe_dex := dex p;
                                pe_price := priceOf p;
                                pe_liquidity := liquidity p |}) validPrices;
             a_timestamp := now |}
  end.

(** Property reads on the returned object; a property the object does
    not have reads as [None] ([undefined]). *)
Definition hasOpportunity (r : AnalysisResult) : bool :=
  match r with
  | InsufficientData _ _ => false
  | SameDex _ _ => false
  | Complete a => a_hasOpportunity a
  end.

Definition isProfitableAfterGas (r : AnalysisResult) : option bool :=
  match r with
  | Complete a => Some (a_isProfitableAfterGas a)
  | _ => None
  end.

Definition reason (r : AnalysisResult) : option string :=
  match r with
  | InsufficientData s _ => Some s
  | SameDex s _ => Some s
  | Complete _ => None
  end.

Definition validDexCount (r : AnalysisResult) : option nat :=
  match r with
  | InsufficientData _ n => Some n
  | _ => None
  end.

End Arbitrage.

(* ===================================================================== *)
(** ** src/aiAgent.js *)

Module AIAgent.

Local Open Scope string_scope.
Local Open Scope list_scope.

(** ERROR_CATEGORIES: a closed enumeration (its values are the strings
    given by [categoryName]). *)
Inductive ErrorCategory : Type :=
| NETWORK | CONTRACT | PRICE | LIQUIDITY | GAS
| SLIPPAGE | CONFIG | LOGIC | UNKNOWN.

Definition categoryName (c : ErrorCategory) : string :=
  match c with
  | NETWORK => "network_error"
  | CONTRACT => "contract_error"
  | PRICE => "price_error"
  | LIQUIDITY => "liquidity_error"
  | GAS => "gas_error"
  | SLIPPAGE => "slippage_error"
  | CONFIG => "configuration_error"
  | LOGIC => "logic_error"
  | UNKNOWN => "unknown_error"
  end.

Definition category_eqb (a b : ErrorCategory) : bool :=
  String.eqb (categoryName a) (categoryName b).

(** A thrown [Error]: its [name], [message], and the optional [code] and
    [stack] properties. *)
Record JsError : Type := mkJsError {
  name : string;
  message : string;
  code : option string;
  stack : option string
}.

(** The [context] object: the [operation] and [retryCount] properties the
    sources read or write, and the remaining properties as given. *)
Record Context : Type := mkContext {
  operation : option string;
  retryCount : option Z;
  others : list (string * string)
}.

(** Strings are sequences of bytes, the UTF-8 encoding of the JavaScript
    string; the literals the sources search for and compare with are
    ASCII, for which a search on the bytes is a search on the string. *)

(** [s.includes(sub)] *)
Fixpoint includes (s sub : string) : bool :=
  match s with
  | EmptyString => String.prefix sub EmptyString
  | String _ rest => String.prefix sub s || includes rest sub
  end.

(** [x || ''] on an optional string property. *)
Definition orEmpty (x : option string) : string :=
  match x with
  | Some v => v
  | None => EmptyString
  end.

(** [x === lit] on an optional string property, [lit] a string literal. *)
Definition fieldIs (x : option string) (lit : string) : bool :=
  match x with
  | Some v => String.eqb v lit
  | None => false
  end.

Section Engine.

(** [s.toLowerCase()].  ECMAScript lower-cases by the Unicode case
    mappings, also outside ASCII (the Kelvin sign U+212A becomes [k]); the
    function is a parameter of the agent, and nothing is assumed of it. *)
Variable toLowerCase : string -> string.

Definition _categorizeError (error : JsError) (context : Context)
  : ErrorCategory :=
  let message := toLowerCase (message error) in
  let code := orEmpty (code error) in
  if String.eqb code "NETWORK_ERROR" || includes message "network"
     || includes message "timeout" || includes message "connection"
  then NETWORK
  else if includes message "contract" || includes message "revert"
          || includes message "execution reverted"
          || String.eqb code "CALL_EXCEPTION"
  then CONTRACT
  else if includes message "price" || includes message "sqrtprice"
          || includes message "slot0"
          || fieldIs (operation context) "price_fetch"
  then PRICE
  else if includes message "liquidity" || includes message "insufficient"
  then LIQUIDITY
  else if includes message "gas" || includes message "fee"
          || String.eqb code "INSUFFICIENT_FUNDS"
  then GAS
  else if includes message "slippage" || includes message "price impact"
          || includes message "too much"
  then SLIPPAGE
  else if includes message "config" || includes message "invalid address"
          || includes message "unknown pair"
  then CONFIG
  else if includes message "cannot read" || includes message "undefined"
          || includes message "null" || includes message "nan"
  then LOGIC
  else UNKNOWN.

Definition severityMap (c : ErrorCategory) : nat :=
  match c with
  | NETWORK => 3
  | CONTRACT => 4
  | PRICE => 3
  | LIQUIDITY => 4
  | GAS => 3
  | SLIPPAGE => 2
  | CONFIG => 5
  | LOGIC => 5
  | UNKNOWN => 3
  end.

Definition _assessSeverity (error : JsError) (context : Context) : nat :=
  let category := _categorizeError error context in
  match severityMap category with
  | O => 3
  | n => n
  end.

Record RootCause : Type := mkRootCause {
  cause : string;
  details : string;
  possibleReasons : list string
}.

Definition _findRootCause (error : JsError) (context : Context)
    (category : ErrorCategory) : RootCause :=
  match category with
  | NETWORK =>
      {| cause := "Network connectivity or RPC endpoint issue";
         details := "The connection to the blockchain RPC endpoint failed or timed out";
         possibleReasons :=
           ["RPC endpoint is down or overloaded";
            "Network latency is too high";
            "Rate limiting from the RPC provider";
            "Internet connectivity issues"] |}
  | CONTRACT =>
      {| cause := "Smart contract execution failure";
         details := "The smart contract call failed during execution";
         possibleReasons :=
           ["Contract address is incorrect";
            "ABI mismatch with actual contract";
            "Contract state has changed";
            "Insufficient permissions or allowances"] |}
  | PRICE =>
      {| cause := "Price data retrieval or calculation error";
         details := "Failed to fetch or calculate accurate price data";
         possibleReasons :=
           ["Pool address is incorrect or pool doesn't exist";
            "sqrtPriceX96 value is invalid or zero";
            "Decimal calculations are incorrect";
            "Pool has no liquidity"] |}
  | LIQUIDITY =>
      {| cause := "Insufficient liquidity in pool";
         details := "The trading pool lacks sufficient liquidity for the trade";
         possibleReasons :=
           ["Trade size exceeds available liquidity";
            "Pool is new with minimal deposits";
            "Liquidity has been withdrawn";
            "Price range has no active positions"] |}
  | GAS =>
      {| cause := "Gas estimation or payment failure";
         details := "Transaction gas requirements could not be met";
         possibleReasons :=
           ["Gas price spiked during execution";
            "Gas limit too low for operation";
            "Wallet has insufficient ETH for gas";
            "Network congestion causing high fees"] |}
  | SLIPPAGE =>
      {| cause := "Price slippage exceeded tolerance";
         details := "The actual execution price deviated too much from expected";
         possibleReasons :=
           ["Trade size too large for pool depth";
            "Other trades executed during transaction";
            "Slippage tolerance set too tight";
            "Price manipulation or sandwich attack"] |}
  | CONFIG =>
      {| cause := "Configuration parameter error";
         details := "One or more configuration parameters are invalid";
         possibleReasons :=
           ["Token address is incorrect";
            "Pool address doesn't exist";
            "DEX configuration mismatch";
            "Network configuration wrong"] |}
  | LOGIC =>
      {| cause := "Code logic or data handling error";
         details := "The code encountered an unexpected data state";
         possibleReasons :=
           ["Null or undefined value not handled";
            "Array index out of bounds";
            "Type mismatch in calculations";
            "Async operation not awaited properly"] |}
  | UNKNOWN =>
      {| cause := "Unidentified error";
         details := "The error does not match known patterns";
         possibleReasons :=
           ["New type of error not yet categorized";
            "External dependency failure";
            "Unexpected edge case";
            "Environment-specific issue"] |}
  end.

Record Recommendation : Type := mkRecommendation {
  priority : string;
  action : string;
  reasoning : string;
  implementation : string;
  expectedImprovement : string
}.

Definition recommendationsFor (category : ErrorCategory)
  : list Recommendation :=
  match category with
  | NETWORK =>
      [ {| priority := "high";
          action := "Switch to backup RPC endpoint";
          reasoning := "Primary RPC may be experiencing issues";
          implementation := "Use ALTERNATIVE_RPC_URLS from config";
          expectedImprovement := "Network reliability +50%" |};
        {| priority := "medium";
          action := "Implement exponential backoff retry";
          reasoning := "Temporary network issues may resolve with retries";
          implementation := "Add retry logic with increasing delays";
          expectedImprovement := "Success rate +30%" |} ]
  | CONTRACT =>
      [ {| priority := "high";
          action := "Verify contract address and ABI";
          reasoning := "Contract interaction failed";
          implementation := "Cross-check pool address with DEX documentation";
          expectedImprovement := "Eliminates contract errors" |};
        {| priority := "medium";
          action := "Add contract existence validation";
          reasoning := "Validate contract before interaction";
          implementation := "Check code exists at address before calls";
          expectedImprovement := "Prevents invalid contract calls" |} ]
  | PRICE =>
      [ {| priority := "high";
          action := "Add sqrtPriceX96 validation";
          reasoning := "Invalid price data causes calculation errors";
          implementation := "Validate sqrtPriceX96 > 0 before calculations";
          expectedImprovement := "Price calculation reliability +95%" |};
        {| priority := "medium";
          action := "Implement price sanity checks";
          reasoning := "Detect anomalous prices before use";
          implementation := "Compare against historical price range";
          expectedImprovement := "Prevents bad trade decisions" |} ]
  | LIQUIDITY =>
      [ {| priority := "high";
          action := "Check liquidity before trade analysis";
          reasoning := "Low liquidity pools are unsuitable for large trades";
          implementation := "Add minimum liquidity threshold check";
          expectedImprovement := "Trade success rate +40%" |};
        {| priority := "medium";
          action := "Implement dynamic trade sizing";
          reasoning := "Adjust trade size based on available liquidity";
          implementation := "Scale trade amount to pool depth";
          expectedImprovement := "Slippage reduction -60%" |} ]
  | GAS =>
      [ {| priority := "high";
          action := "Implement dynamic gas pricing";
          reasoning := "Static gas settings may be outdated";
          implementation := "Fetch real-time gas prices before execution";
          expectedImprovement := "Gas cost optimization +20%" |};
        {| priority := "medium";
          action := "Add gas buffer margin";
          reasoning := "Gas estimates can be inaccurate";
          implementation := "Increase gas limit by 20% safety margin";
          expectedImprovement := "Transaction success rate +15%" |} ]
  | SLIPPAGE =>
      [ {| priority := "high";
          action := "Adjust slippage tolerance dynamically";
          reasoning := "Fixed slippage may not suit all market conditions";
          implementation := "Calculate slippage based on trade size and liquidity";
          expectedImprovement := "Trade execution rate +25%" |};
        {| priority := "medium";
          action := "Implement trade splitting";
          reasoning := "Large trades cause more slippage";
          implementation := "Split large trades into smaller chunks";
          expectedImprovement := "Slippage cost reduction -40%" |} ]
  | CONFIG =>
      [ {| priority := "critical";
          action := "Validate all configuration on startup";
          reasoning := "Invalid config causes runtime failures";
          implementation := "Add config validation module with address checksums";
          expectedImprovement := "Eliminates config-related crashes" |} ]
  | LOGIC =>
      [ {| priority := "critical";
          action := "Add comprehensive null/undefined checks";
          reasoning := "Unhandled null values cause crashes";
          implementation := "Add defensive programming patterns";
          expectedImprovement := "Runtime stability +80%" |};
        {| priority := "high";
          action := "Implement input validation";
          reasoning := "Invalid inputs should fail fast";
          implementation := "Validate all function parameters at entry";
          expectedImprovement := "Error detection +50%" |} ]
  | UNKNOWN =>
      [ {| priority := "medium";
          action := "Add detailed error logging";
          reasoning := "Unknown errors need more context";
          implementation := "Log full error stack and context";
          expectedImprovement := "Debugging efficiency +100%" |} ]
  end.

(** A suggested code change; the [code] property (a fixed snippet of
    source text per category) is left out of the record. *)
Record CodeChange : Type := mkCodeChange {
  file : string;
  description : string;
  changeType : string;
  cc_requiresAuth : bool
}.

Definition codeChangesFor (category : ErrorCategory) : list CodeChange :=
  match category with
  | NETWORK =>
      [ {| file := "src/priceFetcher.js";
          description := "Add retry logic with fallback RPC endpoints";
          changeType := "enhancement";
          cc_requiresAuth := true |} ]
  | PRICE =>
      [ {| file := "src/priceFetcher.js";
          description := "Add price sanity validation";
          changeType := "enhancement";
          cc_requiresAuth := true |} ]
  | LIQUIDITY =>
      [ {| file := "src/arbitrage.js";
          description := "Add liquidity check before analysis";
          changeType := "enhancement";
          cc_requiresAuth := true |} ]
  | SLIPPAGE =>
      [ {| file := "src/config.js";
          description := "Make slippage tolerance dynamic";
          changeType := "modification";
          cc_requiresAuth := true |} ]
  | GAS =>
      [ {| file := "src/priceFetcher.js";
          description := "Add gas price monitoring and optimization";
          changeType := "enhancement";
          cc_requiresAuth := true |} ]
  | _ => []
  end.

Record Diagnosis : Type := mkDiagnosis {
  timestamp : string;
  errorMessage : string;
  errorCode : option string;
  category : ErrorCategory;
  severity : nat;
  rootCause : option RootCause;
  recommendations : list Recommendation;
  codeChanges : list CodeChange;
  requiresAuth : bool
}.

Definition _generateRecommendations (diagnosis : Diagnosis)
    (context : Context) : list Recommendation :=
  recommendationsFor (category diagnosis).

Definition _generateCodeChanges (diagnosis : Diagnosis)
    (context : Context) : list CodeChange :=
  codeChangesFor (category diagnosis).

Record HistoryEntry : Type := mkHistoryEntry {
  h_timestamp : string;
  h_category : ErrorCategory;
  h_severity : nat;
  h_resolved : bool
}.

Record PerformanceMetrics : Type := mkPerformanceMetrics {
  totalAnalyses : nat;
  successfulDiagnoses : nat;
  recommendationsAccepted : nat;
  recommendationsRejected : nat
}.

(** The settings of AI_AGENT_CONFIG that the methods below read. *)
Record AgentConfig : Type := mkAgentConfig {
  errorHistoryLimit : nat;
  requireAuthForChanges : bool
}.

Definition AI_AGENT_CONFIG : AgentConfig :=
  {| errorHistoryLimit := 100; requireAuthForChanges := true |}.

(** The mutable fields of an [AIAgent] instance that [analyzeError]
    and the error handler touch. *)
Record Agent : Type := mkAgent {
  config : AgentConfig;
  errorHistory : list HistoryEntry;
  agentRecommendations : list Recommendation;
  diagnosticResults : list Diagnosis;
  performanceMetrics : PerformanceMetrics
}.

(** [new AIAgent(config)] *)
Definition newAgent (cfg : AgentConfig) : Agent :=
  {| config := cfg;
     errorHistory := [];
     agentRecommendations := [];
     diagnosticResults := [];
     performanceMetrics :=
       {| totalAnalyses := 0;
          successfulDiagnoses := 0;
          recommendationsAccepted := 0;
          recommendationsRejected := 0 |} |}.

Definition incrTotalAnalyses (a : Agent) : Agent :=
  let m := performanceMetrics a in
  {| config := config a;
     errorHistory := errorHistory a;
     agentRecommendations := agentRecommendations a;
     diagnosticResults := diagnosticResults a;
     performanceMetrics :=
       {| totalAnalyses := S (totalAnalyses m);
          successfulDiagnoses := successfulDiagnoses m;
          recommendationsAccepted := recommendationsAccepted m;
          recommendationsRejected := recommendationsRejected m |} |}.

Definition incrSuccessfulDiagnoses (a : Agent) : Agent :=
  let m := performanceMetrics a in
  {| config := config a;
     errorHistory := errorHistory a;
     agentRecommendations := agentRecommendations a;
     diagnosticResults := diagnosticResults a;
     performanceMetrics :=
       {| totalAnalyses := totalAnalyses m;
          successfulDiagnoses := S (successfulDiagnoses m);
          recommendationsAccepted := recommendationsAccepted m;
          recommendationsRejected := recommendationsRejected m |} |}.

Definition pushDiagnosis (a : Agent) (d : Diagnosis) : Agent :=
  {| config := config a;
     errorHistory := errorHistory a;
     agentRecommendations := agentRecommendations a;
     diagnosticResults := diagnosticResults a ++ [d];
     performanceMetrics := performanceMetrics a |}.

Definition _recordError (a : Agent) (diagnosis : Diagnosis) : Agent :=
  let pushed :=
    errorHistory a ++
      [ {| h_timestamp := timestamp diagnosis;
           h_category := category diagnosis;
           h_severity := severity diagnosis;
           h_resolved := false |} ] in
  let kept :=
    if (errorHistoryLimit (config a) <? List.length pushed)%nat
    then tl pushed
    else pushed in
  {| config := config a;
     errorHistory := kept;
     agentRecommendations := agentRecommendations a;
     diagnosticResults := diagnosticResults a;
     performanceMetrics := performanceMetrics a |}.

(** [error.message || String(error)] *)
Definition messageOrString (error : JsError) : string :=
  match message error with
  | EmptyString => name error
  | m => m
  end.

(** [error.code || null] *)
Definition codeOrNull (error : JsError) : option string :=
  match code error with
  | Some EmptyString => None
  | c => c
  end.

(** [analyzeError(error, context)]; [now] is the value of
    [new Date().toISOString()] at the call.  Returns the diagnosis and
    the agent after the call. *)
Definition analyzeError (a : Agent) (error : JsError) (context : Context)
    (now : string) : Diagnosis * Agent :=
  let a := incrTotalAnalyses a in
  let diagnosis :=
    {| timestamp := now;
       errorMessage := messageOrString error;
       errorCode := codeOrNull error;
       category := _categorizeError error context;
       severity := _assessSeverity error context;
       rootCause := None;
       recommendations := [];
       codeChanges := [];
       requiresAuth := requireAuthForChanges (config a) |} in
  let diagnosis :=
    {| timestamp := timestamp diagnosis;
       errorMessage := errorMessage diagnosis;
       errorCode := errorCode diagnosis;
       category := category diagnosis;
       severity := severity diagnosis;
       rootCause :=
         Some (_findRootCause error context (category diagnosis));
       recommendations := recommendations diagnosis;
       codeChanges := codeChanges diagnosis;
       requiresAuth := requiresAuth diagnosis |} in
  let diagnosis :=
    {| timestamp := timestamp diagnosis;
       errorMessage := errorMessage diagnosis;
       errorCode := errorCode diagnosis;
       category := category diagnosis;
       severity := severity diagnosis;
       rootCause := rootCause diagnosis;
       recommendations := _generateRecommendations diagnosis context;
       codeChanges := codeChanges diagnosis;
       requiresAuth := requiresAuth diagnosis |} in
  let diagnosis :=
    {| timestamp := timestamp diagnosis;
       errorMessage := errorMessage diagnosis;
       errorCode := errorCode diagnosis;
       category := category diagnosis;
       severity := severity diagnosis;
       rootCause := rootCause diagnosis;
       recommendations := recommendations diagnosis;
       codeChanges := _generateCodeChanges diagnosis context;
       requiresAuth := requiresAuth diagnosis |} in
  let a := _recordError a diagnosis in
  let a := incrSuccessfulDiagnoses a in
  let a := pushDiagnosis a diagnosis in
  (diagnosis, a).

(** A sequence of [analyzeError] calls on one agent. *)
Definition analyzeAll (a : Agent)
    (calls : list (JsError * Context * string)) : Agent :=
  fold_left
    (fun acc call =>
       let '(error, context, now) := call in
       snd (analyzeError acc error context now))
    calls a.

End Engine.

End AIAgent.

(* ===================================================================== *)
(** ** src/errorHandler.js *)

Module ErrorHandler.

Import AIAgent.

Local Open Scope Z_scope.

(** ERROR_HANDLER_CONFIG.  [maxRetries] and the counter [retries] are
    Numbers that hold integers; they are embedded as [Z] and [nat].
    [retryDelayMs] is any Number. *)
Record HandlerConfig : Type := mkHandlerConfig {
  useAIAgent : bool;
  maxRetries : Z;
  retryDelayMs : float;
  exponentialBackoff : bool;
  verboseLogging : bool
}.

Definition ERROR_HANDLER_CONFIG : HandlerConfig :=
  {| useAIAgent := true;
     maxRetries := 3;
     retryDelayMs := 1000;
     exponentialBackoff := true;
     verboseLogging := true |}.

Record LogEntry : Type := mkLogEntry {
  l_timestamp : string;
  l_message : string;
  l_code : option string;
  l_context : Context;
  l_retryCount : nat;
  l_stack : option string
}.

(** A [SmartErrorHandler] instance. *)
Record Handler : Type := mkHandler {
  h_config : HandlerConfig;
  aiAgent : Agent;
  errorLog : list LogEntry
}.

(** [new SmartErrorHandler(config)] *)
Definition newHandler (cfg : HandlerConfig) : Handler :=
  {| h_config := cfg;
     aiAgent := newAgent AI_AGENT_CONFIG;
     errorLog := [] |}.

(** [_logError]; [now] is the timestamp read for the entry.  Writing to
    the console is not part of the state. *)
Definition _logError (h : Handler) (error : JsError) (context : Context)
    (retryCount : nat) (now : string) : Handler :=
  let logEntry :=
    {| l_timestamp := now;
       l_message := message error;
       l_code := codeOrNull error;
       l_context := context;
       l_retryCount := retryCount;
       l_stack := stack error |} in
  {| h_config := h_config h;
     aiAgent := aiAgent h;
     errorLog := errorLog h ++ [logEntry] |}.

Definition _isRetryable (category : ErrorCategory) : bool :=
  let retryableCategories := [NETWORK; GAS; PRICE] in
  existsb (category_eqb category) retryableCategories.

(** [_calculateDelay]: a product of two Numbers, rounded as binary64
    multiplication rounds. *)
Definition _calculateDelay (cfg : HandlerConfig) (retryCount : nat)
  : float :=
  if exponentialBackoff cfg
  then (retryDelayMs cfg * Js.pow2 (Z.of_nat retryCount - 1))%float
  else retryDelayMs cfg.

(** [arr.slice(-1)[0]] *)
Definition lastOf {T : Type} (l : list T) : option T := hd_error (rev l).

Record EnhancedError : Type := mkEnhancedError {
  ee_message : string;
  ee_originalError : JsError;
  ee_context : Context;
  ee_retryCount : nat;
  ee_aiDiagnosis : option Diagnosis;
  ee_recommendations : list Recommendation
}.

Definition _enhanceError (h : Handler) (error : JsError)
    (context : Context) (retryCount : nat) : EnhancedError :=
  {| ee_message := message error;
     ee_originalError := error;
     ee_context := context;
     ee_retryCount := retryCount;
     ee_aiDiagnosis := lastOf (diagnosticResults (aiAgent h));
     ee_recommendations := agentRecommendations (aiAgent h) |}.

(** How one invocation of the wrapped function settles: it resolves, or
    it rejects with an [Error], or it rejects with [null] or
    [undefined]. *)
Inductive FnResult (A : Type) : Type :=
| Resolved (value : A)
| Rejected (error : JsError)
| RejectedNullish.
Arguments Resolved {A} value.
Arguments Rejected {A} error.
Arguments RejectedNullish {A}.

(** How the wrapper settles: it returns, it throws the enhanced error, or
    a [TypeError] escapes from reading [message] of [null] or
    [undefined].  That happens in [_enhanceError] when the loop body never
    ran (a negative [maxRetries]), and in [_logError], inside the [catch]
    block, when the function rejected with [null] or [undefined]. *)
Inductive Outcome (A : Type) : Type :=
| Returned (value : A)
| Threw (error : EnhancedError)
| ThrewTypeError.
Arguments Returned {A} value.
Arguments Threw {A} error.
Arguments ThrewTypeError {A}.

(** What an observer of one wrapped call sees: invocations of the
    wrapped function and awaited timers. *)
Inductive Event : Type :=
| EvCall
| EvSleep (ms : float).

(** [{ ...context, args, retryCount: retries }]; no helper reads
    [args]. *)
Definition analysisContext (context : Context) (retries : nat) : Context :=
  {| operation := operation context;
     retryCount := Some (Z.of_nat retries);
     others := others context |}.

Definition setAgent (h : Handler) (a : Agent) : Handler :=
  {| h_config := h_config h; aiAgent := a; errorLog := errorLog h |}.

(** [_applyImmediateFixes]: walks the recommendations of the diagnosis;
    for "Switch to backup RPC endpoint" it writes a line to the console in
    verbose mode, and it changes nothing else. *)
Definition _applyImmediateFixes (h : Handler) (diagnosis : Diagnosis)
  : Handler :=
  fold_left
    (fun (h : Handler) (rec : Recommendation) =>
       if String.eqb (action rec) "Switch to backup RPC endpoint"
       then h
       else h)
    (recommendations diagnosis) h.

Section WrapAsync.

(** The engine's [toLowerCase], which the agent's classifier uses. *)
Variable toLowerCase : string -> string.

Variable A : Type.

(** [fn k] is how the (k+1)-th invocation of the wrapped function
    settles; [logClock k] and [diagClock k] are the timestamps read
    while that failure is logged and diagnosed. *)
Variable fn : nat -> FnResult A.
Variables logClock diagClock : nat -> string.

Variable context : Context.

(** [throw this._enhanceError(lastError, context, retries)] *)
Definition exhausted (h : Handler) (lastError : option JsError)
    (retries : nat) : Outcome A :=
  match lastError with
  | Some error => Threw (_enhanceError h error context retries)
  | None => ThrewTypeError
  end.

(** The [while (retries <= this.config.maxRetries)] loop.  [fuel]
    bounds the number of iterations. *)
Fixpoint retryLoop (fuel : nat) (h : Handler)
    (lastError : option JsError) (retries : nat) (trace : list Event)
  : option (Outcome A * Handler * list Event) :=
  if Z.of_nat retries <=? maxRetries (h_config h) then
    match fuel with
    | O => None
    | S fuel' =>
        let trace := trace ++ [EvCall] in
        match fn retries with
        | Resolved value => Some (Returned value, h, trace)
        | RejectedNullish =>
            (* [_logError] throws before it has pushed an entry *)
            Some (ThrewTypeError, h, trace)
        | Rejected error =>
            let attempt := retries in
            let lastError := Some error in
            let retries := S retries in
            let h := _logError h error context retries (logClock attempt) in
            let waitAndRetry (h : Handler) :=
              let trace :=
                if Z.of_nat retries <=? maxRetries (h_config h)
                then trace ++ [EvSleep (_calculateDelay (h_config h) retries)]
                else trace in
              retryLoop fuel' h lastError retries trace in
            if useAIAgent (h_config h) then
              let '(diagnosis, agent) :=
                analyzeError toLowerCase (aiAgent h) error
                  (analysisContext context retries) (diagClock attempt) in
              let h := setAgent h agent in
              if negb (_isRetryable (category diagnosis))
              then Some (exhausted h lastError retries, h, trace)
              else waitAndRetry (_applyImmediateFixes h diagnosis)
            else waitAndRetry h
        end
    end
  else Some (exhausted h lastError retries, h, trace).

(** One call of the function returned by [wrapAsync(fn, context)]. *)
Definition wrapAsync (h : Handler)
  : option (Outcome A * Handler * list Event) :=
  retryLoop (Z.to_nat (maxRetries (h_config h) + 1)) h None 0%nat [].

End WrapAsync.

(** Observations on a trace. *)
Definition attempts (trace : list Event) : nat :=
  List.length (filter (fun e => match e with EvCall => true | _ => false end)
                      trace).

Fixpoint delays (trace : list Event) : list float :=
  match trace with
  | [] => []
  | EvSleep ms :: rest => ms :: delays rest
  | EvCall :: rest => delays rest
  end.

(** The [k]-th retry: its timer, then the invocation. *)
Definition retryEvents (cfg : HandlerConfig) (k : nat) : list Event :=
  [EvSleep (_calculateDelay cfg k); EvCall].

(** What is still to be observed after [r] failures when [n] more
    iterations all fail and are retried. *)
Definition remaining (cfg : HandlerConfig) (r n : nat) : list Event :=
  match n with
  | O => []
  | S m => EvCall :: flat_map (retryEvents cfg) (seq (S r) m)
  end.

(** The loop invariant of a run in which every attempt fails: after [r]
    failures of a run started on [h0], the handler [h] has the
    configuration of [h0], [lastError] is the error of the latest
    attempt and, when the agent is consulted, its latest diagnosis is
    the one of that error. *)
Definition reachedAfter (toLowerCase : string -> string) {A : Type}
    (fn : nat -> FnResult A)
    (diagClock : nat -> string) (context : Context) (h0 h : Handler)
    (lastError : option JsError) (r : nat) : Prop :=
  h_config h = h_config h0
  /\ config (aiAgent h) = config (aiAgent h0)
  /\ (useAIAgent (h_config h0) = false -> aiAgent h = aiAgent h0)
  /\ match r with
     | O => True
     | S k =>
         exists e : JsError,
           lastError = Some e /\ fn k = Rejected e
           /\ (useAIAgent (h_config h0) = true ->
               lastOf (diagnosticResults (aiAgent h))
               = Some (fst (analyzeError toLowerCase (aiAgent h0) e
                              (analysisContext context (S k))
                              (diagClock k))))
     end.

End ErrorHandler.

(* ===================================================================== *)
(** ** Concrete inputs used in the examples below *)

Module Examples.

Import Arbitrage AIAgent ErrorHandler.

Local Open Scope float_scope.

Definition quote (d : string) (price : float) : PriceData :=
  {| dex := d;
     error := None;
     priceToken0InToken1 := Some price;
     liquidity := Some "1000000"%string |}.

Definition failedQuote (d msg : string) : PriceData :=
  {| dex := d;
     error := Some msg;
     priceToken0InToken1 := None;
     liquidity := None |}.

Definition quoteA : PriceData := quote "A" 3000.
Definition quoteB : PriceData := quote "B" 3030.
Definition quoteB_equal : PriceData := quote "B" 3000.
Definition quoteB_failed : PriceData := failedQuote "B" "Pool not found".

Definition someTime : string := "2024-01-01T00:00:00.000Z".

(** An [exponentiate] that is right at the one point the examples use:
    [10 ** 12]. *)
Definition pow_10_12 (_ _ : float) : float := 1000000000000.

Definition plainError (msg : string) : JsError :=
  {| name := "Error"; message := msg; code := None; stack := None |}.

Definition networkError : JsError :=
  {| name := "Error";
     message := "Network timeout";
     code := Some "NETWORK_ERROR"%string;
     stack := None |}.

Definition configError : JsError := plainError "Invalid config".

Definition logicError : JsError :=
  plainError "Cannot read properties of undefined".

(** Lower-casing of ASCII text: on a string of ASCII characters it is
    what [toLowerCase] returns. *)
Definition lowerChar (c : ascii) : ascii :=
  let n := nat_of_ascii c in
  if (65 <=? n)%nat && (n <=? 90)%nat then ascii_of_nat (n + 32) else c.

Fixpoint asciiToLowerCase (s : string) : string :=
  match s with
  | EmptyString => EmptyString
  | String c rest => String (lowerChar c) (asciiToLowerCase rest)
  end.

Definition emptyContext : Context :=
  {| operation := None; retryCount := None; others := [] |}.

Definition alwaysFails (e : JsError) (_ : nat) : FnResult unit :=
  Rejected e.

Definition fixedClock (_ : nat) : string := someTime.

Definition defaultHandler : Handler := newHandler ERROR_HANDLER_CONFIG.

Definition handlerWithoutAgent : Handler :=
  newHandler
    {| useAIAgent := false;
       maxRetries := 3;
       retryDelayMs := 1000;
       exponentialBackoff := true;
       verboseLogging := false |}.

End Examples.

(* ===================================================================== *)
(** ** src/aiAgent.js: error patterns and the authorization workflow *)

Module AgentWorkflow.

Import AIAgent.

Local Open Scope string_scope.
Local Open Scope list_scope.

(** The object [_analyzeErrorPatterns] returns. *)
Record ErrorPatterns : Type := mkErrorPatterns {
  networkErrors : nat;
  contractErrors : nat;
  priceErrors : nat;
  liquidityErrors : nat;
  gasErrors : nat;
  slippageErrors : nat;
  configErrors : nat;
  logicErrors : nat;
  lowProfitTrades : nat;
  totalErrors : nat
}.

(** The body of the [switch] in [_analyzeErrorPatterns]: the counter of
    the entry's category goes up by one; the [switch] has no case for
    UNKNOWN. *)
Definition countCategory (p : ErrorPatterns) (c : ErrorCategory)
  : ErrorPatterns :=
  match c with
  | NETWORK =>
      mkErrorPatterns (S (networkErrors p)) (contractErrors p)
        (priceErrors p) (liquidityErrors p) (gasErrors p)
        (slippageErrors p) (configErrors p) (logicErrors p)
        (lowProfitTrades p) (totalErrors p)
  | CONTRACT =>
      mkErrorPatterns (networkErrors p) (S (contractErrors p))
        (priceErrors p) (liquidityErrors p) (gasErrors p)
        (slippageErrors p) (configErrors p) (logicErrors p)
        (lowProfitTrades p) (totalErrors p)
  | PRICE =>
      mkErrorPatterns (networkErrors p) (contractErrors p)
        (S (priceErrors p)) (liquidityErrors p) (gasErrors p)
        (slippageErrors p) (configErrors p) (logicErrors p)
        (lowProfitTrades p) (totalErrors p)
  | LIQUIDITY =>
      mkErrorPatterns (networkErrors p) (contractErrors p)
        (priceErrors p) (S (liquidityErrors p)) (gasErrors p)
        (slippageErrors p) (configErrors p) (logicErrors p)
        (lowProfitTrades p) (totalErrors p)
  | GAS =>
      mkErrorPatterns (networkErrors p) (contractErrors p)
        (priceErrors p) (liquidityErrors p) (S (gasErrors p))
        (slippageErrors p) (configErrors p) (logicErrors p)
        (lowProfitTrades p) (totalErrors p)
  | SLIPPAGE =>
      mkErrorPatterns (networkErrors p) (contractErrors p)
        (priceErrors p) (liquidityErrors p) (gasErrors p)
        (S (slippageErrors p)) (configErrors p) (logicErrors p)
        (lowProfitTrades p) (totalErrors p)
  | CONFIG =>
      mkErrorPatterns (networkErrors p) (contractErrors p)
        (priceErrors p) (liquidityErrors p) (gasErrors p)
        (slippageErrors p) (S (configErrors p)) (logicErrors p)
        (lowProfitTrades p) (totalErrors p)
  | LOGIC =>
      mkErrorPatterns (networkErrors p) (contractErrors p)
        (priceErrors p) (liquidityErrors p) (gasErrors p)
        (slippageErrors p) (configErrors p) (S (logicErrors p))
        (lowProfitTrades p) (totalErrors p)
  | UNKNOWN => p
  end.

Definition _analyzeErrorPatterns (a : Agent) : ErrorPatterns :=
  let patterns :=
    {| networkErrors := 0;
       contractErrors := 0;
       priceErrors := 0;
       liquidityErrors := 0;
       gasErrors := 0;
       slippageErrors := 0;
       configErrors := 0;
       logicErrors := 0;
       lowProfitTrades := 0;
       totalErrors := List.length (errorHistory a) |} in
  fold_left
    (fun (patterns : ErrorPatterns) (error : HistoryEntry) =>
       countCategory patterns (h_category error))
    (errorHistory a) patterns.

Record ChangeImpact : Type := mkChangeImpact {
  riskLevel : string;
  affectedComponents : list string;
  testingRequired : bool;
  rollbackPossible : bool;
  estimatedEffort : string
}.

Definition _assessChangeImpact (change : CodeChange) : ChangeImpact :=
  {| riskLevel :=
       if String.eqb (changeType change) "modification"
       then "medium" else "low";
     affectedComponents := [file change];
     testingRequired := true;
     rollbackPossible := true;
     estimatedEffort := "low" |}.

Record AuthRequest : Type := mkAuthRequest {
  ar_id : string;
  ar_timestamp : string;
  ar_changeType : string;
  ar_file : string;
  ar_description : string;
  ar_impactAssessment : ChangeImpact;
  ar_requiresReview : bool
}.

(** An [AIAgent] instance with the two queues of the authorization
    workflow beside the fields of [Agent]. *)
Record Instance : Type := mkInstance {
  core : Agent;
  pendingChanges : list AuthRequest;
  authorizedChanges : list AuthRequest
}.

Definition newInstance (cfg : AgentConfig) : Instance :=
  {| core := newAgent cfg; pendingChanges := []; authorizedChanges := [] |}.

(** How the awaited [authCallback(authRequest)] settles: with a result
    whose [authorized] property is truthy or falsy, or by failing (the
    callback throws, or [authorized] cannot be read off what it
    returns). *)
Inductive CallbackOutcome : Type :=
| Answers (authorized : bool)
| Fails (error : JsError).

(** What [requestAuthorization] resolves to (or rejects with). *)
Inductive AuthResult : Type :=
| AutoApproved
| CallbackResult (authorized : bool)
| PendingReview (authRequestId : string)
| CallbackError (error : JsError).

Definition withMetrics (a : Agent) (m : PerformanceMetrics) : Agent :=
  {| config := config a;
     errorHistory := errorHistory a;
     agentRecommendations := agentRecommendations a;
     diagnosticResults := diagnosticResults a;
     performanceMetrics := m |}.

Definition incrAccepted (a : Agent) : Agent :=
  let m := performanceMetrics a in
  withMetrics a
    {| totalAnalyses := totalAnalyses m;
       successfulDiagnoses := successfulDiagnoses m;
       recommendationsAccepted := S (recommendationsAccepted m);
       recommendationsRejected := recommendationsRejected m |}.

Definition incrRejected (a : Agent) : Agent :=
  let m := performanceMetrics a in
  withMetrics a
    {| totalAnalyses := totalAnalyses m;
       successfulDiagnoses := successfulDiagnoses m;
       recommendationsAccepted := recommendationsAccepted m;
       recommendationsRejected := S (recommendationsRejected m) |}.

(** [requestAuthorization(change, authCallback)].  [freshId] is the
    identifier built from [Date.now()] and [Math.random()], [now] the
    timestamp; [authCallback] is [None] when the argument is not a
    function. *)
Definition requestAuthorization (s : Instance) (change : CodeChange)
    (authCallback : option (AuthRequest -> CallbackOutcome))
    (freshId now : string) : AuthResult * Instance :=
  if negb (requireAuthForChanges (config (core s))) then (AutoApproved, s)
  else
    let authRequest :=
      {| ar_id := freshId;
         ar_timestamp := now;
         ar_changeType := changeType change;
         ar_file := file change;
         ar_description := description change;
         ar_impactAssessment := _assessChangeImpact change;
         ar_requiresReview := true |} in
    let s :=
      {| core := core s;
         pendingChanges := pendingChanges s ++ [authRequest];
         authorizedChanges := authorizedChanges s |} in
    match authCallback with
    | Some callback =>
        match callback authRequest with
        | Answers true =>
            (CallbackResult true,
             {| core := incrAccepted (core s);
                pendingChanges := pendingChanges s;
                authorizedChanges := authorizedChanges s ++ [authRequest] |})
        | Answers false =>
            (CallbackResult false,
             {| core := incrRejected (core s);
                pendingChanges := pendingChanges s;
                authorizedChanges := authorizedChanges s |})
        | Fails error => (CallbackError error, s)
        end
    | None => (PendingReview (ar_id authRequest), s)
    end.

(** One call of the workflow, as data. *)
Record AuthCall : Type := mkAuthCall {
  ac_change : CodeChange;
  ac_callback : option (AuthRequest -> CallbackOutcome);
  ac_freshId : string;
  ac_now : string
}.

(** A sequence of [requestAuthorization] calls on one instance. *)
Definition requestAll (s : Instance) (calls : list AuthCall) : Instance :=
  fold_left
    (fun (s : Instance) (c : AuthCall) =>
       snd (requestAuthorization s (ac_change c) (ac_callback c)
              (ac_freshId c) (ac_now c)))
    calls s.

(** What the authorization workflow keeps true of an instance. *)
Definition authInvariant (s : Instance) : Prop :=
  recommendationsAccepted (performanceMetrics (core s))
  = List.length (authorizedChanges s)
  /\ (recommendationsAccepted (performanceMetrics (core s))
      + recommendationsRejected (performanceMetrics (core s))
      <= List.length (pendingChanges s))%nat
  /\ incl (authorizedChanges s) (pendingChanges s).

(** How many entries of a history have a given category. *)
Definition countOf (c : ErrorCategory) (history : list HistoryEntry) : nat :=
  List.length
    (filter (fun entry => category_eqb (h_category entry) c) history).

(** The entry [_recordError] appends for a diagnosis. *)
Definition historyEntryOf (d : Diagnosis) : HistoryEntry :=
  {| h_timestamp := timestamp d;
     h_category := category d;
     h_severity := severity d;
     h_resolved := false |}.

(** The diagnosis a call yields on an agent whose configuration is
    [cfg]. *)
Definition diagnosisOf (toLowerCase : string -> string) (cfg : AgentConfig)
    (call : JsError * Context * string) : Diagnosis :=
  let '(error, context, now) := call in
  fst (analyzeError toLowerCase (newAgent cfg) error context now).

(** The last [n] elements of a list (none when [n] is 0). *)
Definition lastN {T : Type} (n : nat) (l : list T) : list T :=
  skipn (List.length l - n) l.

(** [reset()] on the fields that [Agent] carries; the configuration is
    not assigned. *)
Definition resetAgent (a : Agent) : Agent :=
  {| config := config a;
     errorHistory := [];
     agentRecommendations := [];
     diagnosticResults := [];
     performanceMetrics :=
       {| totalAnalyses := 0;
          successfulDiagnoses := 0;
          recommendationsAccepted := 0;
          recommendationsRejected := 0 |} |}.

(** [reset()] of an [AIAgent] instance. *)
Definition reset (s : Instance) : Instance :=
  {| core := resetAgent (core s);
     pendingChanges := [];
     authorizedChanges := [] |}.

(** A call of one of the two state-changing methods, as data. *)
Inductive AgentCall : Type :=
| CallAnalyzeError (error : JsError) (context : Context) (now : string)
| CallRequestAuthorization (call : AuthCall).

Definition callAgent (toLowerCase : string -> string) (s : Instance)
    (c : AgentCall) : Instance :=
  match c with
  | CallAnalyzeError error context now =>
      {| core := snd (analyzeError toLowerCase (core s) error context now);
         pendingChanges := pendingChanges s;
         authorizedChanges := authorizedChanges s |}
  | CallRequestAuthorization call =>
      snd (requestAuthorization s (ac_change call) (ac_callback call)
             (ac_freshId call) (ac_now call))
  end.

(** Any interleaving of [analyzeError] and [requestAuthorization] calls
    on one instance. *)
Definition callAll (toLowerCase : string -> string) (s : Instance)
    (calls : list AgentCall) : Instance :=
  fold_left (callAgent toLowerCase) calls s.

End AgentWorkflow.

(* ===================================================================== *)
(** ** src/errorHandler.js: vocabulary for the runs of the wrapper *)

Module RetryRuns.

Import AIAgent ErrorHandler.

Local Open Scope Z_scope.

(** The largest number of invocations the loop guard allows. *)
Definition budget (cfg : HandlerConfig) : nat :=
  Z.to_nat (maxRetries cfg + 1).

(** The handler after the [catch] block has logged the failure of the
    attempt numbered [attempt] and, with the agent on, has had it
    diagnosed. *)
Definition afterFailure (toLowerCase : string -> string)
    (logClock diagClock : nat -> string)
    (context : Context) (h : Handler) (error : JsError) (attempt : nat)
  : Handler :=
  let logged :=
    _logError h error context (S attempt) (logClock attempt) in
  if useAIAgent (h_config h)
  then setAgent logged
         (snd (analyzeError toLowerCase (aiAgent logged) error
                 (analysisContext context (S attempt)) (diagClock attempt)))
  else logged.

(** Whether the [catch] block leaves the loop by [break]. *)
Definition givesUp (toLowerCase : string -> string) (context : Context)
    (h : Handler) (error : JsError) (attempt : nat) : bool :=
  useAIAgent (h_config h)
  && negb (_isRetryable
             (_categorizeError toLowerCase error
                (analysisContext context (S attempt)))).

(** The number of failures a finished run has logged: one for every
    invocation but a last one that resolved, or that rejected with [null]
    or [undefined] and made [_logError] throw. *)
Definition failures {A : Type} (out : Outcome A) (trace : list Event)
  : nat :=
  match out with
  | Threw _ => attempts trace
  | _ => pred (attempts trace)
  end.

(** The invocation and the timer after the failure numbered [k]. *)
Definition failedAttempt (cfg : HandlerConfig) (k : nat) : list Event :=
  [EvCall; EvSleep (_calculateDelay cfg k)].

(** What is observed of a run that makes [a] invocations after [r]
    failures: every invocation but the last is followed by its timer. *)
Definition runTrace (cfg : HandlerConfig) (r a : nat) : list Event :=
  match a with
  | O => []
  | S m => flat_map (failedAttempt cfg) (seq (S r) m) ++ [EvCall]
  end.

(** What holds of a run of the loop that starts after [r] failures on
    the handler [h] with [last] as latest error, and that settles with
    [out] on the handler [h'] after observing [suffix]. *)
Definition finishedRun {A : Type} (fn : nat -> FnResult A)
    (context : Context) (h : Handler)
    (last : option JsError) (r : nat) (out : Outcome A) (h' : Handler)
    (suffix : list Event) : Prop :=
  h_config h' = h_config h
  /\ (attempts suffix + r <= budget (h_config h))%nat
  /\ ((r < budget (h_config h))%nat -> (1 <= attempts suffix)%nat)
  /\ suffix = runTrace (h_config h) r (attempts suffix)
  /\ List.length (errorLog h')
     = (List.length (errorLog h) + failures out suffix)%nat
  /\ config (aiAgent h') = config (aiAgent h)
  /\ (useAIAgent (h_config h) = false -> aiAgent h' = aiAgent h)
  /\ (useAIAgent (h_config h) = true ->
      totalAnalyses (performanceMetrics (aiAgent h'))
      = (totalAnalyses (performanceMetrics (aiAgent h))
         + failures out suffix)%nat)
  /\ (forall i : nat,
         (i < pred (attempts suffix))%nat ->
         exists e : JsError, fn (r + i)%nat = Rejected e)
  /\ match out with
     | Returned value =>
         (1 <= attempts suffix)%nat
         /\ fn (r + pred (attempts suffix))%nat = Resolved value
     | Threw ee =>
         ee_retryCount ee = (r + attempts suffix)%nat
         /\ ee_context ee = context
         /\ (attempts suffix = 0%nat -> last = Some (ee_originalError ee))
         /\ ((1 <= attempts suffix)%nat ->
             fn (r + pred (attempts suffix))%nat
             = Rejected (ee_originalError ee))
     | ThrewTypeError =>
         (last = None /\ suffix = [])
         \/ ((1 <= attempts suffix)%nat
             /\ fn (r + pred (attempts suffix))%nat = RejectedNullish)
     end.

(** [reset()] of a [SmartErrorHandler]: the log is emptied and the
    agent reset. *)
Definition reset (h : Handler) : Handler :=
  {| h_config := h_config h;
     aiAgent := AgentWorkflow.resetAgent (aiAgent h);
     errorLog := [] |}.

End RetryRuns.

(* ===================================================================== *)
(** ** src/config.js and src/priceFetcher.js: the multi-DEX fetch *)

Module Fetcher.

Import Arbitrage PriceFetcher.

Local Open Scope string_scope.
Local Open Scope list_scope.

(** [s.split(sep)] for a one-character separator. *)
Fixpoint split (sep : ascii) (s : string) : list string :=
  match s with
  | EmptyString => [EmptyString]
  | String c rest =>
      if Ascii.eqb c sep then EmptyString :: split sep rest
      else
        match split sep rest with
        | piece :: pieces => String c piece :: pieces
        | [] => [String c EmptyString]
        end
  end.

(** TOKENS: the own properties of the object and their [decimals]. *)
Definition tokenDecimals (symbol : string) : option float :=
  if String.eqb symbol "WETH" then Some 18%float
  else if String.eqb symbol "USDC" then Some 6%float
  else if String.eqb symbol "USDbC" then Some 6%float
  else if String.eqb symbol "DAI" then Some 18%float
  else None.

(** [TOKENS[symbol]?.decimals ?? fallback]; [symbol] is [None] when the
    destructured array element is [undefined].  A name that is not an own
    property of TOKENS yields a missing [decimals] either way. *)
Definition decimalsOr (symbol : option string) (fallback : float) : float :=
  match symbol with
  | Some name =>
      match tokenDecimals name with
      | Some d => d
      | None => fallback
      end
  | None => fallback
  end.

Record PoolConfig : Type := mkPoolConfig {
  address : string;
  fee : Z;
  token0 : string;
  token1 : string;
  isToken0Base : bool
}.

Record PairPools : Type := mkPairPools {
  UNISWAP_V3 : option PoolConfig;
  AERODROME_CL : option PoolConfig
}.

Definition WETH_address : string :=
  "0x4200000000000000000000000000000000000006".
Definition USDC_address : string :=
  "0x833589fCD6eDb6E08f4c7C32D4f71b54bdA02913".
Definition USDbC_address : string :=
  "0xd9aAEc86B65D86f6A7B5B1b0c42FFA531710b6CA".

(** POOLS: its own properties. *)
Definition POOLS (pair : string) : option PairPools :=
  if String.eqb pair "WETH/USDC" then
    Some
      {| UNISWAP_V3 :=
           Some {| address := "0xd0b53D9277642d899DF5C87A3966A349A798F224";
                   fee := 500;
                   token0 := WETH_address;
                   token1 := USDC_address;
                   isToken0Base := true |};
         AERODROME_CL :=
           Some {| address := "0xb2cc224c1c9feE385f8ad6a55b4d94E92359DC59";
                   fee := 100;
                   token0 := WETH_address;
                   token1 := USDC_address;
                   isToken0Base := true |} |}
  else if String.eqb pair "WETH/USDbC" then
    Some
      {| UNISWAP_V3 :=
           Some {| address := "0x4C36388bE6F416A29C8d8Eee81C771cE6bE14B18";
                   fee := 500;
                   token0 := WETH_address;
                   token1 := USDbC_address;
                   isToken0Base := true |};
         AERODROME_CL :=
           Some {| address := "0xBb5DFE1380333CEE4C2EeBd7202c80dE2256AdF4";
                   fee := 100;
                   token0 := WETH_address;
                   token1 := USDbC_address;
                   isToken0Base := true |} |}
  else None.

(** What the two contract reads of one pool, joined by [Promise.all],
    settle to: the values of [slot0] and [liquidity], or the message of
    the rejection. *)
Inductive PoolReads : Type :=
| ReadsOk (sqrtPriceX96 : Z) (tick : Z) (liquidity : Z)
| ReadsFailed (message : string).

(** The object a fetcher resolves to ([tick] is [Number(slot0.tick)], an
    integer). *)
Record PoolQuote : Type := mkPoolQuote {
  q_dex : string;
  q_poolAddress : string;
  q_sqrtPriceX96 : string;
  q_tick : Z;
  q_liquidity : string;
  q_priceToken0InToken1 : float;
  q_priceToken1InToken0 : float;
  q_timestamp : Z
}.

(** An element of [prices]: a quote, or the [{ dex, error }] object the
    [catch] of a fetch builds. *)
Inductive FetchEntry : Type :=
| Quote (q : PoolQuote)
| Failure (dex : string) (error : string).

(** [b.toString()] on a BigInt. *)
Definition bigIntToString (b : Z) : string :=
  NilZero.string_of_int (Z.to_int b).

(** The entry as [analyzeArbitrage] reads it. *)
Definition asPriceData (e : FetchEntry) : PriceData :=
  match e with
  | Quote q =>
      {| Arbitrage.dex := q_dex q;
         Arbitrage.error := None;
         priceToken0InToken1 := Some (q_priceToken0InToken1 q);
         Arbitrage.liquidity := Some (q_liquidity q) |}
  | Failure d msg =>
      {| Arbitrage.dex := d;
         Arbitrage.error := Some msg;
         priceToken0InToken1 := None;
         Arbitrage.liquidity := None |}
  end.

(** What [fetchPricesMultipleDEXes] resolves to. *)
Record PricesResult : Type := mkPricesResult {
  pr_pair : string;
  pr_token0 : option string;
  pr_token1 : option string;
  pr_prices : list FetchEntry;
  pr_queriedAt : string
}.

Inductive FetchOutcome : Type :=
| Fetched (r : PricesResult)
| UnknownPair (message : string).

Section Fetch.

(** [x ** y] on Numbers, as in the normaliser. *)
Variable exponentiate : float -> float -> float.

(** Names that every object inherits from [Object.prototype]
    ([constructor], [toString], ...): [POOLS[pair]] is truthy for them
    although they are no trading pair. *)
Variable inheritedProperty : string -> bool.

(** How the reads of the pool at an address settle. *)
Variable readPool : string -> PoolReads.

(** [Date.now()] and [new Date().toISOString()] at the calls. *)
Variable nowMs : Z.
Variable nowIso : string.

(** [fetchUniswapV3Price] and [fetchAerodromeCLPrice] differ in the ABI
    and in the name they report; [fetchPoolPrice] is their common body,
    with the [catch] that [fetchPricesMultipleDEXes] attaches. *)
Definition fetchPoolPrice (dexName poolAddress : string)
    (token0Decimals token1Decimals : float) : FetchEntry :=
  match readPool poolAddress with
  | ReadsOk sqrtPriceX96 tick liquidity =>
      Quote
        {| q_dex := dexName;
           q_poolAddress := poolAddress;
           q_sqrtPriceX96 := bigIntToString sqrtPriceX96;
           q_tick := tick;
           q_liquidity := bigIntToString liquidity;
           q_priceToken0InToken1 :=
             sqrtPriceX96ToPrice exponentiate (ArgBigInt sqrtPriceX96)
               token0Decimals token1Decimals;
           q_priceToken1InToken0 :=
             sqrtPriceX96ToInversePrice exponentiate (ArgBigInt sqrtPriceX96)
               token0Decimals token1Decimals;
           q_timestamp := nowMs |}
  | ReadsFailed message => Failure dexName message
  end.

Definition fetchUniswapV3Price := fetchPoolPrice "Uniswap V3".
Definition fetchAerodromeCLPrice := fetchPoolPrice "Aerodrome CL".

Definition fetchPricesMultipleDEXes (pair : string) : FetchOutcome :=
  let pieces := split "/" pair in
  let token0Symbol := nth_error pieces 0 in
  let token1Symbol := nth_error pieces 1 in
  let token0Decimals := decimalsOr token0Symbol 18 in
  let token1Decimals := decimalsOr token1Symbol 6 in
  match POOLS pair with
  | Some poolConfig =>
      let fromUniswap :=
        match UNISWAP_V3 poolConfig with
        | Some pool =>
            [fetchUniswapV3Price (address pool)
               token0Decimals token1Decimals]
        | None => []
        end in
      let fromAerodrome :=
        match AERODROME_CL poolConfig with
        | Some pool =>
            [fetchAerodromeCLPrice (address pool)
               token0Decimals token1Decimals]
        | None => []
        end in
      Fetched
        {| pr_pair := pair;
           pr_token0 := token0Symbol;
           pr_token1 := token1Symbol;
           pr_prices := fromUniswap ++ fromAerodrome;
           pr_queriedAt := nowIso |}
  | None =>
      if inheritedProperty pair then
        Fetched
          {| pr_pair := pair;
             pr_token0 := token0Symbol;
             pr_token1 := token1Symbol;
             pr_prices := [];
             pr_queriedAt := nowIso |}
      else UnknownPair ("Unknown trading pair: " ++ pair)%string
  end.

End Fetch.

(** A pool whose reads fail, or whose [slot0] holds a zero
    [sqrtPriceX96]. *)
Definition unusableRead (r : PoolReads) : bool :=
  match r with
  | ReadsOk sqrtPriceX96 _ _ => (sqrtPriceX96 =? 0)%Z
  | ReadsFailed _ => true
  end.

(** The addresses of the pools configured for a pair. *)
Definition poolAddresses (pair : string) : list string :=
  match POOLS pair with
  | Some poolConfig =>
      match UNISWAP_V3 poolConfig with
      | Some pool => [address pool]
      | None => []
      end
        ++ match AERODROME_CL poolConfig with
           | Some pool => [address pool]
           | None => []
           end
  | None => []
  end.

End Fetcher.

(* ===================================================================== *)
(** * Properties of the price normaliser and the arbitrage calculator *)

Section Binary64Facts.

Local Open Scope float_scope.

Lemma SF64add_comm (x y : spec_float) : SF64add x y = SF64add y x.
Proof.
  unfold SF64add.
  destruct x as [[|]|[|]| |sx mx ex], y as [[|]|[|]| |sy my ey];
    try reflexivity.
  unfold SFadd. rewrite (Z.min_comm ey ex). f_equal. apply Z.add_comm.
Qed.

Lemma float_add_comm (a b : float) : a + b = b + a.
Proof. apply Prim2SF_inj. rewrite !add_spec. apply SF64add_comm. Qed.

(** Rounding treats a magnitude the same way whatever its sign. *)
Lemma SFabs_binary_round_aux (sx : bool) (mx ex : Z) (lx : location) :
  SFabs (binary_round_aux prec emax sx mx ex lx)
  = SFabs (binary_round_aux prec emax false mx ex lx).
Proof.
  unfold binary_round_aux.
  destruct (shr_fexp prec emax mx ex lx) as [mrs' e'].
  destruct (shr_fexp prec emax _ e' loc_Exact) as [mrs'' e''].
  destruct (shr_m mrs''); try reflexivity.
  destruct (e'' <=? emax - prec)%Z; reflexivity.
Qed.

Lemma SFabs_binary_normalize_opp (m e : Z) :
  SFabs (binary_normalize prec emax (- m) e false)
  = SFabs (binary_normalize prec emax m e false).
Proof.
  destruct m as [|p|p]; simpl; try reflexivity; unfold binary_round;
    destruct (shl_align _ _ _) as [mz ez];
    [ | symmetry ]; apply SFabs_binary_round_aux.
Qed.

Lemma SFabs_sub_comm (x y : spec_float) :
  SFabs (SF64sub x y) = SFabs (SF64sub y x).
Proof.
  unfold SF64sub.
  destruct x as [[|]|[|]| |sx mx ex], y as [[|]|[|]| |sy my ey];
    try reflexivity.
  unfold SFsub. rewrite (Z.min_comm ey ex).
  rewrite <- SFabs_binary_normalize_opp. f_equal. f_equal. lia.
Qed.

Lemma float_abs_sub_comm (a b : float) : abs (a - b) = abs (b - a).
Proof.
  apply Prim2SF_inj. rewrite !abs_spec, !sub_spec. apply SFabs_sub_comm.
Qed.

End Binary64Facts.

Section Binary64Order.

Local Open Scope float_scope.

Lemma SFcompare_swap (x y : spec_float) :
  SFcompare y x = option_map CompOpp (SFcompare x y).
Proof.
  destruct x as [sx|sx| |sx mx ex], y as [sy|sy| |sy my ey]; simpl;
    try (destruct sx); try (destruct sy); try reflexivity;
    rewrite (Z.compare_antisym ex ey), !Pos.compare_cont_spec;
    rewrite (Pos.compare_antisym mx my);
    destruct (ex ?= ey)%Z; destruct (mx ?= my)%positive; reflexivity.
Qed.

Lemma SFltb_asym (x y : spec_float) : SFltb x y = true -> SFltb y x = false.
Proof.
  unfold SFltb. rewrite (SFcompare_swap x y).
  destruct (SFcompare x y) as [[| |]|]; simpl; congruence.
Qed.

Lemma SFleb_negb_ltb (x y : spec_float) :
  SFcompare x y <> None -> SFleb y x = negb (SFltb x y).
Proof.
  unfold SFleb, SFltb. rewrite (SFcompare_swap x y).
  destruct (SFcompare x y) as [[| |]|]; simpl; congruence.
Qed.

Lemma SFltb_trans (x y z : spec_float) :
  SFltb x y = true -> SFltb y z = true -> SFltb x z = true.
Proof.
  unfold SFltb.
  destruct x as [sx|sx| |sx mx ex], y as [sy|sy| |sy my ey],
           z as [sz|sz| |sz mz ez]; simpl;
    try (destruct sx); try (destruct sy); try (destruct sz);
    try discriminate; try reflexivity;
    rewrite ?Pos.compare_cont_spec; simpl;
    destruct (Z.compare_spec ex ey); destruct (Z.compare_spec ey ez);
    destruct (Z.compare_spec ex ez); try discriminate; try reflexivity;
    try lia; subst;
    destruct (Pos.compare_spec mx my); destruct (Pos.compare_spec my mz);
    destruct (Pos.compare_spec mx mz); simpl;
    try discriminate; try reflexivity; try lia.
Qed.

Lemma float_ltb_asym (a b : float) : (a <? b) = true -> (b <? a) = false.
Proof. rewrite !ltb_spec. apply SFltb_asym. Qed.

Lemma float_ltb_trans (a b c : float) :
  (a <? b) = true -> (b <? c) = true -> (a <? c) = true.
Proof. rewrite !ltb_spec. apply SFltb_trans. Qed.

Lemma float_ltb_irrefl (a : float) : (a <? a) = false.
Proof.
  destruct (a <? a) eqn:H; [ | reflexivity ].
  rewrite (float_ltb_asym a a H) in H. discriminate.
Qed.

Lemma Prim2SF_not_nan (a : float) :
  is_nan a = false -> Prim2SF a <> S754_nan.
Proof.
  unfold is_nan. rewrite eqb_spec. unfold SFeqb.
  destruct (Prim2SF a); simpl; congruence.
Qed.

Lemma float_leb_negb_ltb (a b : float) :
  is_nan a = false -> is_nan b = false -> (b <=? a) = negb (a <? b).
Proof.
  intros Ha Hb. rewrite leb_spec, ltb_spec. apply SFleb_negb_ltb.
  apply Prim2SF_not_nan in Ha. apply Prim2SF_not_nan in Hb.
  destruct (Prim2SF a) as [sa|sa| |sa ma ea],
           (Prim2SF b) as [sb|sb| |sb mb eb];
    simpl; congruence.
Qed.

End Binary64Order.

Section Binary64Scaling.

Local Open Scope Z_scope.

(** Doubling a mantissa [n] times. *)
Lemma Zpos_iter_xO (n : nat) (q : positive) :
  Zpos (Nat.iter n xO q) = Zpos q * 2 ^ Z.of_nat n.
Proof.
  induction n as [|n IH].
  - simpl. lia.
  - rewrite Nat2Z.inj_succ, Z.pow_succ_r by lia.
    rewrite Nat.iter_succ, Pos2Z.inj_xO, IH. lia.
Qed.

Lemma digits2_iter_xO (n : nat) (q : positive) :
  Zpos (digits2_pos (Nat.iter n xO q)) = Zpos (digits2_pos q) + Z.of_nat n.
Proof.
  induction n as [|n IH].
  - simpl. lia.
  - rewrite Nat.iter_succ. cbn [digits2_pos].
    rewrite Pos2Z.inj_succ, IH. lia.
Qed.

Lemma iter_pos_nat {T : Type} (f : T -> T) (p : positive) (x : T) :
  iter_pos f p x = Nat.iter (Pos.to_nat p) f x.
Proof.
  revert x. induction p as [p IH|p IH|]; intros x; cbn [iter_pos].
  - rewrite !IH, Pos2Nat.inj_xI.
    replace (S (2 * Pos.to_nat p))%nat
      with (Pos.to_nat p + (Pos.to_nat p + 1))%nat by lia.
    rewrite !Nat.iter_add. reflexivity.
  - rewrite !IH, Pos2Nat.inj_xO.
    replace (2 * Pos.to_nat p)%nat
      with (Pos.to_nat p + Pos.to_nat p)%nat by lia.
    rewrite Nat.iter_add. reflexivity.
  - reflexivity.
Qed.

(** Shifting out zeros loses nothing. *)
Lemma iter_shr_1_exact (n : nat) (q : positive) :
  Nat.iter n shr_1
    {| shr_m := Zpos (Nat.iter n xO q); shr_r := false; shr_s := false |}
  = {| shr_m := Zpos q; shr_r := false; shr_s := false |}.
Proof.
  induction n as [|n IH]; [ reflexivity | ].
  rewrite Nat.iter_succ_r, Nat.iter_succ. cbn [shr_1 orb]. exact IH.
Qed.

Lemma binary_round_aux_canonical (s : bool) (m : positive) (e : Z) :
  canonical_mantissa prec emax m e = true ->
  binary_round_aux prec emax s (Zpos m) e loc_Exact
  = if e <=? emax - prec then S754_finite s m e else S754_infinity s.
Proof.
  unfold canonical_mantissa. intros H. apply Z.eqb_eq in H.
  unfold binary_round_aux, shr_fexp. cbn [Zdigits2 shr_record_of_loc].
  rewrite H, Z.sub_diag. cbn [shr shr_m loc_of_shr_record round_nearest_even
                                 Zdigits2 shr_record_of_loc].
  rewrite H, Z.sub_diag. reflexivity.
Qed.

Lemma binary_round_aux_shift (s : bool) (q : positive) (n : nat) (e : Z) :
  canonical_mantissa prec emax q (e + Z.of_nat n) = true ->
  binary_round_aux prec emax s (Zpos (Nat.iter n xO q)) e loc_Exact
  = if e + Z.of_nat n <=? emax - prec
    then S754_finite s q (e + Z.of_nat n)
    else S754_infinity s.
Proof.
  intros Hcan.
  destruct n as [|n].
  - rewrite Z.add_0_r in *. apply binary_round_aux_canonical. exact Hcan.
  - unfold canonical_mantissa in Hcan. apply Z.eqb_eq in Hcan.
    unfold binary_round_aux, shr_fexp.
    cbn [Zdigits2 shr_record_of_loc].
    rewrite digits2_iter_xO.
    replace (Zpos (digits2_pos q) + Z.of_nat (S n) + e)
      with (Zpos (digits2_pos q) + (e + Z.of_nat (S n))) by lia.
    rewrite Hcan.
    replace (e + Z.of_nat (S n) - e) with (Zpos (Pos.of_succ_nat n)) by lia.
    cbn [shr]. rewrite iter_pos_nat, SuccNat2Pos.id_succ, iter_shr_1_exact.
    cbn [shr_m loc_of_shr_record round_nearest_even Zdigits2
           shr_record_of_loc].
    replace (e + Zpos (Pos.of_succ_nat n)) with (e + Z.of_nat (S n)) by lia.
    rewrite Hcan, Z.sub_diag. reflexivity.
Qed.

Lemma fexp_value (x : Z) : fexp prec emax x = Z.max (x - 53) (-1074).
Proof. reflexivity. Qed.

Lemma canonical_iff (m : positive) (e : Z) :
  canonical_mantissa prec emax m e = true
  <-> Z.max (Zpos (digits2_pos m) + e - 53) (-1074) = e.
Proof. unfold canonical_mantissa. rewrite fexp_value. apply Z.eqb_eq. Qed.

(** [Math.pow(2, k)] for [k >= 0]. *)
Lemma pow2_spec (k : Z) :
  0 <= k ->
  Prim2SF (Js.pow2 k)
  = if k <=? 1023
    then S754_finite false 4503599627370496 (k - 52)
    else S754_infinity false.
Proof.
  intros Hk. unfold Js.pow2. rewrite Z_ldexp_spec.
  change (Prim2SF 1) with (S754_finite false 4503599627370496 (-52)).
  unfold SFldexp, binary_round.
  change (Zpos (digits2_pos 4503599627370496)) with 53.
  rewrite fexp_value, Z.max_l by lia.
  unfold shl_align.
  replace (53 + (-52 + k) - 53 - (-52 + k)) with 0 by lia.
  rewrite binary_round_aux_canonical
    by (apply canonical_iff;
        change (Zpos (digits2_pos 4503599627370496)) with 53; lia).
  change (emax - prec) with 971.
  replace (-52 + k) with (k - 52) by lia.
  destruct (Z.leb_spec (k - 52) 971); destruct (Z.leb_spec k 1023);
    try reflexivity; lia.
Qed.

(** Multiplying a positive finite value by a power of two moves the
    exponent, or fills a subnormal mantissa up first; nothing is
    rounded. *)
Lemma SFmul_pow2 (m : positive) (e k : Z) :
  canonical_mantissa prec emax m e = true ->
  0 <= k ->
  let E := Z.max (Zpos (digits2_pos m) + e + k - 53) (-1074) in
  SF64mul (S754_finite false m e)
          (S754_finite false 4503599627370496 (k - 52))
  = if E <=? 971
    then S754_finite false (Nat.iter (Z.to_nat (e + k - E)) xO m) E
    else S754_infinity false.
Proof.
  intros Hcan Hk E. apply canonical_iff in Hcan.
  assert (Hdg : 0 < Zpos (digits2_pos m)) by lia.
  assert (HE : 0 <= e + k - E <= 52) by lia.
  unfold SF64mul, SFmul. cbn [xorb].
  assert (Hm : (m * 4503599627370496)%positive
               = Nat.iter (52 - Z.to_nat (e + k - E))
                   xO (Nat.iter (Z.to_nat (e + k - E)) xO m)).
  { rewrite <- Nat.iter_add.
    replace (52 - Z.to_nat (e + k - E) + Z.to_nat (e + k - E))%nat
      with 52%nat by lia.
    apply Pos2Z.inj. rewrite Zpos_iter_xO, Pos2Z.inj_mul. reflexivity. }
  rewrite Hm, binary_round_aux_shift.
  - replace (e + (k - 52) + Z.of_nat (52 - Z.to_nat (e + k - E))) with E
      by lia.
    reflexivity.
  - apply canonical_iff. rewrite digits2_iter_xO. lia.
Qed.

Lemma iter_xO_lt (m : positive) (i j : nat) :
  (i < j)%nat -> (Nat.iter i xO m < Nat.iter j xO m)%positive.
Proof.
  intros Hij.
  enough (H : Zpos (Nat.iter i xO m) < Zpos (Nat.iter j xO m)) by exact H.
  rewrite !Zpos_iter_xO.
  apply Z.mul_lt_mono_pos_l; [ lia | ].
  apply Z.pow_lt_mono_r; lia.
Qed.

(** Under exponential backoff a positive delay grows strictly as long
    as it stays finite. *)
Lemma scaled_increasing (d : float) (i j : Z) :
  (0 <? d)%float = true ->
  0 <= i < j ->
  (d * Js.pow2 j <? infinity)%float = true ->
  (d * Js.pow2 i <? d * Js.pow2 j)%float = true.
Proof.
  intros Hpos Hij Hfin.
  rewrite ltb_spec, !mul_spec in *.
  rewrite !pow2_spec in * by lia.
  pose proof (Prim2SF_valid d) as Hvalid.
  change (Prim2SF 0) with (S754_zero false) in Hpos.
  change (Prim2SF infinity) with (S754_infinity false) in Hfin.
  destruct (Prim2SF d) as [s|s| |s m e]; try discriminate Hpos.
  - destruct s; [ discriminate Hpos | ].
    destruct (j <=? 1023); discriminate Hfin.
  - destruct s; [ discriminate Hpos | ].
    cbn [valid_binary] in Hvalid. unfold bounded in Hvalid.
    apply andb_prop in Hvalid. destruct Hvalid as [Hcan Hbound].
    destruct (Z.leb_spec j 1023) as [Hj|Hj]; [ | discriminate Hfin ].
    destruct (Z.leb_spec i 1023) as [Hi|Hi]; [ | lia ].
    rewrite (SFmul_pow2 m e j Hcan) in * by lia.
    rewrite (SFmul_pow2 m e i Hcan) by lia.
    cbv zeta in *. apply canonical_iff in Hcan.
    destruct (Z.leb_spec
                (Z.max (Zpos (digits2_pos m) + e + j - 53) (-1074)) 971)
      as [HEj|HEj]; [ | discriminate Hfin ].
    destruct (Z.leb_spec
                (Z.max (Zpos (digits2_pos m) + e + i - 53) (-1074)) 971)
      as [HEi|HEi]; [ | lia ].
    unfold SFltb, SFcompare.
    destruct (Z.compare_spec
                (Z.max (Zpos (digits2_pos m) + e + i - 53) (-1074))
                (Z.max (Zpos (digits2_pos m) + e + j - 53) (-1074)))
      as [Heq|Hlt|Hgt]; [ | reflexivity | lia ].
    rewrite Heq. fold (Pos.compare
                         (Nat.iter (Z.to_nat (e + i
                            - Z.max (Zpos (digits2_pos m) + e + j - 53)
                                (-1074))) xO m)
                         (Nat.iter (Z.to_nat (e + j
                            - Z.max (Zpos (digits2_pos m) + e + j - 53)
                                (-1074))) xO m)).
    rewrite (proj2 (Pos.compare_lt_iff _ _)); [ reflexivity | ].
    apply iter_xO_lt. lia.
Qed.

End Binary64Scaling.

Section NormalizerFacts.

Import PriceFetcher.
Local Open Scope float_scope.

Variable exponentiate : float -> float -> float.

(** C6.  For a zero [sqrtPriceX96] (and for [null] and [undefined]) the
    normaliser returns the Number 0, for all decimals; the embedding is a
    total function, so nothing is thrown, and the result is not NaN. *)
Theorem sqrtPriceX96ToPrice_zero (token0Decimals token1Decimals : float) :
  let price arg :=
    sqrtPriceX96ToPrice exponentiate arg token0Decimals token1Decimals in
  price (ArgBigInt 0) = 0 /\ price ArgNull = 0 /\ price ArgUndefined = 0
  /\ is_nan (price (ArgBigInt 0)) = false
  /\ is_nan (price ArgNull) = false
  /\ is_nan (price ArgUndefined) = false.
Proof. cbv zeta. repeat split. Qed.

(** C2, as the code has it.  Whenever the price normalises to 0 (for a
    zero, [null] or [undefined] [sqrtPriceX96] in particular) the
    reciprocal returned is [1 / 0], the Number [Infinity]; the
    normaliser has no other value to stand for an undefined
    reciprocal. *)
Theorem sqrtPriceX96ToInversePrice_zero_is_infinity
    (sqrtPriceX96 : SqrtPriceArg) (token0Decimals token1Decimals : float) :
  sqrtPriceX96ToPrice exponentiate sqrtPriceX96
    token0Decimals token1Decimals = 0 ->
  sqrtPriceX96ToInversePrice exponentiate sqrtPriceX96
    token0Decimals token1Decimals = infinity
  /\ sqrtPriceX96ToInversePrice exponentiate (ArgBigInt 0)
       token0Decimals token1Decimals = infinity
  /\ sqrtPriceX96ToInversePrice exponentiate ArgNull
       token0Decimals token1Decimals = infinity
  /\ sqrtPriceX96ToInversePrice exponentiate ArgUndefined
       token0Decimals token1Decimals = infinity.
Proof.
  intros Hzero. unfold sqrtPriceX96ToInversePrice. rewrite Hzero.
  repeat split.
Qed.

End NormalizerFacts.

Section NormalizerExamples.

Local Open Scope float_scope.

(** The reciprocal for [sqrtPriceX96 = 0n], 18 and 6 decimals. *)
Lemma sqrtPriceX96ToInversePrice_zero_is_infinity_witness :
  PriceFetcher.sqrtPriceX96ToInversePrice Examples.pow_10_12
    (PriceFetcher.ArgBigInt 0) 18 6 = infinity.
Proof.
  apply (sqrtPriceX96ToInversePrice_zero_is_infinity Examples.pow_10_12
           (PriceFetcher.ArgBigInt 0) 18 6).
  reflexivity.
Defined.

(** C2, refuted as stated: for [sqrtPriceX96 = 0n] with 18 and 6 decimals
    the returned reciprocal is the floating-point value [Infinity]. *)
Lemma inverse_price_of_zero_is_Infinity :
  PriceFetcher.sqrtPriceX96ToPrice Examples.pow_10_12
    (PriceFetcher.ArgBigInt 0) 18 6 = 0
  /\ PriceFetcher.sqrtPriceX96ToInversePrice Examples.pow_10_12
       (PriceFetcher.ArgBigInt 0) 18 6 = infinity
  /\ is_infinity
       (PriceFetcher.sqrtPriceX96ToInversePrice Examples.pow_10_12
          (PriceFetcher.ArgBigInt 0) 18 6) = true.
Proof. repeat split; reflexivity. Qed.

End NormalizerExamples.

Section ArbitrageFacts.

Import Arbitrage Examples.
Local Open Scope float_scope.

(** C7.  [calculatePriceDifference] does not depend on the order of its
    arguments, and it is 0 as soon as one argument is a zero ([0] or
    [-0]). *)
Theorem calculatePriceDifference_symmetric (a b : float) :
  calculatePriceDifference a b = calculatePriceDifference b a
  /\ calculatePriceDifference 0 b = 0
  /\ calculatePriceDifference a 0 = 0
  /\ calculatePriceDifference (-0) b = 0
  /\ calculatePriceDifference a (-0) = 0.
Proof.
  split.
  - unfold calculatePriceDifference.
    rewrite (orb_comm (Js.strictEq a 0)).
    rewrite (float_add_comm a b), (float_abs_sub_comm a b).
    reflexivity.
  - unfold calculatePriceDifference, Js.strictEq.
    repeat split; try reflexivity.
    + destruct (a =? 0); reflexivity.
    + destruct (a =? 0); reflexivity.
Qed.

(** C5.  With fewer than two valid entries [analyzeArbitrage] returns
    the object [{ hasOpportunity: false, reason, validDexCount }], the
    count being the number of valid entries. *)
Theorem analyzeArbitrage_insufficient
    (prices : list PriceData) (tradeAmountEth gasCostUsd : float)
    (now : string) :
  (List.length (filter isValidPrice prices) < 2)%nat ->
  let result := analyzeArbitrage prices tradeAmountEth gasCostUsd now in
  result = InsufficientData "Insufficient valid price data from DEXes"
             (List.length (filter isValidPrice prices))
  /\ hasOpportunity result = false
  /\ reason result = Some "Insufficient valid price data from DEXes"%string
  /\ validDexCount result
     = Some (List.length (filter isValidPrice prices)).
Proof.
  intros Hlen. cbv zeta. unfold analyzeArbitrage.
  destruct (filter isValidPrice prices) as [|p [|q rest]]; simpl in *.
  - repeat split.
  - repeat split.
  - lia.
Qed.

(** One quote and one failed fetch: the case of the repository's test. *)
Lemma analyzeArbitrage_insufficient_witness :
  let result :=
    analyzeArbitrage [quoteA; quoteB_failed] 1 0.01 someTime in
  result = InsufficientData "Insufficient valid price data from DEXes" 1
  /\ hasOpportunity result = false
  /\ reason result = Some "Insufficient valid price data from DEXes"%string
  /\ validDexCount result = Some 1%nat.
Proof.
  apply (analyzeArbitrage_insufficient
           [quoteA; quoteB_failed] 1 0.01 someTime).
  vm_compute. lia.
Defined.

(** C1, refuted as stated: on the quotes A = 3000 and B = 3030 with
    trade amount 1 and gas cost 0.01 per swap the result does not carry
    [isProfitableAfterGas = true]. *)
Lemma analyze_3000_3030_is_not_profitable :
  isProfitableAfterGas
    (analyzeArbitrage [quoteA; quoteB] 1 0.01 someTime) <> Some true.
Proof. vm_compute. discriminate. Qed.

(** C1, as the code has it.  On the quotes A = 3000 and B = 3030 with
    trade amount 1 and gas cost 0.01 per swap: an opportunity is
    reported, buying from A and selling to B; the net profit is the
    gross profit minus 0.02; the gross profit is negative, because the
    default slippage of 0.5 percent on each leg outweighs the spread,
    and [isProfitableAfterGas] is false. *)
Theorem analyze_3000_3030 (now : string) :
  exists a : Analysis,
    analyzeArbitrage [quoteA; quoteB] 1 0.01 now = Complete a
    /\ a_hasOpportunity a = true
    /\ r_buyFrom (a_direction a) = "A"%string
    /\ r_sellTo (a_direction a) = "B"%string
    /\ pa_netProfitUsd (a_profitAnalysis a)
       = pa_grossProfitUsd (a_profitAnalysis a) - 0.02
    /\ (pa_grossProfitUsd (a_profitAnalysis a) <? 0) = true
    /\ a_isProfitableAfterGas a = false.
Proof.
  eexists. split; [ vm_compute; reflexivity | ].
  repeat split.
Qed.

(** C8, refuted as stated: A = 3000 and B = 3000 are two valid quotes
    from distinct sources, yet the result has no profitability flag. *)
Lemma analyze_equal_prices_reports_no_profit_flag :
  List.length (filter isValidPrice [quoteA; quoteB_equal]) = 2%nat
  /\ dex quoteA <> dex quoteB_equal
  /\ analyzeArbitrage [quoteA; quoteB_equal] 1 0.01 someTime
     = SameDex "Best buy and sell prices are from the same DEX"
         [("A"%string, 3000); ("B"%string, 3000)]
  /\ isProfitableAfterGas
       (analyzeArbitrage [quoteA; quoteB_equal] 1 0.01 someTime) = None.
Proof.
  repeat split; try reflexivity. discriminate.
Qed.

(** The scan keeps the first entry when no entry is priced differently. *)
Lemma findBest_equal_prices (first : PriceData) (l : list PriceData) :
  (forall p : PriceData, In p l -> priceOf p = priceOf first) ->
  fold_left scanStep l (first, first) = (first, first).
Proof.
  induction l as [|p l IH]; intros Hall; [ reflexivity | ].
  cbn [fold_left scanStep]. unfold Js.gt.
  rewrite (Hall p (or_introl eq_refl)), float_ltb_irrefl.
  apply IH. intros q Hq. apply Hall. right. exact Hq.
Qed.

(** C8, as the code has it.  With at least two valid quotes, the scan
    selects a best-buy and a best-sell quote.  When they name different
    DEXes the result carries two separate booleans:
    [hasOpportunity = (percent >= MIN_PRICE_DIFF_PERCENT)] and
    [isProfitableAfterGas = (netProfitUsd > MIN_PROFIT_THRESHOLD_USD)],
    with [netProfitUsd = grossProfitUsd - gasCostUsd * 2].  When they name
    the same DEX the result is [{ hasOpportunity: false, reason, prices }]
    and has no profitability flag; that is the case, in particular, when
    all valid quotes have the same price, whatever their sources.  The two
    booleans can differ: the quotes A = 3000, B = 3030 give an opportunity
    that is not profitable. *)
Theorem analyzeArbitrage_flags
    (prices : list PriceData) (tradeAmountEth gasCostUsd : float)
    (now : string) (first second : PriceData) (rest : list PriceData)
    (bestBuy bestSell : PriceData) :
  filter isValidPrice prices = first :: second :: rest ->
  findBest first (first :: second :: rest) = (bestBuy, bestSell) ->
  (dex bestBuy <> dex bestSell ->
   exists a : Analysis,
     analyzeArbitrage prices tradeAmountEth gasCostUsd now = Complete a
     /\ a_hasOpportunity a
        = Js.ge (percent (a_priceDifference a))
                Config.MIN_PRICE_DIFF_PERCENT
     /\ a_isProfitableAfterGas a
        = Js.gt (pa_netProfitUsd (a_profitAnalysis a))
                Config.MIN_PROFIT_THRESHOLD_USD
     /\ pa_netProfitUsd (a_profitAnalysis a)
        = pa_grossProfitUsd (a_profitAnalysis a) - gasCostUsd * 2)
  /\ (dex bestBuy = dex bestSell ->
      let r := analyzeArbitrage prices tradeAmountEth gasCostUsd now in
      r = SameDex "Best buy and sell prices are from the same DEX"
            (map (fun p => (dex p, priceOf p)) (first :: second :: rest))
      /\ hasOpportunity r = false
      /\ isProfitableAfterGas r = None
      /\ reason r
         = Some "Best buy and sell prices are from the same DEX"%string)
  /\ ((forall p : PriceData,
         In p (second :: rest) -> priceOf p = priceOf first) ->
      bestBuy = first /\ bestSell = first /\ dex bestBuy = dex bestSell)
  /\ (let r := analyzeArbitrage [quoteA; quoteB] 1 0.01 now in
      hasOpportunity r = true /\ isProfitableAfterGas r = Some false).
Proof.
  intros Hvalid Hbest.
  split; [ | split; [ | split ] ].
  - intros Hdex. unfold analyzeArbitrage. rewrite Hvalid, Hbest.
    apply String.eqb_neq in Hdex. rewrite Hdex.
    eexists. split; [ reflexivity | ]. repeat split.
  - intros Hdex. cbv zeta. unfold analyzeArbitrage. rewrite Hvalid, Hbest.
    apply String.eqb_eq in Hdex. rewrite Hdex.
    repeat split.
  - intros Hall. unfold findBest in Hbest.
    rewrite (findBest_equal_prices first (first :: second :: rest)) in Hbest.
    + injection Hbest as <- <-. repeat split.
    + intros p [<-|Hin]; [ reflexivity | apply Hall; exact Hin ].
  - vm_compute. split; reflexivity.
Qed.

(** The quotes A = 3000 and B = 3030. *)
Lemma analyzeArbitrage_flags_witness :
  (exists a : Analysis,
     analyzeArbitrage [quoteA; quoteB] 1 0.01 someTime = Complete a
     /\ a_hasOpportunity a
        = Js.ge (percent (a_priceDifference a))
                Config.MIN_PRICE_DIFF_PERCENT
     /\ a_isProfitableAfterGas a
        = Js.gt (pa_netProfitUsd (a_profitAnalysis a))
                Config.MIN_PROFIT_THRESHOLD_USD
     /\ pa_netProfitUsd (a_profitAnalysis a)
        = pa_grossProfitUsd (a_profitAnalysis a) - 0.01 * 2)
  /\ (let r := analyzeArbitrage [quoteA; quoteB] 1 0.01 someTime in
      hasOpportunity r = true /\ isProfitableAfterGas r = Some false).
Proof.
  destruct (analyzeArbitrage_flags [quoteA; quoteB] 1 0.01 someTime
              quoteA quoteB [] quoteA quoteB)
    as (Hdistinct & _ & _ & Hexample).
  - vm_compute. reflexivity.
  - vm_compute. reflexivity.
  - split; [ | exact Hexample ].
    apply Hdistinct. vm_compute. discriminate.
Defined.

End ArbitrageFacts.

(* ===================================================================== *)
(** * Properties of the diagnosing agent *)

Section AgentFacts.

Import AIAgent.

Variable toLowerCase : string -> string.

Local Abbreviation _categorizeError := (AIAgent._categorizeError toLowerCase).
Local Abbreviation analyzeError := (AIAgent.analyzeError toLowerCase).
Local Abbreviation analyzeAll := (AIAgent.analyzeAll toLowerCase).

Lemma analyzeError_category
    (a : Agent) (e : JsError) (c : Context) (now : string) :
  category (fst (analyzeError a e c now)) = _categorizeError e c.
Proof. reflexivity. Qed.

Lemma analyzeError_config
    (a : Agent) (e : JsError) (c : Context) (now : string) :
  config (snd (analyzeError a e c now)) = config a.
Proof. reflexivity. Qed.

Lemma analyzeError_recommendations
    (a : Agent) (e : JsError) (c : Context) (now : string) :
  agentRecommendations (snd (analyzeError a e c now))
  = agentRecommendations a.
Proof. reflexivity. Qed.

(** The diagnosis depends on the agent through its configuration only. *)
Lemma analyzeError_diagnosis_config
    (a a' : Agent) (e : JsError) (c : Context) (now : string) :
  config a = config a' ->
  fst (analyzeError a e c now) = fst (analyzeError a' e c now).
Proof. intros H. unfold analyzeError. simpl. rewrite H. reflexivity. Qed.

Lemma lastOf_snoc {T : Type} (l : list T) (x : T) :
  ErrorHandler.lastOf (l ++ [x]) = Some x.
Proof. unfold ErrorHandler.lastOf. rewrite rev_app_distr. reflexivity. Qed.

Lemma analyzeError_last
    (a : Agent) (e : JsError) (c : Context) (now : string) :
  ErrorHandler.lastOf (diagnosticResults (snd (analyzeError a e c now)))
  = Some (fst (analyzeError a e c now)).
Proof. unfold analyzeError. simpl. apply lastOf_snoc. Qed.

Lemma analyzeError_metrics
    (a : Agent) (e : JsError) (c : Context) (now : string) :
  totalAnalyses (performanceMetrics (snd (analyzeError a e c now)))
  = S (totalAnalyses (performanceMetrics a))
  /\ successfulDiagnoses (performanceMetrics (snd (analyzeError a e c now)))
     = S (successfulDiagnoses (performanceMetrics a)).
Proof. split; reflexivity. Qed.

Lemma analyzeAll_metrics (calls : list (JsError * Context * string)) :
  forall a : Agent,
    totalAnalyses (performanceMetrics (analyzeAll a calls))
    = (totalAnalyses (performanceMetrics a) + List.length calls)%nat
    /\ successfulDiagnoses (performanceMetrics (analyzeAll a calls))
       = (successfulDiagnoses (performanceMetrics a)
          + List.length calls)%nat.
Proof.
  induction calls as [|[[e c] now] calls IH]; intros a.
  - simpl. split; apply plus_n_O.
  - unfold analyzeAll in *. cbn [fold_left List.length].
    destruct (IH (snd (analyzeError a e c now))) as [Ht Hs].
    rewrite Ht, Hs.
    destruct (analyzeError_metrics a e c now) as [Ht1 Hs1].
    rewrite Ht1, Hs1. split; lia.
Qed.

(** C10.  Every call of [analyzeError] returns a diagnosis and adds one
    to both [totalAnalyses] and [successfulDiagnoses]; so after any
    sequence of calls on a new agent the two counters are equal (and
    equal to the number of calls). *)
Theorem analyzeError_counters_agree
    (cfg : AgentConfig) (calls : list (JsError * Context * string)) :
  (forall (a : Agent) (e : JsError) (c : Context) (now : string),
      exists (d : Diagnosis) (a' : Agent),
        analyzeError a e c now = (d, a')
        /\ totalAnalyses (performanceMetrics a')
           = S (totalAnalyses (performanceMetrics a))
        /\ successfulDiagnoses (performanceMetrics a')
           = S (successfulDiagnoses (performanceMetrics a)))
  /\ successfulDiagnoses
       (performanceMetrics (analyzeAll (newAgent cfg) calls))
     = totalAnalyses
         (performanceMetrics (analyzeAll (newAgent cfg) calls))
  /\ totalAnalyses (performanceMetrics (analyzeAll (newAgent cfg) calls))
     = List.length calls.
Proof.
  split.
  - intros a e c now.
    exists (fst (analyzeError a e c now)), (snd (analyzeError a e c now)).
    split; [ apply surjective_pairing | apply analyzeError_metrics ].
  - destruct (analyzeAll_metrics calls (newAgent cfg)) as [Ht Hs].
    rewrite Ht, Hs. simpl. split; reflexivity.
Qed.

End AgentFacts.

(* ===================================================================== *)
(** * Properties of the retrying wrapper *)

Section HandlerFacts.

Import AIAgent ErrorHandler.
Local Open Scope Z_scope.

Variable toLowerCase : string -> string.
Variable A : Type.
Variable fn : nat -> FnResult A.
Variables logClock diagClock : nat -> string.
Variable context : Context.

Local Abbreviation _categorizeError := (AIAgent._categorizeError toLowerCase).
Local Abbreviation analyzeError := (AIAgent.analyzeError toLowerCase).
Local Abbreviation loop :=
  (retryLoop toLowerCase A fn logClock diagClock context).
Local Abbreviation wrap :=
  (wrapAsync toLowerCase A fn logClock diagClock context).

Lemma applyImmediateFixes_id (h : Handler) (d : Diagnosis) :
  _applyImmediateFixes h d = h.
Proof.
  unfold _applyImmediateFixes.
  induction (recommendations d) as [|rec recs IH]; simpl;
    [ reflexivity | ].
  destruct (String.eqb _ _); exact IH.
Qed.

(** The loop guard, read on [nat]. *)
Lemma guard_nat (cfg : HandlerConfig) (r : nat) :
  0 <= maxRetries cfg ->
  (Z.of_nat r <=? maxRetries cfg)
  = (r <=? Z.to_nat (maxRetries cfg))%nat.
Proof.
  intros Hmax.
  destruct (Z.leb_spec (Z.of_nat r) (maxRetries cfg));
    destruct (Nat.leb_spec r (Z.to_nat (maxRetries cfg)));
    try reflexivity; lia.
Qed.

(** The fuel [wrapAsync] gives its loop is enough: the wrapper always
    settles. *)
Lemma retryLoop_total (n : nat) :
  forall (h : Handler) (last : option JsError) (r : nat)
         (trace : list Event),
    maxRetries (h_config h) + 1 <= Z.of_nat (r + n) ->
    exists res, loop n h last r trace = Some res.
Proof.
  induction n as [|n IH]; intros h last r trace Hfuel; cbn [retryLoop].
  - destruct (Z.leb_spec (Z.of_nat r) (maxRetries (h_config h)));
      [ lia | eauto ].
  - destruct (Z.of_nat r <=? maxRetries (h_config h)); [ | eauto ].
    destruct (fn r) as [v|e|]; [ eauto | | eauto ].
    cbn [_logError h_config setAgent].
    destruct (useAIAgent (h_config h)).
    + destruct (analyzeError _ _ _ _) as [d ag].
      destruct (negb (_isRetryable (category d))); [ eauto | ].
      rewrite applyImmediateFixes_id.
      apply IH. cbn [h_config setAgent _logError]. lia.
    + apply IH. cbn [h_config setAgent _logError]. lia.
Qed.

Lemma wrapAsync_total (h : Handler) : exists res, wrap h = Some res.
Proof. unfold wrapAsync. apply retryLoop_total. lia. Qed.

Section AllAttemptsFail.

Variable h0 : Handler.

Let cfg := h_config h0.
Let maxN := Z.to_nat (maxRetries cfg).

Hypothesis Hmax : 0 <= maxRetries cfg.

(** Every attempt fails, and when the agent is consulted it finds the
    failure retryable. *)
Hypothesis Hfail :
  forall k : nat,
    (k <= maxN)%nat ->
    exists e : JsError,
      fn k = Rejected e
      /\ (useAIAgent cfg = true ->
          _isRetryable
            (_categorizeError e (analysisContext context (S k))) = true).

Local Abbreviation reached :=
  (reachedAfter toLowerCase fn diagClock context h0).

Lemma retryLoop_all_fail (n : nat) :
  forall (h : Handler) (last : option JsError) (r : nat)
         (trace : list Event),
    (r + n = S maxN)%nat ->
    reached h last r ->
    exists (h' : Handler) (e : JsError),
      loop n h last r trace
      = Some (Threw (_enhanceError h' e context (S maxN)), h',
              trace ++ remaining cfg r n)
      /\ reached h' (Some e) (S maxN).
Proof.
  induction n as [|n IH]; intros h last r trace Hrn Hreached.
  - (* the guard fails: the loop is left and the error is enhanced *)
    assert (r = S maxN) by lia. subst r.
    destruct Hreached as (Hcfg & Hacfg & Hnoai & e & Hlast & Hfn & Hd).
    exists h, e. cbn [retryLoop remaining]. rewrite Hcfg, guard_nat by exact Hmax.
    fold cfg maxN.
    destruct (Nat.leb_spec (S maxN) maxN); [ lia | ].
    subst last. cbn [exhausted]. rewrite app_nil_r. split; [ reflexivity | ].
    repeat split; try assumption. exists e. auto.
  - destruct Hreached as (Hcfg & Hacfg & Hnoai & Hr).

    assert (Htrace :
              (if (S r <=? maxN)%nat
               then (trace ++ [EvCall])
                      ++ [EvSleep (_calculateDelay cfg (S r))]
               else trace ++ [EvCall])
                ++ remaining cfg (S r) n
              = trace ++ remaining cfg r (S n)).
    { destruct n as [|m].
      - destruct (Nat.leb_spec (S r) maxN); [ lia | ].
        simpl. rewrite app_nil_r. reflexivity.
      - destruct (Nat.leb_spec (S r) maxN); [ | lia ].
        simpl. rewrite <- !app_assoc. reflexivity. }
    cbn [retryLoop].
    rewrite Hcfg, guard_nat by exact Hmax. fold cfg maxN.
    destruct (Nat.leb_spec r maxN) as [Hle|]; [ | lia ].
    destruct (Hfail r Hle) as (e & Hfn & Hretry).
    rewrite Hfn. cbn [_logError h_config aiAgent setAgent].
    rewrite Hcfg. fold cfg.
    destruct (useAIAgent cfg) eqn:Hai.
    + destruct (analyzeError (aiAgent h) e
                  (analysisContext context (S r)) (diagClock r))
        as [d ag] eqn:Han.
      assert (Hd : d = fst (analyzeError (aiAgent h) e
                              (analysisContext context (S r))
                              (diagClock r)))
        by (rewrite Han; reflexivity).
      assert (Hag : ag = snd (analyzeError (aiAgent h) e
                                (analysisContext context (S r))
                                (diagClock r)))
        by (rewrite Han; reflexivity).
      assert (Hcat : category d
                     = _categorizeError e (analysisContext context (S r)))
        by (rewrite Hd; apply analyzeError_category).
      rewrite Hcat, (Hretry eq_refl), applyImmediateFixes_id.
      cbn [negb setAgent h_config _logError].
      rewrite ?Hcfg. fold cfg.
      rewrite guard_nat by exact Hmax. fold cfg maxN.
      match goal with
      | |- context [retryLoop _ _ _ _ _ _ n ?h1 ?l1 ?r1 ?t1] =>
          destruct (IH h1 l1 r1 t1) as (h' & e' & Hloop & Hreached')
      end.
      * lia.
      * unfold reachedAfter. cbn [h_config aiAgent setAgent _logError].
        split; [ exact Hcfg | ].
        split; [ rewrite Hag, analyzeError_config; exact Hacfg | ].
        split; [ intros Hcontra; fold cfg in Hcontra; congruence | ].
        exists e. split; [ reflexivity | ]. split; [ exact Hfn | ].
        intros _. rewrite Hag, analyzeError_last.
        f_equal. apply analyzeError_diagnosis_config. exact Hacfg.
      * exists h', e'. split; [ | exact Hreached' ].
        rewrite Hloop, Htrace. reflexivity.
    + rewrite guard_nat by exact Hmax. fold cfg maxN.
      match goal with
      | |- context [retryLoop _ _ _ _ _ _ n ?h1 ?l1 ?r1 ?t1] =>
          destruct (IH h1 l1 r1 t1) as (h' & e' & Hloop & Hreached')
      end.
      * lia.
      * unfold reachedAfter. cbn [h_config aiAgent setAgent _logError].
        split; [ exact Hcfg | ].
        split; [ exact Hacfg | ].
        split; [ exact Hnoai | ].
        exists e. split; [ reflexivity | ]. split; [ exact Hfn | ].
        intros Hcontra. fold cfg in Hcontra. congruence.
      * exists h', e'. split; [ | exact Hreached' ].
        rewrite Hloop, Htrace. reflexivity.
Qed.

End AllAttemptsFail.

Lemma wrapAsync_all_fail (h : Handler) :
  0 <= maxRetries (h_config h) ->
  (forall k : nat,
      (k <= Z.to_nat (maxRetries (h_config h)))%nat ->
      exists e : JsError,
        fn k = Rejected e
        /\ (useAIAgent (h_config h) = true ->
            _isRetryable
              (_categorizeError e (analysisContext context (S k)))
            = true)) ->
  exists (h' : Handler) (e : JsError),
    wrap h
    = Some (Threw (_enhanceError h' e context
                     (S (Z.to_nat (maxRetries (h_config h))))),
            h',
            remaining (h_config h) 0
              (S (Z.to_nat (maxRetries (h_config h)))))
    /\ reachedAfter toLowerCase fn diagClock context h h' (Some e)
         (S (Z.to_nat (maxRetries (h_config h)))).
Proof.
  intros Hmax Hfail. unfold wrapAsync.
  replace (Z.to_nat (maxRetries (h_config h) + 1))
    with (S (Z.to_nat (maxRetries (h_config h)))) by lia.
  apply (retryLoop_all_fail h Hmax Hfail
           (S (Z.to_nat (maxRetries (h_config h)))) h None 0%nat []).
  - reflexivity.
  - unfold reachedAfter. auto.
Qed.

Lemma attempts_retryEvents (cfg : HandlerConfig) (l : list nat) :
  attempts (flat_map (retryEvents cfg) l) = List.length l.
Proof.
  induction l as [|k l IH]; [ reflexivity | ].
  unfold attempts in *. simpl. rewrite IH. reflexivity.
Qed.

Lemma delays_retryEvents (cfg : HandlerConfig) (l : list nat) :
  delays (flat_map (retryEvents cfg) l) = map (_calculateDelay cfg) l.
Proof.
  induction l as [|k l IH]; [ reflexivity | ].
  simpl. rewrite IH. reflexivity.
Qed.

Lemma calculateDelay_increasing (cfg : HandlerConfig) (i j : nat) :
  exponentialBackoff cfg = true ->
  (0 <? retryDelayMs cfg)%float = true ->
  (1 <= i < j)%nat ->
  (_calculateDelay cfg j <? infinity)%float = true ->
  (_calculateDelay cfg i <? _calculateDelay cfg j)%float = true.
Proof.
  intros Hexp Hbase Hij. unfold _calculateDelay. rewrite Hexp.
  apply scaled_increasing; [ exact Hbase | lia ].
Qed.

Lemma calculateDelay_finite (cfg : HandlerConfig) (j n : nat) :
  exponentialBackoff cfg = true ->
  (0 <? retryDelayMs cfg)%float = true ->
  (1 <= j <= n)%nat ->
  (_calculateDelay cfg n <? infinity)%float = true ->
  (_calculateDelay cfg j <? infinity)%float = true.
Proof.
  intros Hexp Hbase Hjn Hfin.
  destruct (Nat.eq_dec j n) as [->|Hne]; [ exact Hfin | ].
  apply (float_ltb_trans _ (_calculateDelay cfg n)); [ | exact Hfin ].
  apply calculateDelay_increasing; try assumption. lia.
Qed.

Lemma delays_sorted (cfg : HandlerConfig) (n m : nat) :
  exponentialBackoff cfg = true ->
  (0 <? retryDelayMs cfg)%float = true ->
  (_calculateDelay cfg n <? infinity)%float = true ->
  forall a : nat,
    (1 <= a)%nat ->
    (a + m <= S n)%nat ->
    StronglySorted (fun x y : float => (x <? y)%float = true)
      (map (_calculateDelay cfg) (seq a m)).
Proof.
  intros Hexp Hbase Hfin.
  induction m as [|m IH]; intros a Ha Han; simpl; constructor.
  - apply IH; lia.
  - apply Forall_forall. intros d Hd.
    apply in_map_iff in Hd. destruct Hd as (k & <- & Hk).
    apply in_seq in Hk.
    apply calculateDelay_increasing; [ assumption | assumption | lia | ].
    apply (calculateDelay_finite cfg k n); try assumption. lia.
Qed.

Lemma constant_delays (cfg : HandlerConfig) (m : nat) :
  exponentialBackoff cfg = false ->
  forall k : nat,
    map (_calculateDelay cfg) (seq k m) = repeat (retryDelayMs cfg) m.
Proof.
  intros Hexp. induction m as [|m IHm]; intros k; [ reflexivity | ].
  cbn [seq map repeat]. rewrite IHm.
  unfold _calculateDelay. rewrite Hexp. reflexivity.
Qed.

(** C3, as the code has it.  When every attempt fails with an error that
    is classified as NETWORK, one call of the wrapper makes
    [maxRetries + 1] attempts (the first one and [maxRetries] retries),
    the n-th retry after a timer of [_calculateDelay n].  Under
    exponential backoff that delay is the Number
    [retryDelayMs * Math.pow(2, n - 1)], and the delays increase strictly
    when [retryDelayMs] is positive and the last of them is finite;
    without it every delay is [retryDelayMs].  Then the wrapper throws the
    enhanced error, which carries the error of the last attempt, the
    context and the number of attempts.  With the agent on it also carries
    the agent's latest diagnosis, the one of that last error; with the
    agent off nothing is diagnosed, and it carries what the agent held
    before the call (nothing, on a new handler). *)
Theorem wrapAsync_network_failures (h : Handler) :
  0 <= maxRetries (h_config h) ->
  (forall k : nat,
      (k <= Z.to_nat (maxRetries (h_config h)))%nat ->
      exists e : JsError,
        fn k = Rejected e
        /\ _categorizeError e (analysisContext context (S k)) = NETWORK) ->
  exists (ee : EnhancedError) (h' : Handler) (trace : list Event)
         (lastError : JsError),
    wrap h = Some (Threw ee, h', trace)
    /\ trace
       = EvCall ::
           flat_map
             (fun n : nat =>
                [EvSleep (_calculateDelay (h_config h) n); EvCall])
             (seq 1 (Z.to_nat (maxRetries (h_config h))))
    /\ attempts trace = S (Z.to_nat (maxRetries (h_config h)))
    /\ delays trace
       = map (_calculateDelay (h_config h))
           (seq 1 (Z.to_nat (maxRetries (h_config h))))
    /\ (exponentialBackoff (h_config h) = true ->
        delays trace
        = map (fun n : nat =>
                 (retryDelayMs (h_config h)
                  * Js.pow2 (Z.of_nat n - 1))%float)
              (seq 1 (Z.to_nat (maxRetries (h_config h))))
        /\ ((0 <? retryDelayMs (h_config h))%float = true ->
            (_calculateDelay (h_config h)
               (Z.to_nat (maxRetries (h_config h))) <? infinity)%float
            = true ->
            StronglySorted (fun x y : float => (x <? y)%float = true)
              (delays trace)))
    /\ (exponentialBackoff (h_config h) = false ->
        delays trace
        = repeat (retryDelayMs (h_config h))
            (Z.to_nat (maxRetries (h_config h))))
    /\ fn (Z.to_nat (maxRetries (h_config h))) = Rejected lastError
    /\ ee_originalError ee = lastError
    /\ ee_message ee = message lastError
    /\ ee_context ee = context
    /\ ee_retryCount ee = S (Z.to_nat (maxRetries (h_config h)))
    /\ (useAIAgent (h_config h) = true ->
        exists d : Diagnosis,
          ee_aiDiagnosis ee = Some d
          /\ lastOf (diagnosticResults (aiAgent h')) = Some d
          /\ d = fst (analyzeError (aiAgent h) lastError
                        (analysisContext context
                           (S (Z.to_nat (maxRetries (h_config h)))))
                        (diagClock (Z.to_nat (maxRetries (h_config h)))))
          /\ category d = NETWORK)
    /\ (useAIAgent (h_config h) = false ->
        aiAgent h' = aiAgent h
        /\ ee_aiDiagnosis ee = lastOf (diagnosticResults (aiAgent h))).
Proof.
  intros Hmax Hfail.
  destruct (wrapAsync_all_fail h Hmax) as (h' & e & Hwrap & Hreached).
  { intros k Hk. destruct (Hfail k Hk) as (e & Hfn & Hcat).
    exists e. split; [ exact Hfn | ]. intros _. rewrite Hcat. reflexivity. }
  destruct Hreached as (Hcfg & Hacfg & Hsame & e' & He' & Hfn & Hdiag).
  injection He' as <-.
  destruct (Hfail _ (Nat.le_refl _)) as (e2 & Hfn2 & Hcat).
  rewrite Hfn in Hfn2. injection Hfn2 as <-.
  assert (Hdelays :
            delays (remaining (h_config h) 0
                      (S (Z.to_nat (maxRetries (h_config h)))))
            = map (_calculateDelay (h_config h))
                (seq 1 (Z.to_nat (maxRetries (h_config h))))).
  { cbn [remaining delays]. apply delays_retryEvents. }
  eexists _, h', _, e.
  split; [ exact Hwrap | ].
  split; [ reflexivity | ].
  split.
  { cbn [remaining]. unfold attempts. cbn [filter List.length].
    fold (attempts (flat_map (retryEvents (h_config h))
                      (seq 1 (Z.to_nat (maxRetries (h_config h)))))).
    rewrite attempts_retryEvents, length_seq. reflexivity. }
  split; [ exact Hdelays | ].
  split.
  { intros Hexp. rewrite Hdelays. split.
    - apply map_ext. intros n. unfold _calculateDelay. rewrite Hexp.
      reflexivity.
    - intros Hbase Hfin.
      apply (delays_sorted (h_config h)
               (Z.to_nat (maxRetries (h_config h))));
        try assumption; lia. }
  split.
  { intros Hexp. rewrite Hdelays. apply constant_delays. exact Hexp. }
  split; [ exact Hfn | ].
  cbn [_enhanceError ee_originalError ee_message ee_context ee_retryCount
         ee_aiDiagnosis].
  repeat (split; [ reflexivity | ]).
  split.
  - intros Hai. specialize (Hdiag Hai). eexists.
    split; [ exact Hdiag | ].
    split; [ exact Hdiag | ].
    split; [ reflexivity | ].
    rewrite analyzeError_category. exact Hcat.
  - intros Hai. rewrite (Hsame Hai). split; reflexivity.
Qed.

(** C9.  With [useAIAgent] off, the retryability check is never
    reached: whatever the errors are, a call whose attempts all fail is
    retried [maxRetries] times, each retry after its timer, and the
    agent is left untouched. *)
Theorem wrapAsync_without_agent_retries_all (h : Handler) :
  useAIAgent (h_config h) = false ->
  0 <= maxRetries (h_config h) ->
  (forall k : nat,
      (k <= Z.to_nat (maxRetries (h_config h)))%nat ->
      exists e : JsError, fn k = Rejected e) ->
  exists (ee : EnhancedError) (h' : Handler) (trace : list Event)
         (lastError : JsError),
    wrap h = Some (Threw ee, h', trace)
    /\ trace
       = EvCall ::
           flat_map
             (fun n : nat =>
                [EvSleep (_calculateDelay (h_config h) n); EvCall])
             (seq 1 (Z.to_nat (maxRetries (h_config h))))
    /\ attempts trace = S (Z.to_nat (maxRetries (h_config h)))
    /\ List.length (delays trace) = Z.to_nat (maxRetries (h_config h))
    /\ aiAgent h' = aiAgent h
    /\ fn (Z.to_nat (maxRetries (h_config h))) = Rejected lastError
    /\ ee_originalError ee = lastError
    /\ ee_retryCount ee = S (Z.to_nat (maxRetries (h_config h))).
Proof.
  intros Hai Hmax Hfail.
  destruct (wrapAsync_all_fail h Hmax) as (h' & e & Hwrap & Hreached).
  { intros k Hk. destruct (Hfail k Hk) as (e & Hfn).
    exists e. split; [ exact Hfn | ]. intros Hcontra. congruence. }
  destruct Hreached as (Hcfg & Hacfg & Hsame & e' & He' & Hfn & _).
  injection He' as <-.
  eexists _, h', _, e.
  split; [ exact Hwrap | ].
  split; [ reflexivity | ].
  split.
  { cbn [remaining]. unfold attempts. cbn [filter List.length].
    fold (attempts (flat_map (retryEvents (h_config h))
                      (seq 1 (Z.to_nat (maxRetries (h_config h)))))).
    rewrite attempts_retryEvents, length_seq. reflexivity. }
  split.
  { cbn [remaining delays].
    rewrite delays_retryEvents, length_map, length_seq. reflexivity. }
  split; [ exact (Hsame Hai) | ].
  split; [ exact Hfn | ].
  split; reflexivity.
Qed.

Lemma isRetryable_iff (c : ErrorCategory) :
  _isRetryable c = true <-> c = NETWORK \/ c = GAS \/ c = PRICE.
Proof.
  destruct c; vm_compute; split;
    solve [ auto | discriminate
          | intros [H|[H|H]]; discriminate H ].
Qed.

(** C4, as the code has it.  The retryable categories are exactly
    NETWORK, GAS and PRICE (CONFIG, for one, is not among them).  With the
    agent on, when it classifies the first failure into any other category
    the wrapper makes no further attempt and awaits no timer: it throws
    the enhanced error at once, with the diagnosis of that failure.  (With
    the agent off no failure is classified, and every failure is
    retried.) *)
Theorem wrapAsync_non_retryable (h : Handler) (e : JsError) :
  (forall c : ErrorCategory,
      _isRetryable c = true <-> c = NETWORK \/ c = GAS \/ c = PRICE)
  /\ _isRetryable CONFIG = false
  /\ (useAIAgent (h_config h) = true ->
      0 <= maxRetries (h_config h) ->
      fn 0%nat = Rejected e ->
      _categorizeError e (analysisContext context 1) <> NETWORK ->
      _categorizeError e (analysisContext context 1) <> GAS ->
      _categorizeError e (analysisContext context 1) <> PRICE ->
      exists (ee : EnhancedError) (h' : Handler) (trace : list Event)
             (d : Diagnosis),
        wrap h = Some (Threw ee, h', trace)
        /\ trace = [EvCall]
        /\ attempts trace = 1%nat
        /\ delays trace = []
        /\ ee_originalError ee = e
        /\ ee_retryCount ee = 1%nat
        /\ ee_aiDiagnosis ee = Some d
        /\ category d = _categorizeError e (analysisContext context 1)).
Proof.
  split; [ exact isRetryable_iff | ].
  split; [ reflexivity | ].
  intros Hai Hmax Hfn Hnet Hgas Hprice.
  assert (Hnot :
            _isRetryable
              (_categorizeError e (analysisContext context 1)) = false).
  { destruct (_isRetryable _) eqn:Hr; [ | reflexivity ].
    apply isRetryable_iff in Hr. destruct Hr as [Hr|[Hr|Hr]]; congruence. }
  unfold wrapAsync.
  replace (Z.to_nat (maxRetries (h_config h) + 1))
    with (S (Z.to_nat (maxRetries (h_config h)))) by lia.
  cbn [retryLoop].
  replace (Z.of_nat 0 <=? maxRetries (h_config h)) with true
    by (symmetry; apply Z.leb_le; exact Hmax).
  rewrite Hfn. cbn [_logError h_config aiAgent setAgent]. rewrite Hai.
  destruct (analyzeError (aiAgent h) e (analysisContext context 1)
              (diagClock 0%nat)) as [d ag] eqn:Han.
  assert (Hd : d = fst (analyzeError (aiAgent h) e
                          (analysisContext context 1) (diagClock 0%nat)))
    by (rewrite Han; reflexivity).
  assert (Hag : ag = snd (analyzeError (aiAgent h) e
                            (analysisContext context 1) (diagClock 0%nat)))
    by (rewrite Han; reflexivity).
  assert (Hcat : category d
                 = _categorizeError e (analysisContext context 1))
    by (rewrite Hd; apply analyzeError_category).
  rewrite Hcat, Hnot. cbn [negb exhausted].
  eexists _, _, _, d.
  split; [ reflexivity | ].
  split; [ reflexivity | ].
  split; [ reflexivity | ].
  split; [ reflexivity | ].
  cbn [_enhanceError ee_originalError ee_retryCount ee_aiDiagnosis
         aiAgent setAgent].
  split; [ reflexivity | ].
  split; [ reflexivity | ].
  split; [ | exact Hcat ].
  rewrite Hag, analyzeError_last, <- Hd. reflexivity.
Qed.

End HandlerFacts.

Section HandlerExamples.

Import AIAgent ErrorHandler Examples.
Local Open Scope Z_scope.

(** The default handler around a call that always fails with a network
    error: four attempts, timers of 1000, 2000 and 4000 ms. *)
Lemma wrapAsync_network_failures_witness :
  exists (ee : EnhancedError) (h' : Handler) (trace : list Event),
    wrapAsync asciiToLowerCase unit (alwaysFails networkError)
      fixedClock fixedClock emptyContext defaultHandler
    = Some (Threw ee, h', trace)
    /\ trace = [EvCall; EvSleep 1000; EvCall; EvSleep 2000; EvCall;
                EvSleep 4000; EvCall]
    /\ attempts trace = 4%nat
    /\ delays trace = [1000; 2000; 4000]%float
    /\ StronglySorted (fun x y : float => (x <? y)%float = true)
         (delays trace)
    /\ ee_originalError ee = networkError
    /\ option_map category (ee_aiDiagnosis ee) = Some NETWORK.
Proof.
  destruct (wrapAsync_network_failures asciiToLowerCase unit
              (alwaysFails networkError)
              fixedClock fixedClock emptyContext defaultHandler)
    as (ee & h' & trace & lastError & Hwrap & Htrace & Hattempts
        & Hdelays & Hexp & _ & Hfn & Horig & _ & _ & _ & Hon & _).
  - simpl. lia.
  - intros k _. exists networkError. split; reflexivity.
  - destruct (Hon eq_refl) as (d & Hdiag & _ & _ & Hcat).
    destruct (Hexp eq_refl) as [_ Hsorted].
    exists ee, h', trace.
    split; [ exact Hwrap | ].
    split; [ rewrite Htrace; vm_compute; reflexivity | ].
    split; [ exact Hattempts | ].
    split; [ rewrite Hdelays; vm_compute; reflexivity | ].
    split; [ apply Hsorted; reflexivity | ].
    split.
    + rewrite Horig. injection Hfn as <-. reflexivity.
    + rewrite Hdiag. simpl. rewrite Hcat. reflexivity.
Defined.

(** C3, refuted as stated.  With [retryDelayMs = 0] the delays under
    exponential backoff are 0, 0, 0 and do not increase; and with the
    agent off the enhanced error of a call that failed with network
    errors carries no diagnosis. *)
Lemma network_failures_without_growth_or_diagnosis :
  (exists (ee : EnhancedError) (h' : Handler) (trace : list Event),
      wrapAsync asciiToLowerCase unit (alwaysFails networkError)
        fixedClock fixedClock emptyContext
        (newHandler
           {| useAIAgent := true; maxRetries := 3; retryDelayMs := 0;
              exponentialBackoff := true; verboseLogging := true |})
      = Some (Threw ee, h', trace)
      /\ delays trace = [0; 0; 0]%float
      /\ ~ StronglySorted (fun x y : float => (x <? y)%float = true)
             (delays trace))
  /\ (exists (ee : EnhancedError) (h' : Handler) (trace : list Event),
        wrapAsync asciiToLowerCase unit (alwaysFails networkError)
          fixedClock fixedClock emptyContext handlerWithoutAgent
        = Some (Threw ee, h', trace)
        /\ _categorizeError asciiToLowerCase networkError
             (analysisContext emptyContext 4) = NETWORK
        /\ attempts trace = 4%nat
        /\ ee_aiDiagnosis ee = None).
Proof.
  split.
  - eexists _, _, _. split; [ vm_compute; reflexivity | ].
    split; [ reflexivity | ].
    intros Hsorted. apply StronglySorted_inv in Hsorted.
    destruct Hsorted as [_ Hall]. apply Forall_inv in Hall.
    vm_compute in Hall. discriminate Hall.
  - eexists _, _, _. split; [ vm_compute; reflexivity | ].
    repeat split.
Qed.

(** A handler without agent around a call that always fails with a
    configuration error: still four attempts. *)
Lemma wrapAsync_without_agent_retries_all_witness :
  exists (ee : EnhancedError) (h' : Handler) (trace : list Event),
    wrapAsync asciiToLowerCase unit (alwaysFails configError)
      fixedClock fixedClock emptyContext handlerWithoutAgent
    = Some (Threw ee, h', trace)
    /\ _categorizeError asciiToLowerCase configError
         (analysisContext emptyContext 1)
       = CONFIG
    /\ attempts trace = 4%nat
    /\ List.length (delays trace) = 3%nat
    /\ aiAgent h' = aiAgent handlerWithoutAgent.
Proof.
  destruct (wrapAsync_without_agent_retries_all asciiToLowerCase unit
              (alwaysFails configError) fixedClock fixedClock
              emptyContext handlerWithoutAgent)
    as (ee & h' & trace & lastError & Hwrap & _ & Hattempts & Hlen
        & Hagent & _).
  - reflexivity.
  - simpl. lia.
  - intros k _. exists configError. reflexivity.
  - exists ee, h', trace.
    split; [ exact Hwrap | ].
    split; [ reflexivity | ].
    split; [ exact Hattempts | ].
    split; [ exact Hlen | exact Hagent ].
Defined.

(** The default handler around a call that fails with a configuration
    error: one attempt. *)
Lemma wrapAsync_non_retryable_witness :
  exists (ee : EnhancedError) (h' : Handler),
    wrapAsync asciiToLowerCase unit (alwaysFails configError)
      fixedClock fixedClock emptyContext defaultHandler
    = Some (Threw ee, h', [EvCall])
    /\ ee_originalError ee = configError
    /\ option_map category (ee_aiDiagnosis ee) = Some CONFIG.
Proof.
  destruct (wrapAsync_non_retryable asciiToLowerCase unit
              (alwaysFails configError)
              fixedClock fixedClock emptyContext defaultHandler
              configError)
    as (_ & _ & Hstops).
  destruct Hstops
    as (ee & h' & trace & d & Hwrap & Htrace & _ & _ & Horig
        & _ & Hdiag & Hcat).
  - reflexivity.
  - simpl. lia.
  - reflexivity.
  - vm_compute. discriminate.
  - vm_compute. discriminate.
  - vm_compute. discriminate.
  - exists ee, h'. rewrite <- Htrace.
    split; [ exact Hwrap | ].
    split; [ exact Horig | ].
    rewrite Hdiag. simpl. rewrite Hcat. reflexivity.
Defined.

(** C4, refuted as stated.  A failure classified CONFIG, which is not a
    retryable category, is retried three times all the same when the
    handler is configured with [useAIAgent: false]: four invocations, a
    timer between any two. *)
Lemma config_failure_is_retried_without_agent :
  _categorizeError asciiToLowerCase configError
    (analysisContext emptyContext 1) = CONFIG
  /\ _isRetryable CONFIG = false
  /\ exists (ee : EnhancedError) (h' : Handler),
       wrapAsync asciiToLowerCase unit (alwaysFails configError)
         fixedClock fixedClock emptyContext handlerWithoutAgent
       = Some (Threw ee, h',
               [EvCall; EvSleep 1000; EvCall; EvSleep 2000; EvCall;
                EvSleep 4000; EvCall])
       /\ ee_retryCount ee = 4%nat.
Proof.
  split; [ reflexivity | ]. split; [ reflexivity | ].
  eexists _, _. split; [ vm_compute; reflexivity | reflexivity ].
Qed.

End HandlerExamples.

(* ===================================================================== *)
(** * Further properties of the arbitrage calculator *)

Section ArbitrageScan.

Import Arbitrage Examples.
Local Open Scope float_scope.

(** The direction between a cheaper and a dearer quote. *)
Lemma direction_of_cheaper (p1 p2 : PriceData) :
  (priceOf p1 <? priceOf p2) = true ->
  buyFrom (determineArbitrageDirection p1 p2) = dex p1
  /\ buyPrice (determineArbitrageDirection p1 p2) = priceOf p1
  /\ sellTo (determineArbitrageDirection p1 p2) = dex p2
  /\ sellPrice (determineArbitrageDirection p1 p2) = priceOf p2.
Proof.
  intros Hlt. unfold determineArbitrageDirection. rewrite Hlt.
  cbn [buyFrom buyPrice sellTo sellPrice]. repeat split.
Qed.

(** X1.  When the first quote is strictly cheaper than the second,
    [determineArbitrageDirection] returns the same direction whichever
    way round the two quotes are passed: buy from the cheaper DEX at its
    price, sell to the dearer one at its price, with the same percentage
    difference. *)
Theorem determineArbitrageDirection_order (p1 p2 : PriceData) :
  (priceOf p1 <? priceOf p2) = true ->
  determineArbitrageDirection p1 p2 = determineArbitrageDirection p2 p1
  /\ buyFrom (determineArbitrageDirection p1 p2) = dex p1
  /\ buyPrice (determineArbitrageDirection p1 p2) = priceOf p1
  /\ sellTo (determineArbitrageDirection p1 p2) = dex p2
  /\ sellPrice (determineArbitrageDirection p1 p2) = priceOf p2.
Proof.
  intros Hlt. unfold determineArbitrageDirection.
  rewrite Hlt, (float_ltb_asym _ _ Hlt). cbn [buyFrom buyPrice sellTo sellPrice].
  repeat split.
  f_equal. unfold calculatePriceDifference.
  rewrite (orb_comm (Js.strictEq (priceOf p1) 0)).
  rewrite (float_add_comm (priceOf p1)), (float_abs_sub_comm (priceOf p1)).
  reflexivity.
Qed.

Lemma determineArbitrageDirection_order_witness :
  determineArbitrageDirection quoteA quoteB
  = determineArbitrageDirection quoteB quoteA
  /\ buyFrom (determineArbitrageDirection quoteB quoteA) = "A"%string
  /\ sellTo (determineArbitrageDirection quoteB quoteA) = "B"%string.
Proof.
  destruct (determineArbitrageDirection_order quoteA quoteB)
    as (Heq & Hbuy & _ & Hsell & _).
  - reflexivity.
  - rewrite <- Heq. repeat split; assumption.
Defined.

(** The scan keeps one of three things true of the pair it carries. *)
Lemma scanStep_facts (bb bs q bb' bs' : PriceData) :
  scanStep (bb, bs) q = (bb', bs') ->
  (bb' = bb /\ (priceOf q <? priceOf bb) = false
   \/ bb' = q /\ (priceOf q <? priceOf bb) = true)
  /\ (bs' = bs /\ (priceOf bs <? priceOf q) = false
      \/ bs' = q /\ (priceOf bs <? priceOf q) = true).
Proof.
  unfold scanStep, Js.gt. intros H.
  destruct (priceOf q <? priceOf bb) eqn:Hb;
    destruct (priceOf bs <? priceOf q) eqn:Hs;
    injection H as <- <-; auto.
Qed.

Lemma scan_extremes (l : list PriceData) :
  forall bb bs bb' bs' : PriceData,
    fold_left scanStep l (bb, bs) = (bb', bs') ->
    (bb' = bb \/ In bb' l)
    /\ (bs' = bs \/ In bs' l)
    /\ (bb' = bb \/ (priceOf bb' <? priceOf bb) = true)
    /\ (bs' = bs \/ (priceOf bs <? priceOf bs') = true)
    /\ (forall p : PriceData,
           In p l ->
           (priceOf p <? priceOf bb') = false
           /\ (priceOf bs' <? priceOf p) = false).
Proof.
  induction l as [|q l IH]; intros bb bs bb' bs' Hfold.
  - injection Hfold as <- <-. repeat split; auto; contradiction.
  - cbn [fold_left] in Hfold.
    destruct (scanStep (bb, bs) q) as [bb1 bs1] eqn:Hstep.
    destruct (scanStep_facts _ _ _ _ _ Hstep) as [Hb1 Hs1].
    destruct (IH _ _ _ _ Hfold) as (Hinb & Hins & Hltb & Hlts & Hall).
    assert (Hb' : bb' = bb \/ (priceOf bb' <? priceOf bb) = true).
    { destruct Hltb as [->|Hlt]; destruct Hb1 as [[-> Hq]|[-> Hq]]; auto.
      right. exact (float_ltb_trans _ _ _ Hlt Hq). }
    assert (Hs' : bs' = bs \/ (priceOf bs <? priceOf bs') = true).
    { destruct Hlts as [->|Hlt]; destruct Hs1 as [[-> Hq]|[-> Hq]]; auto.
      right. exact (float_ltb_trans _ _ _ Hq Hlt). }
    split; [ | split; [ | split; [ exact Hb' | split; [ exact Hs' | ] ] ] ].
    + destruct Hinb as [->|Hin]; [ | right; right; exact Hin ].
      destruct Hb1 as [[-> _]|[-> _]]; [ left | right; left ]; reflexivity.
    + destruct Hins as [->|Hin]; [ | right; right; exact Hin ].
      destruct Hs1 as [[-> _]|[-> _]]; [ left | right; left ]; reflexivity.
    + intros p [<-|Hin]; [ | exact (Hall p Hin) ]. split.
      * destruct (priceOf q <? priceOf bb') eqn:Hq; [ | reflexivity ].
        destruct Hltb as [->|Hlt].
        -- destruct Hb1 as [[-> Hq1]|[-> Hq1]]; [ congruence | ].
           rewrite float_ltb_irrefl in Hq. discriminate.
        -- destruct Hb1 as [[-> Hq1]|[-> Hq1]].
           ++ rewrite (float_ltb_trans _ _ _ Hq Hlt) in Hq1. discriminate.
           ++ rewrite (float_ltb_asym _ _ Hlt) in Hq. discriminate.
      * destruct (priceOf bs' <? priceOf q) eqn:Hq; [ | reflexivity ].
        destruct Hlts as [->|Hlt].
        -- destruct Hs1 as [[-> Hq1]|[-> Hq1]]; [ congruence | ].
           rewrite float_ltb_irrefl in Hq. discriminate.
        -- destruct Hs1 as [[-> Hq1]|[-> Hq1]].
           ++ rewrite (float_ltb_trans _ _ _ Hlt Hq) in Hq1. discriminate.
           ++ rewrite (float_ltb_asym _ _ Hlt) in Hq. discriminate.
Qed.

(** The pair the scan carries is one entry twice, or a strictly cheaper
    entry and a strictly dearer one. *)
Lemma scan_ordered (l : list PriceData) :
  forall bb bs bb' bs' : PriceData,
    fold_left scanStep l (bb, bs) = (bb', bs') ->
    bb = bs \/ (priceOf bb <? priceOf bs) = true ->
    bb' = bs' \/ (priceOf bb' <? priceOf bs') = true.
Proof.
  induction l as [|q l IH]; intros bb bs bb' bs' Hfold Hinv.
  - injection Hfold as <- <-. exact Hinv.
  - cbn [fold_left] in Hfold.
    destruct (scanStep (bb, bs) q) as [bb1 bs1] eqn:Hstep.
    apply (IH _ _ _ _ Hfold).
    destruct (scanStep_facts _ _ _ _ _ Hstep)
      as [[[-> Hb]|[-> Hb]] [[-> Hs]|[-> Hs]]]; auto.
    + destruct Hinv as [->|Hlt]; [ auto | ].
      right. exact (float_ltb_trans _ _ _ Hlt Hs).
    + destruct Hinv as [->|Hlt]; [ auto | ].
      right. exact (float_ltb_trans _ _ _ Hb Hlt).
Qed.

(** What the scan returns when it starts on the head of the list. *)
Lemma scan_selects_extremes
    (first : PriceData) (rest : list PriceData) (bestBuy bestSell : PriceData) :
  findBest first (first :: rest) = (bestBuy, bestSell) ->
  In bestBuy (first :: rest)
  /\ In bestSell (first :: rest)
  /\ (forall p : PriceData,
         In p (first :: rest) ->
         (priceOf p <? priceOf bestBuy) = false
         /\ (priceOf bestSell <? priceOf p) = false)
  /\ (bestBuy = bestSell \/ (priceOf bestBuy <? priceOf bestSell) = true).
Proof.
  unfold findBest. intros Hfold.
  destruct (scan_extremes _ _ _ _ _ Hfold) as (Hinb & Hins & _ & _ & Hall).
  split; [ destruct Hinb as [->|Hin]; [ left; reflexivity | exact Hin ] | ].
  split; [ destruct Hins as [->|Hin]; [ left; reflexivity | exact Hin ] | ].
  split; [ exact Hall | ].
  apply (scan_ordered _ _ _ _ _ Hfold). left. reflexivity.
Qed.

(** X2.  The scan of [analyzeArbitrage], started on the first entry of a
    list, selects two entries of that list: no entry of the list is
    strictly cheaper than the selected best buy, none is strictly dearer
    than the selected best sell, and the two are the same entry or the
    best buy is strictly cheaper than the best sell. *)
Theorem findBest_extremes
    (first : PriceData) (rest : list PriceData) (bestBuy bestSell : PriceData) :
  findBest first (first :: rest) = (bestBuy, bestSell) ->
  In bestBuy (first :: rest)
  /\ In bestSell (first :: rest)
  /\ (forall p : PriceData,
         In p (first :: rest) ->
         (priceOf p <? priceOf bestBuy) = false
         /\ (priceOf bestSell <? priceOf p) = false)
  /\ (bestBuy = bestSell \/ (priceOf bestBuy <? priceOf bestSell) = true).
Proof.
  exact (scan_selects_extremes first rest bestBuy bestSell).
Qed.

Lemma findBest_extremes_witness :
  In quoteA [quoteB; quoteA] /\ In quoteB [quoteB; quoteA]
  /\ (priceOf quoteA <? priceOf quoteB) = true.
Proof.
  destruct (findBest_extremes quoteB [quoteA] quoteA quoteB)
    as (Hb & Hs & _ & [Heq|Hlt]).
  - reflexivity.
  - discriminate Heq.
  - repeat split; assumption.
Defined.

End ArbitrageScan.

Section ArbitrageAnalysis.

Import Arbitrage Examples.
Local Open Scope float_scope.

(** What a complete analysis was computed from. *)
Lemma analyzeArbitrage_complete_inv
    (prices : list PriceData) (tradeAmountEth gasCostUsd : float)
    (now : string) (a : Analysis) :
  analyzeArbitrage prices tradeAmountEth gasCostUsd now = Complete a ->
  exists (first second : PriceData) (rest : list PriceData)
         (bestBuy bestSell : PriceData),
    filter isValidPrice prices = first :: second :: rest
    /\ findBest first (first :: second :: rest) = (bestBuy, bestSell)
    /\ dex bestBuy <> dex bestSell
    /\ a_direction a
       = (let d := determineArbitrageDirection bestBuy bestSell in
          {| r_buyFrom := buyFrom d; r_buyPrice := buyPrice d;
             r_sellTo := sellTo d; r_sellPrice := sellPrice d |})
    /\ percent (a_priceDifference a)
       = priceDiffPercent (determineArbitrageDirection bestBuy bestSell)
    /\ a_hasOpportunity a
       = Js.ge (percent (a_priceDifference a)) Config.MIN_PRICE_DIFF_PERCENT
    /\ a_recommendation a
       = getRecommendation
           (calculateNetProfit (pa_grossProfitUsd (a_profitAnalysis a))
              gasCostUsd)
           (percent (a_priceDifference a))
    /\ a_isProfitableAfterGas a
       = isProfitable
           (calculateNetProfit (pa_grossProfitUsd (a_profitAnalysis a))
              gasCostUsd)
    /\ List.length (a_allPrices a)
       = List.length (filter isValidPrice prices).
Proof.
  unfold analyzeArbitrage. intros H.
  destruct (filter isValidPrice prices) as [|first [|second rest]];
    try discriminate.
  destruct (findBest first (first :: second :: rest)) as [bb bs] eqn:Hbest.
  destruct (String.eqb (dex bb) (dex bs)) eqn:Hdex; [ discriminate | ].
  injection H as <-.
  exists first, second, rest, bb, bs.
  split; [ reflexivity | ]. split; [ exact Hbest | ].
  split; [ apply String.eqb_neq; exact Hdex | ].
  cbn [a_direction a_priceDifference percent a_hasOpportunity
         a_recommendation a_isProfitableAfterGas a_profitAnalysis
         pa_grossProfitUsd a_allPrices].
  repeat split. simpl. rewrite ?length_map. reflexivity.
Qed.

(** The direction reported by a complete analysis. *)
Lemma complete_analysis_facts
    (prices : list PriceData) (tradeAmountEth gasCostUsd : float)
    (now : string) (a : Analysis) :
  analyzeArbitrage prices tradeAmountEth gasCostUsd now = Complete a ->
  r_buyFrom (a_direction a) <> r_sellTo (a_direction a)
  /\ (r_buyPrice (a_direction a) <? r_sellPrice (a_direction a)) = true
  /\ (exists buy sell : PriceData,
         In buy (filter isValidPrice prices)
         /\ In sell (filter isValidPrice prices)
         /\ r_buyFrom (a_direction a) = dex buy
         /\ r_buyPrice (a_direction a) = priceOf buy
         /\ r_sellTo (a_direction a) = dex sell
         /\ r_sellPrice (a_direction a) = priceOf sell)
  /\ (forall p : PriceData,
         In p (filter isValidPrice prices) ->
         (priceOf p <? r_buyPrice (a_direction a)) = false
         /\ (r_sellPrice (a_direction a) <? priceOf p) = false).
Proof.
  intros H.
  destruct (analyzeArbitrage_complete_inv _ _ _ _ _ H)
    as (first & second & rest & bb & bs & Hvalid & Hbest & Hdex & Hdir & _).
  destruct (scan_selects_extremes _ _ _ _ Hbest) as (Hinb & Hins & Hall & Hord).
  destruct Hord as [Heq|Hlt]; [ subst bs; contradiction | ].
  destruct (direction_of_cheaper bb bs Hlt) as (Hbf & Hbp & Hst & Hsp).
  rewrite Hdir, Hvalid.
  cbn [r_buyFrom r_buyPrice r_sellTo r_sellPrice].
  rewrite Hbf, Hbp, Hst, Hsp.
  split; [ exact Hdex | ]. split; [ exact Hlt | ].
  split; [ exists bb, bs; repeat split; assumption | exact Hall ].
Qed.

(** X3.  Whenever [analyzeArbitrage] returns a complete analysis, its
    direction names two different DEXes, each with the price of a valid
    input quote; the buy price is strictly below the sell price; and no
    valid quote is cheaper than the buy price or dearer than the sell
    price. *)
Theorem analyzeArbitrage_direction
    (prices : list PriceData) (tradeAmountEth gasCostUsd : float)
    (now : string) (a : Analysis) :
  analyzeArbitrage prices tradeAmountEth gasCostUsd now = Complete a ->
  r_buyFrom (a_direction a) <> r_sellTo (a_direction a)
  /\ (r_buyPrice (a_direction a) <? r_sellPrice (a_direction a)) = true
  /\ (exists buy sell : PriceData,
         In buy (filter isValidPrice prices)
         /\ In sell (filter isValidPrice prices)
         /\ r_buyFrom (a_direction a) = dex buy
         /\ r_buyPrice (a_direction a) = priceOf buy
         /\ r_sellTo (a_direction a) = dex sell
         /\ r_sellPrice (a_direction a) = priceOf sell)
  /\ (forall p : PriceData,
         In p (filter isValidPrice prices) ->
         (priceOf p <? r_buyPrice (a_direction a)) = false
         /\ (r_sellPrice (a_direction a) <? priceOf p) = false).
Proof.
  exact (complete_analysis_facts prices tradeAmountEth gasCostUsd now a).
Qed.

Lemma analyzeArbitrage_direction_witness :
  exists a : Analysis,
    analyzeArbitrage [quoteB; quoteA] 1 0.01 someTime = Complete a
    /\ r_buyFrom (a_direction a) <> r_sellTo (a_direction a)
    /\ (r_buyPrice (a_direction a) <? r_sellPrice (a_direction a)) = true.
Proof.
  eexists. split; [ vm_compute; reflexivity | ].
  match goal with
  | |- ?P (a_direction ?x) <> _ /\ _ =>
      destruct (analyzeArbitrage_direction [quoteB; quoteA] 1 0.01
                  someTime x) as (Hne & Hlt & _)
  end.
  - vm_compute. reflexivity.
  - split; assumption.
Defined.

(** X4.  When all valid quotes name one and the same DEX,
    [analyzeArbitrage] reports no opportunity, however far apart their
    prices are. *)
Theorem analyzeArbitrage_single_dex
    (prices : list PriceData) (tradeAmountEth gasCostUsd : float)
    (now : string) (d : string) :
  (forall p : PriceData, In p (filter isValidPrice prices) -> dex p = d) ->
  hasOpportunity (analyzeArbitrage prices tradeAmountEth gasCostUsd now)
  = false
  /\ isProfitableAfterGas
       (analyzeArbitrage prices tradeAmountEth gasCostUsd now) = None.
Proof.
  intros Hsame.
  destruct (analyzeArbitrage prices tradeAmountEth gasCostUsd now)
    as [r n|r ps|a] eqn:H; try (split; reflexivity).
  exfalso.
  destruct (complete_analysis_facts _ _ _ _ _ H)
    as (Hne & _ & (buy & sell & Hb & Hs & Hbf & _ & Hst & _) & _).
  apply Hne. rewrite Hbf, Hst, (Hsame _ Hb), (Hsame _ Hs). reflexivity.
Qed.

Lemma analyzeArbitrage_single_dex_witness :
  hasOpportunity
    (analyzeArbitrage [quote "A" 3000; quote "A" 3300] 1 0.01 someTime)
  = false.
Proof.
  apply (analyzeArbitrage_single_dex
           [quote "A" 3000; quote "A" 3300] 1 0.01 someTime "A").
  intros p Hin. vm_compute in Hin.
  destruct Hin as [<-|[<-|[]]]; reflexivity.
Defined.

Lemma isValidPrice_iff (p : PriceData) :
  isValidPrice p = true
  <-> (error p = None \/ error p = Some EmptyString)
      /\ exists v : float,
           priceToken0InToken1 p = Some v
           /\ (v =? 0) = false /\ is_nan v = false.
Proof.
  unfold isValidPrice, Js.truthyStringField, Js.truthyNumberField,
    Js.truthyNumber.
  destruct (error p) as [[|c s]|]; destruct (priceToken0InToken1 p) as [v|];
    simpl; split;
    try (intros H; discriminate H);
    try (intros [[H|H] _]; discriminate H);
    try (intros [_ (v0 & H & _)]; discriminate H).
  - intros H. apply andb_prop in H. destruct H as [H0 Hn].
    apply negb_true_iff in H0. apply negb_true_iff in Hn.
    split; [ right; reflexivity | exists v; auto ].
  - intros [_ (v0 & Hv & H0 & Hn)]. injection Hv as <-.
    rewrite H0, Hn. reflexivity.
  - intros H. apply andb_prop in H. destruct H as [H0 Hn].
    apply negb_true_iff in H0. apply negb_true_iff in Hn.
    split; [ left; reflexivity | exists v; auto ].
  - intros [_ (v0 & Hv & H0 & Hn)]. injection Hv as <-.
    rewrite H0, Hn. reflexivity.
Qed.

(** X5.  Entries that the filter rejects do not influence the analysis:
    removing an invalid entry from anywhere in the input leaves the result
    unchanged.  An entry is valid exactly when its [error] is absent or
    empty and its price is present and neither a zero nor NaN. *)
Theorem analyzeArbitrage_ignores_invalid
    (before after : list PriceData) (bad : PriceData)
    (tradeAmountEth gasCostUsd : float) (now : string) :
  isValidPrice bad = false ->
  analyzeArbitrage (before ++ bad :: after) tradeAmountEth gasCostUsd now
  = analyzeArbitrage (before ++ after) tradeAmountEth gasCostUsd now
  /\ (forall p : PriceData,
         isValidPrice p = true
         <-> (error p = None \/ error p = Some EmptyString)
             /\ exists v : float,
                  priceToken0InToken1 p = Some v
                  /\ (v =? 0) = false /\ is_nan v = false).
Proof.
  intros Hbad. split; [ | exact isValidPrice_iff ].
  unfold analyzeArbitrage.
  rewrite !filter_app. cbn [filter]. rewrite Hbad. reflexivity.
Qed.

Lemma analyzeArbitrage_ignores_invalid_witness :
  analyzeArbitrage [quoteA; quoteB_failed; quoteB] 1 0.01 someTime
  = analyzeArbitrage [quoteA; quoteB] 1 0.01 someTime.
Proof.
  apply (analyzeArbitrage_ignores_invalid [quoteA] [quoteB] quoteB_failed
           1 0.01 someTime).
  reflexivity.
Defined.

(** X6.  In a complete analysis whose percentage difference is a number
    (not NaN) the recommendation agrees with the two flags: it is the
    below-threshold text exactly when [hasOpportunity] is false, the
    profitable text exactly when both flags are true, and the gas text
    exactly when there is an opportunity that is not profitable. *)
Theorem analyzeArbitrage_recommendation
    (prices : list PriceData) (tradeAmountEth gasCostUsd : float)
    (now : string) (a : Analysis) :
  analyzeArbitrage prices tradeAmountEth gasCostUsd now = Complete a ->
  is_nan (percent (a_priceDifference a)) = false ->
  match a_recommendation a with
  | NoTradeBelowThreshold => a_hasOpportunity a = false
  | NoTradeGasExceedsProfit gas gross =>
      a_hasOpportunity a = true /\ a_isProfitableAfterGas a = false
      /\ gas = pa_gasCostUsd (a_profitAnalysis a)
      /\ gross = pa_grossProfitUsd (a_profitAnalysis a)
  | ProfitableNet net =>
      a_hasOpportunity a = true /\ a_isProfitableAfterGas a = true
      /\ net = pa_netProfitUsd (a_profitAnalysis a)
  end.
Proof.
  unfold analyzeArbitrage. intros H Hnan.
  destruct (filter isValidPrice prices) as [|first [|second rest]];
    try discriminate.
  destruct (findBest first (first :: second :: rest)) as [bb bs].
  destruct (String.eqb (dex bb) (dex bs)); [ discriminate | ].
  injection H as <-.
  cbn [a_recommendation a_hasOpportunity a_isProfitableAfterGas
         a_profitAnalysis pa_gasCostUsd pa_grossProfitUsd pa_netProfitUsd
         a_priceDifference percent] in *.
  unfold getRecommendation, Js.ge.
  rewrite (float_leb_negb_ltb _ Config.MIN_PRICE_DIFF_PERCENT Hnan eq_refl).
  destruct (_ <? Config.MIN_PRICE_DIFF_PERCENT); cbn [negb];
    [ reflexivity | ].
  destruct (isProfitable _) eqn:Hp; cbn [negb]; repeat split; exact Hp.
Qed.

Lemma analyzeArbitrage_recommendation_witness :
  exists a : Analysis,
    analyzeArbitrage [quoteA; quoteB] 1 0.01 someTime = Complete a
    /\ a_hasOpportunity a = true
    /\ a_isProfitableAfterGas a = false.
Proof.
  eexists. split; [ vm_compute; reflexivity | ].
  match goal with
  | |- a_hasOpportunity ?x = _ /\ _ =>
      pose proof (analyzeArbitrage_recommendation [quoteA; quoteB] 1 0.01
                    someTime x) as H
  end.
  specialize (H ltac:(vm_compute; reflexivity)
                ltac:(vm_compute; reflexivity)).
  hnf in H. destruct H as (Hopp & Hprofit & _).
  split; [ exact Hopp | exact Hprofit ].
Defined.

End ArbitrageAnalysis.

(* ===================================================================== *)
(** * Further properties of the diagnosing agent *)

Section AgentMoreFacts.

Import AIAgent AgentWorkflow ErrorHandler.

Variable toLowerCase : string -> string.

Local Abbreviation _categorizeError := (AIAgent._categorizeError toLowerCase).
Local Abbreviation analyzeError := (AIAgent.analyzeError toLowerCase).
Local Abbreviation analyzeAll := (AIAgent.analyzeAll toLowerCase).
Local Abbreviation diagnosisOf := (AgentWorkflow.diagnosisOf toLowerCase).


(** X8.  Every diagnosis [analyzeError] returns can be rendered and is
    within bounds: its root cause is present and lists four possible
    reasons, it has one or two recommendations and at most one suggested
    code change (each requiring authorization), its severity is the one
    of its category and lies between 2 and 5, being 5 exactly for CONFIG
    and LOGIC. *)
Theorem analyzeError_diagnosis_shape
    (a : Agent) (e : JsError) (c : Context) (now : string) :
  let d := fst (analyzeError a e c now) in
  (exists rc : RootCause,
      rootCause d = Some rc /\ List.length (possibleReasons rc) = 4%nat)
  /\ (1 <= List.length (recommendations d) <= 2)%nat
  /\ (List.length (codeChanges d) <= 1)%nat
  /\ Forall (fun change => cc_requiresAuth change = true) (codeChanges d)
  /\ severity d = severityMap (category d)
  /\ (2 <= severity d <= 5)%nat
  /\ (severity d = 5%nat <-> category d = CONFIG \/ category d = LOGIC)
  /\ requiresAuth d = requireAuthForChanges (config a)
  /\ timestamp d = now.
Proof.
  cbv zeta. unfold analyzeError.
  cbn [fst rootCause recommendations codeChanges severity category
         requiresAuth timestamp].
  unfold _generateRecommendations, _generateCodeChanges, _assessSeverity.
  cbn [category].
  destruct (_categorizeError e c);
    (split; [ eexists; split; reflexivity | ]);
    cbn; repeat split; try lia; try discriminate;
    try (intros [H|H]; discriminate H); auto; repeat constructor.
Qed.

(** One call of [analyzeError], seen on the two arrays it appends to. *)
Lemma analyzeError_history
    (a : Agent) (e : JsError) (c : Context) (now : string) :
  (List.length (errorHistory a) <= errorHistoryLimit (config a))%nat ->
  errorHistory (snd (analyzeError a e c now))
  = lastN (errorHistoryLimit (config a))
      (errorHistory a ++ [historyEntryOf (fst (analyzeError a e c now))])
  /\ diagnosticResults (snd (analyzeError a e c now))
     = diagnosticResults a ++ [fst (analyzeError a e c now)].
Proof.
  intros Hlen. split; [ | reflexivity ].
  unfold analyzeError.
  cbn [snd fst pushDiagnosis incrSuccessfulDiagnoses _recordError
         errorHistory config incrTotalAnalyses timestamp category severity].
  unfold lastN, historyEntryOf. cbn [timestamp category severity].
  rewrite length_app. cbn [List.length].
  destruct (Nat.ltb_spec (errorHistoryLimit (config a))
              (List.length (errorHistory a) + 1)) as [Hlt|Hge].
  - replace (List.length (errorHistory a) + 1 - errorHistoryLimit (config a))%nat
      with 1%nat by lia.
    reflexivity.
  - replace (List.length (errorHistory a) + 1 - errorHistoryLimit (config a))%nat
      with 0%nat by lia.
    reflexivity.
Qed.

Lemma length_lastN {T : Type} (n : nat) (l : list T) :
  List.length (lastN n l) = Nat.min n (List.length l).
Proof. unfold lastN. rewrite length_skipn. lia. Qed.

Lemma lastN_app_lastN {T : Type} (n : nat) (l m : list T) :
  lastN n (lastN n l ++ m) = lastN n (l ++ m).
Proof.
  unfold lastN.
  destruct (Nat.le_gt_cases (List.length l) n) as [Hle|Hgt].
  - replace (List.length l - n)%nat with 0%nat by lia. reflexivity.
  - rewrite !length_app, length_skipn.
    rewrite (skipn_app (List.length l + List.length m - n)).
    rewrite (skipn_app (List.length l - (List.length l - n)
                        + List.length m - n)).
    rewrite skipn_skipn, length_skipn.
    f_equal; f_equal; lia.
Qed.

Lemma analyzeAll_history (cfg : AgentConfig)
    (calls : list (JsError * Context * string)) :
  forall a : Agent,
    config a = cfg ->
    (List.length (errorHistory a) <= errorHistoryLimit cfg)%nat ->
    errorHistory (analyzeAll a calls)
    = lastN (errorHistoryLimit cfg)
        (errorHistory a
           ++ map (fun call => historyEntryOf (diagnosisOf cfg call)) calls)
    /\ diagnosticResults (analyzeAll a calls)
       = diagnosticResults a ++ map (diagnosisOf cfg) calls.
Proof.
  induction calls as [|[[e c] now] calls IH]; intros a Hcfg Hlen.
  - cbn [analyzeAll fold_left map]. rewrite !app_nil_r.
    split; [ | reflexivity ].
    unfold lastN. replace (_ - _)%nat with 0%nat by lia. reflexivity.
  - unfold analyzeAll in *. cbn [fold_left map].
    destruct (analyzeError_history a e c now) as [Hh Hd];
      [ rewrite Hcfg; exact Hlen | ].
    assert (Hdiag : fst (analyzeError a e c now)
                    = diagnosisOf cfg (e, c, now)).
    { unfold diagnosisOf. apply analyzeError_diagnosis_config.
      rewrite Hcfg. reflexivity. }
    destruct (IH (snd (analyzeError a e c now))) as [IHh IHd].
    + rewrite analyzeError_config. exact Hcfg.
    + rewrite Hh, length_lastN, Hcfg. lia.
    + rewrite IHh, IHd, Hh, Hd, Hdiag, Hcfg.
      rewrite lastN_app_lastN, <- !app_assoc. split; reflexivity.
Qed.

(** X9.  After any sequence of [analyzeError] calls on a new agent the
    error history holds the entries of the latest [errorHistoryLimit]
    calls, in order, and nothing else (so its length is the smaller of the
    limit and the number of calls), whereas [diagnosticResults] holds the
    diagnosis of every call. *)
Theorem analyzeAll_history_window (cfg : AgentConfig)
    (calls : list (JsError * Context * string)) :
  errorHistory (analyzeAll (newAgent cfg) calls)
  = lastN (errorHistoryLimit cfg)
      (map (fun call => historyEntryOf (diagnosisOf cfg call)) calls)
  /\ List.length (errorHistory (analyzeAll (newAgent cfg) calls))
     = Nat.min (errorHistoryLimit cfg) (List.length calls)
  /\ diagnosticResults (analyzeAll (newAgent cfg) calls)
     = map (diagnosisOf cfg) calls.
Proof.
  destruct (analyzeAll_history cfg calls (newAgent cfg) eq_refl) as [Hh Hd].
  - cbn. lia.
  - cbn [newAgent errorHistory diagnosticResults app] in Hh, Hd.
    rewrite Hh, Hd, length_lastN, length_map. repeat split.
Qed.

End AgentMoreFacts.

Section AgentMoreExamples.

Import AIAgent ErrorHandler Examples.


End AgentMoreExamples.

Section AgentWorkflowFacts.

Import AIAgent AgentWorkflow.

Variable toLowerCase : string -> string.

Local Abbreviation callAgent := (AgentWorkflow.callAgent toLowerCase).
Local Abbreviation callAll := (AgentWorkflow.callAll toLowerCase).

Lemma countCategory_fold (history : list HistoryEntry) :
  forall p : ErrorPatterns,
    let q :=
      fold_left
        (fun (patterns : ErrorPatterns) (error : HistoryEntry) =>
           countCategory patterns (h_category error))
        history p in
    networkErrors q = (networkErrors p + countOf NETWORK history)%nat
    /\ contractErrors q = (contractErrors p + countOf CONTRACT history)%nat
    /\ priceErrors q = (priceErrors p + countOf PRICE history)%nat
    /\ liquidityErrors q
       = (liquidityErrors p + countOf LIQUIDITY history)%nat
    /\ gasErrors q = (gasErrors p + countOf GAS history)%nat
    /\ slippageErrors q = (slippageErrors p + countOf SLIPPAGE history)%nat
    /\ configErrors q = (configErrors p + countOf CONFIG history)%nat
    /\ logicErrors q = (logicErrors p + countOf LOGIC history)%nat
    /\ lowProfitTrades q = lowProfitTrades p
    /\ totalErrors q = totalErrors p.
Proof.
  induction history as [|entry history IH]; intros p; cbv zeta.
  - unfold countOf. cbn. repeat split; lia.
  - cbn [fold_left].
    specialize (IH (countCategory p (h_category entry))). cbv zeta in IH.
    destruct IH as (H1 & H2 & H3 & H4 & H5 & H6 & H7 & H8 & H9 & H10).
    rewrite H1, H2, H3, H4, H5, H6, H7, H8, H9, H10.
    unfold countOf. cbn [filter].
    destruct (h_category entry); cbn; repeat split; lia.
Qed.

Lemma countOf_partition (history : list HistoryEntry) :
  (countOf NETWORK history + countOf CONTRACT history
   + countOf PRICE history + countOf LIQUIDITY history
   + countOf GAS history + countOf SLIPPAGE history
   + countOf CONFIG history + countOf LOGIC history
   + countOf UNKNOWN history)%nat
  = List.length history.
Proof.
  induction history as [|entry history IH]; [ reflexivity | ].
  unfold countOf in *. cbn [filter List.length].
  destruct (h_category entry); cbn; lia.
Qed.

(** X10.  [_analyzeErrorPatterns] counts, per category, the entries of the
    error history with that category; [totalErrors] is the length of the
    history; entries classified UNKNOWN are counted in [totalErrors] but
    in no category counter, so the eight counters add up to [totalErrors]
    minus the number of UNKNOWN entries; [lowProfitTrades] is always 0. *)
Theorem analyzeErrorPatterns_counts (a : Agent) :
  let p := _analyzeErrorPatterns a in
  networkErrors p = countOf NETWORK (errorHistory a)
  /\ contractErrors p = countOf CONTRACT (errorHistory a)
  /\ priceErrors p = countOf PRICE (errorHistory a)
  /\ liquidityErrors p = countOf LIQUIDITY (errorHistory a)
  /\ gasErrors p = countOf GAS (errorHistory a)
  /\ slippageErrors p = countOf SLIPPAGE (errorHistory a)
  /\ configErrors p = countOf CONFIG (errorHistory a)
  /\ logicErrors p = countOf LOGIC (errorHistory a)
  /\ lowProfitTrades p = 0%nat
  /\ totalErrors p = List.length (errorHistory a)
  /\ (networkErrors p + contractErrors p + priceErrors p
      + liquidityErrors p + gasErrors p + slippageErrors p
      + configErrors p + logicErrors p
      + countOf UNKNOWN (errorHistory a))%nat = totalErrors p.
Proof.
  cbv zeta. unfold _analyzeErrorPatterns.
  match goal with
  | |- context [fold_left ?f ?l ?p0] =>
      pose proof (countCategory_fold l p0) as H
  end.
  cbv zeta in H.
  destruct H as (H1 & H2 & H3 & H4 & H5 & H6 & H7 & H8 & H9 & H10).
  rewrite H1, H2, H3, H4, H5, H6, H7, H8, H9, H10.
  cbn [networkErrors contractErrors priceErrors liquidityErrors gasErrors
         slippageErrors configErrors logicErrors lowProfitTrades
         totalErrors Nat.add].
  repeat split. apply countOf_partition.
Qed.

Lemma requestAuthorization_step
    (s : Instance) (change : CodeChange)
    (authCallback : option (AuthRequest -> CallbackOutcome))
    (freshId now : string) :
  let s' := snd (requestAuthorization s change authCallback freshId now) in
  (authInvariant s -> authInvariant s')
  /\ config (core s') = config (core s)
  /\ totalAnalyses (performanceMetrics (core s'))
     = totalAnalyses (performanceMetrics (core s))
  /\ successfulDiagnoses (performanceMetrics (core s'))
     = successfulDiagnoses (performanceMetrics (core s))
  /\ errorHistory (core s') = errorHistory (core s)
  /\ diagnosticResults (core s') = diagnosticResults (core s)
  /\ (requireAuthForChanges (config (core s)) = true ->
      List.length (pendingChanges s') = S (List.length (pendingChanges s)))
  /\ (requireAuthForChanges (config (core s)) = false -> s' = s).
Proof.
  cbv zeta. unfold requestAuthorization, authInvariant.
  destruct (requireAuthForChanges (config (core s))); cbn [negb].
  - assert (Hgrow :
              forall l (x : AuthRequest) (m : list AuthRequest),
                incl m l -> incl m (l ++ [x])).
    { intros l x m Hincl y Hy. apply in_or_app. left. apply Hincl, Hy. }
    destruct authCallback as [callback|];
      [ destruct (callback _) as [[|]|error] | ];
      cbn [snd core pendingChanges authorizedChanges incrAccepted
             incrRejected withMetrics performanceMetrics config
             errorHistory diagnosticResults totalAnalyses
             successfulDiagnoses recommendationsAccepted
             recommendationsRejected];
      rewrite ?length_app; cbn [List.length];
      (split; [ intros (Hacc & Hsum & Hincl) | ]);
      repeat split; try lia; try (intros Hreq; discriminate Hreq);
      try (apply Hgrow; exact Hincl).
    apply incl_app; [ apply Hgrow; exact Hincl | ].
    intros y [<-|[]]. apply in_or_app. right. left. reflexivity.
  - cbn [snd]. split; [ tauto | ]. repeat split; auto.
    intros Hreq. discriminate Hreq.
Qed.

Lemma requestAll_steps (calls : list AuthCall) :
  forall s : Instance,
    authInvariant s ->
    authInvariant (requestAll s calls)
    /\ config (core (requestAll s calls)) = config (core s)
    /\ totalAnalyses (performanceMetrics (core (requestAll s calls)))
       = totalAnalyses (performanceMetrics (core s))
    /\ successfulDiagnoses (performanceMetrics (core (requestAll s calls)))
       = successfulDiagnoses (performanceMetrics (core s))
    /\ errorHistory (core (requestAll s calls)) = errorHistory (core s)
    /\ diagnosticResults (core (requestAll s calls))
       = diagnosticResults (core s)
    /\ (requireAuthForChanges (config (core s)) = true ->
        List.length (pendingChanges (requestAll s calls))
        = (List.length (pendingChanges s) + List.length calls)%nat)
    /\ (requireAuthForChanges (config (core s)) = false ->
        requestAll s calls = s).
Proof.
  induction calls as [|c calls IH]; intros s Hinv.
  - cbn. split; [ exact Hinv | ]. repeat split; auto; lia.
  - unfold requestAll in *. cbn [fold_left List.length].
    pose proof (requestAuthorization_step s (ac_change c) (ac_callback c)
                  (ac_freshId c) (ac_now c)) as Hstep.
    cbv zeta in Hstep.
    destruct Hstep as (Hi & Hc & Ht & Hs & Hh & Hd & Hp & Hn).
    destruct (IH _ (Hi Hinv)) as (Hi' & Hc' & Ht' & Hs' & Hh' & Hd' & Hp' & Hn').
    rewrite Hc in Hc', Hp', Hn'.
    split; [ exact Hi' | ]. split; [ congruence | ].
    split; [ congruence | ]. split; [ congruence | ].
    split; [ congruence | ]. split; [ congruence | ].
    split.
    + intros Hreq. rewrite (Hp' Hreq), (Hp Hreq). lia.
    + intros Hreq. rewrite (Hn' Hreq), (Hn Hreq). reflexivity.
Qed.

(** X11.  After any sequence of [requestAuthorization] calls on a new
    agent: the accepted counter equals the number of authorized changes;
    accepted plus rejected never exceeds the number of pending requests;
    every authorized request is still in the pending queue; the analysis
    counters and histories are untouched.  With authorization required
    every call queues exactly one request, whatever the callback does;
    with authorization off the agent is not changed at all. *)
Theorem requestAll_invariants (cfg : AgentConfig) (calls : list AuthCall) :
  let s := requestAll (newInstance cfg) calls in
  recommendationsAccepted (performanceMetrics (core s))
  = List.length (authorizedChanges s)
  /\ (recommendationsAccepted (performanceMetrics (core s))
      + recommendationsRejected (performanceMetrics (core s))
      <= List.length (pendingChanges s))%nat
  /\ incl (authorizedChanges s) (pendingChanges s)
  /\ totalAnalyses (performanceMetrics (core s)) = 0%nat
  /\ successfulDiagnoses (performanceMetrics (core s)) = 0%nat
  /\ errorHistory (core s) = []
  /\ diagnosticResults (core s) = []
  /\ (requireAuthForChanges cfg = true ->
      List.length (pendingChanges s) = List.length calls)
  /\ (requireAuthForChanges cfg = false -> s = newInstance cfg).
Proof.
  cbv zeta.
  destruct (requestAll_steps calls (newInstance cfg))
    as ((Hacc & Hsum & Hincl) & _ & Ht & Hs & Hh & Hd & Hp & Hn).
  - unfold authInvariant. cbn. repeat split; auto. intros x [].
  - repeat split; auto.
Qed.

Lemma reset_callAgent (s : Instance) (c : AgentCall) :
  AgentWorkflow.reset (callAgent s c) = AgentWorkflow.reset s.
Proof.
  destruct c as [error context now|call]; cbn [callAgent].
  - reflexivity.
  - pose proof (requestAuthorization_step s (ac_change call)
                  (ac_callback call) (ac_freshId call) (ac_now call))
      as Hstep.
    cbv zeta in Hstep. destruct Hstep as (_ & Hcfg & _).
    unfold AgentWorkflow.reset, resetAgent. rewrite Hcfg. reflexivity.
Qed.

(** X17.  [reset] undoes whatever the agent has been through: after any
    interleaving of [analyzeError] and [requestAuthorization] calls on an
    agent constructed with a configuration, [reset] gives back the state
    of a newly constructed agent with that configuration (neither the
    calls nor [reset] touch the configuration); and [reset] on an already
    reset agent changes nothing. *)
Theorem reset_after_calls (cfg : AgentConfig) (calls : list AgentCall) :
  AgentWorkflow.reset (callAll (newInstance cfg) calls) = newInstance cfg
  /\ config (core (callAll (newInstance cfg) calls)) = cfg
  /\ AgentWorkflow.reset
       (AgentWorkflow.reset (callAll (newInstance cfg) calls))
     = AgentWorkflow.reset (callAll (newInstance cfg) calls).
Proof.
  assert (Hreset :
            forall (l : list AgentCall) (s : Instance),
              AgentWorkflow.reset (callAll s l) = AgentWorkflow.reset s).
  { induction l as [|c l IH]; intros s; [ reflexivity | ].
    unfold callAll in *. cbn [fold_left].
    rewrite IH. apply reset_callAgent. }
  pose proof (Hreset calls (newInstance cfg)) as H.
  split; [ exact H | ].
  split; [ | rewrite H; reflexivity ].
  apply (f_equal (fun s => config (core s))) in H. exact H.
Qed.

End AgentWorkflowFacts.

(* ===================================================================== *)
(** * Further properties of the retrying wrapper *)

Section RetryRunFacts.

Import AIAgent ErrorHandler RetryRuns.
Local Open Scope Z_scope.

Variable toLowerCase : string -> string.
Variable A : Type.
Variable fn : nat -> FnResult A.
Variables logClock diagClock : nat -> string.
Variable context : Context.

Local Abbreviation _categorizeError := (AIAgent._categorizeError toLowerCase).
Local Abbreviation analyzeError := (AIAgent.analyzeError toLowerCase).
Local Abbreviation loop :=
  (retryLoop toLowerCase A fn logClock diagClock context).
Local Abbreviation wrap :=
  (wrapAsync toLowerCase A fn logClock diagClock context).
Local Abbreviation next :=
  (afterFailure toLowerCase logClock diagClock context).
Local Abbreviation givesUp := (RetryRuns.givesUp toLowerCase).

Lemma guard_budget (cfg : HandlerConfig) (r : nat) :
  (Z.of_nat r <=? maxRetries cfg) = (r <? budget cfg)%nat.
Proof.
  unfold budget.
  destruct (Z.leb_spec (Z.of_nat r) (maxRetries cfg));
    destruct (Nat.ltb_spec r (Z.to_nat (maxRetries cfg + 1)));
    try reflexivity; lia.
Qed.

Lemma afterFailure_facts (h : Handler) (e : JsError) (r : nat) :
  h_config (next h e r) = h_config h
  /\ List.length (errorLog (next h e r)) = S (List.length (errorLog h))
  /\ config (aiAgent (next h e r)) = config (aiAgent h)
  /\ (useAIAgent (h_config h) = false -> aiAgent (next h e r) = aiAgent h)
  /\ (useAIAgent (h_config h) = true ->
      totalAnalyses (performanceMetrics (aiAgent (next h e r)))
      = S (totalAnalyses (performanceMetrics (aiAgent h)))).
Proof.
  unfold afterFailure.
  destruct (useAIAgent (h_config h));
    cbn [_logError setAgent h_config errorLog aiAgent];
    rewrite ?length_app; cbn [List.length];
    repeat split; try lia; try reflexivity;
    intros Hai; discriminate Hai.
Qed.

(** One iteration of the loop, with the [catch] block folded into
    [afterFailure] and [givesUp]. *)
Lemma retryLoop_step (n : nat) (h : Handler) (last : option JsError)
    (r : nat) (trace : list Event) :
  loop (S n) h last r trace
  = if (r <? budget (h_config h))%nat then
      match fn r with
      | Resolved value => Some (Returned value, h, trace ++ [EvCall])
      | RejectedNullish => Some (ThrewTypeError, h, trace ++ [EvCall])
      | Rejected e =>
          if givesUp context h e r
          then Some (Threw (_enhanceError (next h e r) e context (S r)),
                     next h e r, trace ++ [EvCall])
          else
            loop n (next h e r) (Some e) (S r)
              ((trace ++ [EvCall])
                 ++ (if (S r <? budget (h_config h))%nat
                     then [EvSleep (_calculateDelay (h_config h) (S r))]
                     else []))
      end
    else Some (exhausted A context h last r, h, trace).
Proof.
  cbn [retryLoop]. rewrite guard_budget.
  destruct (r <? budget (h_config h))%nat; [ | reflexivity ].
  destruct (fn r) as [v|e|]; [ reflexivity | | reflexivity ].
  unfold RetryRuns.givesUp, afterFailure.
  cbn [_logError h_config aiAgent setAgent].
  destruct (useAIAgent (h_config h)); cbn [andb].
  - destruct (analyzeError (aiAgent h) e (analysisContext context (S r))
                (diagClock r)) as [d ag] eqn:Han.
    assert (Hd : category d
                 = _categorizeError e (analysisContext context (S r))).
    { replace d with (fst (analyzeError (aiAgent h) e
                             (analysisContext context (S r)) (diagClock r)))
        by (rewrite Han; reflexivity).
      apply analyzeError_category. }
    rewrite Hd. cbn [snd].
    destruct (_isRetryable _); cbn [negb exhausted]; [ | reflexivity ].
    rewrite applyImmediateFixes_id.
    cbn [setAgent h_config _logError]. rewrite guard_budget.
    destruct (S r <? budget (h_config h))%nat; rewrite ?app_nil_r;
      reflexivity.
  - cbn [setAgent h_config _logError]. rewrite guard_budget.
    destruct (S r <? budget (h_config h))%nat; rewrite ?app_nil_r;
      reflexivity.
Qed.

Lemma retryLoop_zero (h : Handler) (last : option JsError) (r : nat)
    (trace : list Event) :
  loop 0%nat h last r trace
  = if (r <? budget (h_config h))%nat then None
    else Some (exhausted A context h last r, h, trace).
Proof. cbn [retryLoop]. rewrite guard_budget. reflexivity. Qed.

Lemma attempts_failedAttempts (cfg : HandlerConfig) (l : list nat) :
  attempts (flat_map (failedAttempt cfg) l) = List.length l.
Proof.
  induction l as [|k l IH]; [ reflexivity | ].
  unfold attempts in *. cbn [flat_map failedAttempt app filter List.length].
  rewrite IH. reflexivity.
Qed.

Lemma attempts_app (t u : list Event) :
  attempts (t ++ u) = (attempts t + attempts u)%nat.
Proof. unfold attempts. rewrite filter_app, length_app. reflexivity. Qed.

Lemma attempts_runTrace (cfg : HandlerConfig) (r a : nat) :
  attempts (runTrace cfg r a) = a.
Proof.
  destruct a as [|m]; [ reflexivity | ].
  cbn [runTrace]. rewrite attempts_app, attempts_failedAttempts, length_seq.
  cbn. lia.
Qed.

Lemma delays_runTrace (cfg : HandlerConfig) (r a : nat) :
  delays (runTrace cfg r a)
  = map (_calculateDelay cfg) (seq (S r) (pred a)).
Proof.
  destruct a as [|m]; [ reflexivity | ].
  cbn [runTrace pred]. generalize (S r). clear r.
  induction m as [|m IH]; intros k; [ reflexivity | ].
  cbn [seq flat_map failedAttempt app delays map]. rewrite IH.
  reflexivity.
Qed.

Lemma runTrace_step (cfg : HandlerConfig) (r a : nat) :
  (1 <= a)%nat ->
  EvCall :: EvSleep (_calculateDelay cfg (S r)) :: runTrace cfg (S r) a
  = runTrace cfg r (S a).
Proof.
  intros Ha. destruct a as [|m]; [ lia | ]. reflexivity.
Qed.

Local Abbreviation runPost := (finishedRun fn context).

Lemma run_exit (h : Handler) (last : option JsError) (r : nat) :
  (r <= budget (h_config h))%nat ->
  (budget (h_config h) <= r)%nat ->
  runPost h last r (exhausted A context h last r) h (@nil Event).
Proof.
  intros Hle Hge. unfold finishedRun.
  assert (Hf : failures (exhausted A context h last r) [] = 0%nat)
    by (unfold failures, exhausted; destruct last; reflexivity).
  rewrite Hf, !Nat.add_0_r.
  change (attempts []) with 0%nat.
  split; [ reflexivity | ].
  split; [ cbn; lia | ].
  split; [ intros; lia | ].
  split; [ reflexivity | ].
  split; [ reflexivity | ].
  split; [ reflexivity | ].
  split; [ reflexivity | ].
  split; [ reflexivity | ].
  split; [ intros i Hi; cbn in Hi; lia | ].
  unfold exhausted.
  destruct last as [e|];
    cbn [_enhanceError ee_retryCount ee_context ee_originalError].
  - split; [ reflexivity | ]. split; [ reflexivity | ].
    split; [ reflexivity | intros; lia ].
  - left. split; reflexivity.
Qed.

(** However the invocations settle, a finished run satisfies
    [finishedRun]. *)
Lemma retryLoop_run (n : nat) :
  forall (h : Handler) (last : option JsError) (r : nat)
         (trace : list Event) (out : Outcome A) (h' : Handler)
         (trace' : list Event),
    loop n h last r trace = Some (out, h', trace') ->
    (r <= budget (h_config h))%nat ->
    exists suffix : list Event,
      trace' = trace ++ suffix /\ runPost h last r out h' suffix.
Proof.
  induction n as [|n IH]; intros h last r trace out h' trace' Hrun Hr.
  - rewrite retryLoop_zero in Hrun.
    destruct (Nat.ltb_spec r (budget (h_config h))); [ discriminate | ].
    injection Hrun as <- <- <-. exists [].
    split; [ symmetry; apply app_nil_r | apply run_exit; assumption ].
  - rewrite retryLoop_step in Hrun.
    destruct (Nat.ltb_spec r (budget (h_config h))) as [Hlt|Hge].
    2:{ injection Hrun as <- <- <-. exists [].
        split; [ symmetry; apply app_nil_r | apply run_exit; assumption ]. }
    destruct (fn r) as [v|e|] eqn:Hfn.
    + (* the invocation resolves *)
      injection Hrun as <- <- <-. exists [EvCall].
      split; [ reflexivity | ].
      unfold finishedRun, failures.
      change (attempts [EvCall]) with 1%nat. cbn [pred].
      rewrite !Nat.add_0_r.
      split; [ reflexivity | ]. split; [ lia | ].
      split; [ intros; lia | ]. split; [ reflexivity | ].
      split; [ reflexivity | ]. split; [ reflexivity | ].
      split; [ reflexivity | ]. split; [ reflexivity | ].
      split; [ intros i Hi; lia | ].
      split; [ lia | exact Hfn ].
    + (* it rejects with an error *)
      destruct (afterFailure_facts h e r)
        as (Hcfg & Hlog & Hacfg & Hoff & Hon).
      destruct (givesUp context h e r).
      * injection Hrun as <- <- <-. exists [EvCall].
        split; [ reflexivity | ].
        unfold finishedRun, failures.
        change (attempts [EvCall]) with 1%nat. cbn [pred].
        cbn [_enhanceError ee_retryCount ee_context ee_originalError].
        rewrite !Nat.add_0_r.
        split; [ exact Hcfg | ]. split; [ lia | ].
        split; [ intros; lia | ]. split; [ reflexivity | ].
        split; [ lia | ].
        split; [ exact Hacfg | ]. split; [ exact Hoff | ].
        split; [ intros Hai; rewrite (Hon Hai); lia | ].
        split; [ intros i Hi; lia | ].
        split; [ lia | ]. split; [ reflexivity | ].
        split; [ intros Hcontra; discriminate Hcontra | ].
        intros _. exact Hfn.
      * apply IH in Hrun; [ | rewrite Hcfg; lia ].
        unfold finishedRun in *.
        destruct Hrun as (suffix & Htr & Hc & Hatt & Hone & Hshape
                          & Hlen & Hac & Hoff' & Hon' & Hearlier & Hout).
        rewrite Hcfg in *.
        exists (EvCall ::
                  (if (S r <? budget (h_config h))%nat
                   then [EvSleep (_calculateDelay (h_config h) (S r))]
                   else []) ++ suffix).
        assert (Hatt' :
                  attempts
                    (EvCall ::
                       (if (S r <? budget (h_config h))%nat
                        then [EvSleep (_calculateDelay (h_config h) (S r))]
                        else []) ++ suffix)
                  = S (attempts suffix)).
        { unfold attempts.
          destruct (S r <? budget (h_config h))%nat; reflexivity. }
        assert (Hfail :
                  failures out
                    (EvCall ::
                       (if (S r <? budget (h_config h))%nat
                        then [EvSleep (_calculateDelay (h_config h) (S r))]
                        else []) ++ suffix)
                  = S (failures out suffix)).
        { unfold failures. rewrite Hatt'.
          destruct out as [v|ee|]; try reflexivity; cbn [pred].
          - destruct Hout as [Hpos _]. lia.
          - destruct Hout as [[Hcontra _]|[Hpos _]];
              [ discriminate Hcontra | lia ]. }
        rewrite Hatt', Hfail. cbn [pred].
        split.
        { rewrite Htr, <- !app_assoc. reflexivity. }
        split; [ exact Hc | ].
        split; [ lia | ].
        split; [ intros; lia | ].
        split.
        { destruct (Nat.ltb_spec (S r) (budget (h_config h))) as [Hlt'|Hge'].
          - cbn [app]. rewrite Hshape at 1.
            apply runTrace_step. apply Hone. exact Hlt'.
          - assert (Hzero : attempts suffix = 0%nat) by lia.
            rewrite Hshape, Hzero. reflexivity. }
        split; [ lia | ].
        split; [ congruence | ].
        split; [ intros Hai; rewrite (Hoff' Hai); exact (Hoff Hai) | ].
        split; [ intros Hai; rewrite (Hon' Hai), (Hon Hai); lia | ].
        split.
        { intros i Hi. destruct i as [|i].
          - exists e. rewrite Nat.add_0_r. exact Hfn.
          - destruct (Hearlier i) as (e' & He'); [ lia | ].
            exists e'. rewrite <- He'. f_equal. lia. }
        assert (Hidx : (1 <= attempts suffix)%nat ->
                       (r + attempts suffix)%nat
                       = (S r + pred (attempts suffix))%nat) by lia.
        destruct out as [v|ee|].
        -- destruct Hout as [Hpos Hval].
           split; [ lia | ]. rewrite (Hidx Hpos). exact Hval.
        -- destruct Hout as (Hrc & Hctx & Hnone & Hsome).
           split; [ lia | ]. split; [ exact Hctx | ].
           split; [ intros Hcontra; discriminate Hcontra | ].
           intros _.
           destruct (attempts suffix) as [|m] eqn:Hm.
           ++ specialize (Hnone eq_refl). injection Hnone as <-.
              rewrite Nat.add_0_r. exact Hfn.
           ++ rewrite (Hidx ltac:(lia)). apply Hsome. lia.
        -- destruct Hout as [[Hcontra _]|[Hpos Hnull]];
             [ discriminate Hcontra | ].
           right. split; [ lia | ]. rewrite (Hidx Hpos). exact Hnull.
    + (* it rejects with null or undefined *)
      injection Hrun as <- <- <-. exists [EvCall].
      split; [ reflexivity | ].
      unfold finishedRun, failures.
      change (attempts [EvCall]) with 1%nat. cbn [pred].
      rewrite !Nat.add_0_r.
      split; [ reflexivity | ]. split; [ lia | ].
      split; [ intros; lia | ]. split; [ reflexivity | ].
      split; [ reflexivity | ]. split; [ reflexivity | ].
      split; [ reflexivity | ]. split; [ reflexivity | ].
      split; [ intros i Hi; lia | ].
      right. split; [ lia | exact Hfn ].
Qed.

(** X12.  Whether the invocations of the wrapped function resolve,
    reject with an error, or reject with [null] or [undefined], one call
    of the wrapper settles, after [a] invocations with
    [a <= maxRetries + 1] (and [a >= 1] unless [maxRetries] is negative).
    What is observed is invocation, timer, invocation, ...,
    invocation: every invocation but the last is followed by exactly one
    timer, the n-th being [_calculateDelay n] ([retryDelayMs] itself when
    exponential backoff is off).  Every invocation before the last
    rejected with an error; the last one decides how the wrapper settles:
    it returns the value the last invocation resolved with; or it throws
    the enhanced error made from the error the last invocation rejected
    with, carrying [a] as [retryCount] and the context; or a [TypeError]
    escapes, which happens when nothing was invoked ([maxRetries] is
    negative) and when the last invocation rejected with [null] or
    [undefined].  The handler's configuration is unchanged; the error log
    has grown by one entry per logged failure (every invocation that
    rejected with an error), and the agent has analysed each of those
    when it is on and is untouched when it is off. *)
Theorem wrapAsync_run (h : Handler) :
  exists (out : Outcome A) (h' : Handler) (trace : list Event) (a : nat),
    wrap h = Some (out, h', trace)
    /\ (a <= Z.to_nat (maxRetries (h_config h) + 1))%nat
    /\ (0 <= maxRetries (h_config h) -> (1 <= a)%nat)
    /\ trace = runTrace (h_config h) 0 a
    /\ attempts trace = a
    /\ delays trace
       = map (_calculateDelay (h_config h)) (seq 1 (pred a))
    /\ (exponentialBackoff (h_config h) = false ->
        delays trace = repeat (retryDelayMs (h_config h)) (pred a))
    /\ (forall i : nat,
           (i < pred a)%nat -> exists e : JsError, fn i = Rejected e)
    /\ h_config h' = h_config h
    /\ List.length (errorLog h')
       = (List.length (errorLog h) + failures out trace)%nat
    /\ (useAIAgent (h_config h) = false -> aiAgent h' = aiAgent h)
    /\ (useAIAgent (h_config h) = true ->
        totalAnalyses (performanceMetrics (aiAgent h'))
        = (totalAnalyses (performanceMetrics (aiAgent h))
           + failures out trace)%nat)
    /\ match out with
       | Returned value =>
           (1 <= a)%nat /\ fn (pred a) = Resolved value
           /\ failures out trace = pred a
       | Threw ee =>
           (1 <= a)%nat /\ fn (pred a) = Rejected (ee_originalError ee)
           /\ ee_retryCount ee = a /\ ee_context ee = context
           /\ failures out trace = a
       | ThrewTypeError =>
           (a = 0%nat /\ maxRetries (h_config h) < 0
            \/ (1 <= a)%nat /\ fn (pred a) = RejectedNullish)
           /\ failures out trace = pred a
       end.
Proof.
  destruct (wrapAsync_total toLowerCase A fn logClock diagClock context h)
    as [[[out h'] trace] Hwrap].
  exists out, h', trace, (attempts trace). split; [ exact Hwrap | ].
  unfold wrapAsync in Hwrap. fold (budget (h_config h)) in Hwrap.
  apply retryLoop_run in Hwrap; [ | lia ].
  destruct Hwrap as (suffix & Htr & Hc & Hatt & Hone & Hshape
                     & Hlen & Hac & Hoff & Hon & Hearlier & Hout).
  cbn [app] in Htr. subst suffix. fold (budget (h_config h)).
  assert (Hdel : delays trace
                 = map (_calculateDelay (h_config h))
                     (seq 1 (pred (attempts trace)))).
  { rewrite Hshape at 1. apply delays_runTrace. }
  split; [ lia | ].
  split; [ intros Hmax; apply Hone; unfold budget; lia | ].
  split; [ exact Hshape | ]. split; [ reflexivity | ].
  split; [ exact Hdel | ].
  split.
  { intros Hexp. rewrite Hdel. apply constant_delays. exact Hexp. }
  split; [ exact Hearlier | ].
  split; [ exact Hc | ]. split; [ exact Hlen | ].
  split; [ exact Hoff | ]. split; [ exact Hon | ].
  destruct out as [v|ee|]; cbn [failures].
  - destruct Hout as [Hpos Hval]. repeat split; assumption.
  - destruct Hout as (Hrc & Hctx & Hnone & Hsome).
    assert (Hpos : (1 <= attempts trace)%nat).
    { destruct (attempts trace) as [|m]; [ | lia ].
      specialize (Hnone eq_refl). discriminate Hnone. }
    split; [ exact Hpos | ]. split; [ exact (Hsome Hpos) | ].
    split; [ exact Hrc | ]. split; [ exact Hctx | reflexivity ].
  - split; [ | reflexivity ].
    destruct Hout as [[_ Hnil]|[Hpos Hnull]].
    + left. rewrite Hnil. split; [ reflexivity | ].
      destruct (Z_lt_ge_dec (maxRetries (h_config h)) 0) as [Hneg|Hnn];
        [ exact Hneg | ].
      assert (Hb : (0 < budget (h_config h))%nat) by (unfold budget; lia).
      specialize (Hone Hb). rewrite Hnil in Hone. cbn in Hone. lia.
    + right. split; assumption.
Qed.

Lemma retryLoop_succeeds (value : A) (k : nat) :
  forall (n : nat) (h : Handler) (last : option JsError) (r : nat)
         (trace : list Event),
    (forall i : nat,
        (i < k)%nat ->
        exists e : JsError,
          fn (r + i)%nat = Rejected e
          /\ (useAIAgent (h_config h) = true ->
              _isRetryable
                (_categorizeError e
                   (analysisContext context (S (r + i)))) = true)) ->
    fn (r + k)%nat = Resolved value ->
    (r + k < budget (h_config h))%nat ->
    (k < n)%nat ->
    exists h' : Handler,
      loop n h last r trace
      = Some (Returned value, h',
              trace
                ++ flat_map (failedAttempt (h_config h)) (seq (S r) k)
                ++ [EvCall]).
Proof.
  induction k as [|k IH]; intros n h last r trace Hfail Hok Hbudget Hfuel.
  - destruct n as [|n]; [ lia | ]. rewrite retryLoop_step.
    destruct (Nat.ltb_spec r (budget (h_config h))); [ | lia ].
    rewrite Nat.add_0_r in Hok. rewrite Hok. exists h. reflexivity.
  - destruct n as [|n]; [ lia | ]. rewrite retryLoop_step.
    destruct (Nat.ltb_spec r (budget (h_config h))); [ | lia ].
    destruct (Hfail 0%nat ltac:(lia)) as (e & Hfn & Hretry).
    rewrite Nat.add_0_r in Hfn, Hretry. rewrite Hfn.
    assert (Hgo : givesUp context h e r = false).
    { unfold RetryRuns.givesUp.
      destruct (useAIAgent (h_config h)); [ | reflexivity ].
      rewrite (Hretry eq_refl). reflexivity. }
    rewrite Hgo.
    destruct (Nat.ltb_spec (S r) (budget (h_config h))); [ | lia ].
    destruct (afterFailure_facts h e r) as (Hcfg & _).
    destruct (IH n (next h e r) (Some e) (S r)
                ((trace ++ [EvCall])
                   ++ [EvSleep (_calculateDelay (h_config h) (S r))]))
      as [h' Hloop].
    + intros i Hi. rewrite Hcfg.
      destruct (Hfail (S i) ltac:(lia)) as (e' & Hfn' & Hretry').
      replace (S r + i)%nat with (r + S i)%nat by lia.
      exists e'. split; assumption.
    + replace (S r + k)%nat with (r + S k)%nat by lia. exact Hok.
    + rewrite Hcfg. lia.
    + lia.
    + exists h'. rewrite Hloop, Hcfg. cbn [seq flat_map failedAttempt].
      rewrite <- !app_assoc. reflexivity.
Qed.

(** X13.  When the first [k] invocations fail with errors that are
    retried (any error with the agent off, a retryable category with the
    agent on) and the next one succeeds, with [k <= maxRetries], the
    wrapper returns that invocation's value after [k + 1] invocations and
    [k] timers, the n-th timer being [_calculateDelay n], and the error log
    has grown by [k] entries. *)
Theorem wrapAsync_succeeds_after (h : Handler) (value : A) (k : nat) :
  Z.of_nat k <= maxRetries (h_config h) ->
  (forall i : nat,
      (i < k)%nat ->
      exists e : JsError,
        fn i = Rejected e
        /\ (useAIAgent (h_config h) = true ->
            _isRetryable
              (_categorizeError e (analysisContext context (S i))) = true)) ->
  fn k = Resolved value ->
  exists (h' : Handler) (trace : list Event),
    wrap h = Some (Returned value, h', trace)
    /\ trace
       = flat_map
           (fun n : nat =>
              [EvCall; EvSleep (_calculateDelay (h_config h) n)])
           (seq 1 k)
           ++ [EvCall]
    /\ attempts trace = S k
    /\ delays trace = map (_calculateDelay (h_config h)) (seq 1 k)
    /\ List.length (errorLog h') = (List.length (errorLog h) + k)%nat
    /\ h_config h' = h_config h.
Proof.
  intros Hk Hfail Hok.
  destruct (retryLoop_succeeds value k (budget (h_config h)) h None 0%nat [])
    as [h' Hloop]; try assumption.
  - unfold budget. lia.
  - unfold budget. lia.
  - exists h'. eexists. split; [ exact Hloop | ].
    cbn [app]. split; [ reflexivity | ].
    fold (budget (h_config h)) in Hloop.
    apply retryLoop_run in Hloop; [ | lia ].
    destruct Hloop as (suffix & Htr & Hc & _ & _ & _ & Hlen & _).
    cbn [app] in Htr. subst suffix.
    change (flat_map (failedAttempt (h_config h)) (seq 1 k) ++ [EvCall])
      with (runTrace (h_config h) 0 (S k)) in *.
    cbn [failures] in Hlen. rewrite attempts_runTrace in *.
    cbn [pred] in Hlen.
    split; [ reflexivity | ]. split; [ apply delays_runTrace | ].
    split; [ exact Hlen | exact Hc ].
Qed.

(** X14.  With a negative [maxRetries] the loop body never runs: the
    wrapped function is not invoked at all, nothing is logged, and the
    wrapper throws the [TypeError] raised by [_enhanceError] reading
    [message] of [null]. *)
Theorem wrapAsync_negative_maxRetries (h : Handler) :
  maxRetries (h_config h) < 0 ->
  wrap h = Some (ThrewTypeError, h, []).
Proof.
  intros Hneg. unfold wrapAsync.
  replace (Z.to_nat (maxRetries (h_config h) + 1)) with 0%nat by lia.
  rewrite retryLoop_zero.
  destruct (Nat.ltb_spec 0 (budget (h_config h))) as [Hlt|Hge];
    [ unfold budget in Hlt; lia | reflexivity ].
Qed.

(** X18.  After a run of the wrapper, whatever the wrapped function did,
    [reset] on the handler gives the same state as [reset] before the run:
    a run changes the error log and the agent's histories and counters
    only, never a configuration.  On a handler made by the constructor,
    [reset] after the run gives back the newly constructed handler. *)
Theorem reset_after_run (h : Handler) :
  exists (out : Outcome A) (h' : Handler) (trace : list Event),
    wrap h = Some (out, h', trace)
    /\ RetryRuns.reset h' = RetryRuns.reset h
    /\ (forall cfg : HandlerConfig,
           h = newHandler cfg -> RetryRuns.reset h' = newHandler cfg).
Proof.
  destruct (wrapAsync_total toLowerCase A fn logClock diagClock context h)
    as [[[out h'] trace] Hwrap].
  exists out, h', trace. split; [ exact Hwrap | ].
  unfold wrapAsync in Hwrap. fold (budget (h_config h)) in Hwrap.
  apply retryLoop_run in Hwrap; [ | lia ].
  destruct Hwrap as (suffix & _ & Hc & _ & _ & _ & _ & Hac & _).
  assert (Hreset : RetryRuns.reset h' = RetryRuns.reset h).
  { unfold RetryRuns.reset, AgentWorkflow.resetAgent.
    rewrite Hc, Hac. reflexivity. }
  split; [ exact Hreset | ].
  intros cfg ->. rewrite Hreset. reflexivity.
Qed.

End RetryRunFacts.

Section RetryRunExamples.

Import AIAgent ErrorHandler RetryRuns Examples.
Local Open Scope Z_scope.

(** The repository's test: one network failure, then success. *)
Lemma wrapAsync_succeeds_after_witness :
  exists (h' : Handler) (trace : list Event),
    wrapAsync asciiToLowerCase nat
      (fun k : nat =>
         match k with
         | O => Rejected networkError
         | S _ => Resolved 7%nat
         end)
      fixedClock fixedClock emptyContext defaultHandler
    = Some (Returned 7%nat, h', trace)
    /\ trace = [EvCall; EvSleep 1000; EvCall]
    /\ List.length (errorLog h') = 1%nat.
Proof.
  destruct (wrapAsync_succeeds_after asciiToLowerCase nat
              (fun k : nat =>
                 match k with
                 | O => Rejected networkError
                 | S _ => Resolved 7%nat
                 end)
              fixedClock fixedClock emptyContext defaultHandler 7%nat 1%nat)
    as (h' & trace & Hwrap & Htrace & _ & _ & Hlog & _).
  - simpl. lia.
  - intros i Hi. assert (i = 0%nat) by lia. subst i.
    exists networkError. split; reflexivity.
  - reflexivity.
  - exists h', trace. split; [ exact Hwrap | ].
    split; [ rewrite Htrace; vm_compute; reflexivity | exact Hlog ].
Defined.

(** A handler configured with [maxRetries = -1]. *)
Lemma wrapAsync_negative_maxRetries_witness :
  wrapAsync asciiToLowerCase unit (alwaysFails networkError)
    fixedClock fixedClock emptyContext
    (newHandler
       {| useAIAgent := true; maxRetries := -1; retryDelayMs := 1000;
          exponentialBackoff := true; verboseLogging := false |})
  = Some (ThrewTypeError,
          newHandler
            {| useAIAgent := true; maxRetries := -1; retryDelayMs := 1000;
               exponentialBackoff := true; verboseLogging := false |},
          []).
Proof.
  apply (wrapAsync_negative_maxRetries asciiToLowerCase unit
           (alwaysFails networkError)
           fixedClock fixedClock emptyContext).
  simpl. lia.
Defined.

(** A function that fails with a network error and then rejects with
    [null]: two invocations, one timer, one log entry, and a
    [TypeError]. *)
Example wrapAsync_null_rejection :
  exists h' : Handler,
    wrapAsync asciiToLowerCase unit
      (fun k : nat =>
         match k with
         | O => Rejected networkError
         | S _ => RejectedNullish
         end)
      fixedClock fixedClock emptyContext defaultHandler
    = Some (ThrewTypeError, h', [EvCall; EvSleep 1000; EvCall])
    /\ List.length (errorLog h') = 1%nat
    /\ totalAnalyses (performanceMetrics (aiAgent h')) = 1%nat.
Proof.
  eexists. split; [ vm_compute; reflexivity | ]. split; reflexivity.
Qed.

End RetryRunExamples.

(* ===================================================================== *)
(** * Properties of the multi-DEX fetch *)

Section FetcherFacts.

Import Arbitrage PriceFetcher Fetcher Examples.
Local Open Scope float_scope.

Variable exponentiate : float -> float -> float.
Variable inheritedProperty : string -> bool.
Variable readPool : string -> PoolReads.
Variable nowMs : Z.
Variable nowIso : string.

Local Abbreviation fetch :=
  (fetchPricesMultipleDEXes exponentiate inheritedProperty readPool
     nowMs nowIso).
Local Abbreviation fetchPool :=
  (fetchPoolPrice exponentiate readPool nowMs).

Lemma POOLS_configured (pair : string) :
  POOLS pair <> None ->
  pair = "WETH/USDC"%string \/ pair = "WETH/USDbC"%string.
Proof.
  unfold POOLS. intros H.
  destruct (String.eqb_spec pair "WETH/USDC"); [ left; assumption | ].
  destruct (String.eqb_spec pair "WETH/USDbC"); [ right; assumption | ].
  contradiction.
Qed.

(** The result of the fetch for a configured pair. *)
Lemma configured_fetch_facts (pair : string) :
  POOLS pair <> None ->
  exists (uniswap aerodrome : string) (base quote : string),
    poolAddresses pair = [uniswap; aerodrome]
    /\ pair = (base ++ "/" ++ quote)%string
    /\ fetch pair
       = Fetched
           {| pr_pair := pair;
              pr_token0 := Some base;
              pr_token1 := Some quote;
              pr_prices :=
                [fetchPool "Uniswap V3" uniswap 18 6;
                 fetchPool "Aerodrome CL" aerodrome 18 6];
              pr_queriedAt := nowIso |}
    /\ dex (asPriceData (fetchPool "Uniswap V3" uniswap 18 6))
       = "Uniswap V3"%string
    /\ dex (asPriceData (fetchPool "Aerodrome CL" aerodrome 18 6))
       = "Aerodrome CL"%string.
Proof.
  intros Hpair.
  assert (Hdex : forall name addr d0 d1,
             dex (asPriceData (fetchPool name addr d0 d1)) = name).
  { intros name addr d0 d1. unfold fetchPoolPrice.
    destruct (readPool addr); reflexivity. }
  destruct (POOLS_configured pair Hpair) as [->| ->].
  - exists "0xd0b53D9277642d899DF5C87A3966A349A798F224"%string,
      "0xb2cc224c1c9feE385f8ad6a55b4d94E92359DC59"%string,
      "WETH"%string, "USDC"%string.
    repeat (split; [ reflexivity | ]). split; apply Hdex.
  - exists "0x4C36388bE6F416A29C8d8Eee81C771cE6bE14B18"%string,
      "0xBb5DFE1380333CEE4C2EeBd7202c80dE2256AdF4"%string,
      "WETH"%string, "USDbC"%string.
    repeat (split; [ reflexivity | ]). split; apply Hdex.
Qed.

(** X15.  For every configured pair [fetchPricesMultipleDEXes] does not
    throw and yields exactly two entries, Uniswap V3 first and Aerodrome
    CL second; each entry is computed from the reads of its own pool alone,
    with 18 and 6 decimals (the pair being WETH over a 6-decimal quote
    token), and carries its DEX name whether the reads
    succeed or fail, so a failing pool never disturbs the entry of the
    other. *)
Theorem fetchPrices_configured (pair : string) :
  POOLS pair <> None ->
  exists (uniswap aerodrome : string) (base quote : string),
    poolAddresses pair = [uniswap; aerodrome]
    /\ pair = (base ++ "/" ++ quote)%string
    /\ fetch pair
       = Fetched
           {| pr_pair := pair;
              pr_token0 := Some base;
              pr_token1 := Some quote;
              pr_prices :=
                [fetchPool "Uniswap V3" uniswap 18 6;
                 fetchPool "Aerodrome CL" aerodrome 18 6];
              pr_queriedAt := nowIso |}
    /\ dex (asPriceData (fetchPool "Uniswap V3" uniswap 18 6))
       = "Uniswap V3"%string
    /\ dex (asPriceData (fetchPool "Aerodrome CL" aerodrome 18 6))
       = "Aerodrome CL"%string.
Proof.
  exact (configured_fetch_facts pair).
Qed.

Lemma unusable_entry_invalid (name addr : string) (d0 d1 : float) :
  unusableRead (readPool addr) = true ->
  isValidPrice (asPriceData (fetchPool name addr d0 d1)) = false.
Proof.
  unfold fetchPoolPrice, unusableRead.
  destruct (readPool addr) as [s t l|msg]; intros H.
  - apply Z.eqb_eq in H. subst s. reflexivity.
  - cbn. destruct msg; reflexivity.
Qed.

(** X16.  For a configured pair, as soon as one of its two pools cannot be
    used (its reads fail, with whatever message, or its [slot0] holds a
    zero [sqrtPriceX96]) the analysis of the fetched prices reports
    insufficient data and no opportunity, whatever the other pool
    returned. *)
Theorem fetch_then_analyze_insufficient
    (pair : string) (tradeAmountEth gasCostUsd : float) (now : string) :
  POOLS pair <> None ->
  (exists addr : string,
      In addr (poolAddresses pair)
      /\ unusableRead (readPool addr) = true) ->
  exists (r : PricesResult) (count : nat),
    fetch pair = Fetched r
    /\ analyzeArbitrage (map asPriceData (pr_prices r))
         tradeAmountEth gasCostUsd now
       = InsufficientData "Insufficient valid price data from DEXes" count
    /\ (count <= 1)%nat.
Proof.
  intros Hpair (addr & Hin & Hbad).
  destruct (configured_fetch_facts pair Hpair)
    as (u & a & b & q & Haddr & _ & Hfetch & _).
  rewrite Haddr in Hin.
  eexists.
  exists (List.length
            (filter isValidPrice
               (map asPriceData
                  [fetchPool "Uniswap V3" u 18 6;
                   fetchPool "Aerodrome CL" a 18 6]))).
  split; [ exact Hfetch | ].
  cbn [pr_prices map]. unfold analyzeArbitrage. cbn [filter].
  destruct Hin as [<-|[<-|[]]].
  - rewrite (unusable_entry_invalid "Uniswap V3" _ _ _ Hbad).
    destruct (isValidPrice _); split; try reflexivity; cbn; lia.
  - rewrite (unusable_entry_invalid "Aerodrome CL" _ _ _ Hbad).
    destruct (isValidPrice _); split; try reflexivity; cbn; lia.
Qed.

End FetcherFacts.

Section FetcherExamples.

Import Arbitrage PriceFetcher Fetcher Examples.
Local Open Scope float_scope.

(** WETH/USDC with an Aerodrome pool that fails and a Uniswap pool that
    answers: two entries all the same. *)
Lemma fetchPrices_configured_witness :
  exists (q : PoolQuote) (e : FetchEntry),
    fetchPricesMultipleDEXes pow_10_12 (fun _ => false)
      (fun addr =>
         if String.eqb addr "0xb2cc224c1c9feE385f8ad6a55b4d94E92359DC59"
         then ReadsFailed "Pool not found"
         else ReadsOk 4339614439632553729548697 (-196000) 1000000)
      0 someTime "WETH/USDC"
    = Fetched
        {| pr_pair := "WETH/USDC";
           pr_token0 := Some "WETH"%string;
           pr_token1 := Some "USDC"%string;
           pr_prices := [Quote q; e];
           pr_queriedAt := someTime |}
    /\ dex (asPriceData (Quote q)) = "Uniswap V3"%string
    /\ dex (asPriceData e) = "Aerodrome CL"%string.
Proof.
  destruct (fetchPrices_configured pow_10_12 (fun _ => false)
              (fun addr =>
                 if String.eqb addr
                      "0xb2cc224c1c9feE385f8ad6a55b4d94E92359DC59"
                 then ReadsFailed "Pool not found"
                 else ReadsOk 4339614439632553729548697 (-196000) 1000000)
              0 someTime "WETH/USDC")
    as (u & a & b & q & Haddr & Hpair & Hfetch & Hu & Ha).
  - discriminate.
  - injection Haddr as <- <-.
    pose proof (f_equal
                  (fun o => match o with
                            | Fetched r => (pr_token0 r, pr_token1 r)
                            | UnknownPair _ => (None, None)
                            end) Hfetch) as Htokens.
    vm_compute in Htokens. injection Htokens as <- <-.
    eexists. eexists. rewrite Hfetch.
    split; [ | split; [ exact Hu | exact Ha ] ].
    reflexivity.
Defined.

(** The Aerodrome pool of WETH/USDC fails, the Uniswap pool answers. *)
Lemma fetch_then_analyze_insufficient_witness :
  exists (r : PricesResult) (count : nat),
    fetchPricesMultipleDEXes pow_10_12 (fun _ => false)
      (fun addr =>
         if String.eqb addr "0xb2cc224c1c9feE385f8ad6a55b4d94E92359DC59"
         then ReadsFailed "Pool not found"
         else ReadsOk 4339614439632553729548697 (-196000) 1000000)
      0 someTime "WETH/USDC"
    = Fetched r
    /\ analyzeArbitrage (map asPriceData (pr_prices r)) 1 0.01 someTime
       = InsufficientData "Insufficient valid price data from DEXes" count
    /\ (count <= 1)%nat.
Proof.
  apply (fetch_then_analyze_insufficient pow_10_12 (fun _ => false)
           (fun addr =>
              if String.eqb addr "0xb2cc224c1c9feE385f8ad6a55b4d94E92359DC59"
              then ReadsFailed "Pool not found"
              else ReadsOk 4339614439632553729548697 (-196000) 1000000)
           0 someTime "WETH/USDC" 1 0.01 someTime).
  - discriminate.
  - exists "0xb2cc224c1c9feE385f8ad6a55b4d94E92359DC59"%string.
    split; [ right; left; reflexivity | reflexivity ].
Defined.

End FetcherExamples.
